(** * RelStorage: object mover, row/commit locker and query-variant selector

    A shallow embedding of

    - [relstorage/adapters/_util.py]      ([query_property], [noop_when_history_free]),
    - [relstorage/adapters/locker.py]     ([AbstractLocker]),
    - [relstorage/adapters/mover.py]      ([AbstractObjectMover]),
    - [relstorage/adapters/postgresql/mover.py] ([PostgreSQLObjectMover]),

    together with the relational meaning of the SQL statements those
    classes send to the database.  Definitions come first, the verified
    properties follow. *)

From Stdlib Require Import ZArith List Ascii String Sorting.Sorted Permutation.
From stdpp Require Import base decidable option list sorting gmap strings.

Local Open Scope Z_scope.
Local Open Scope string_scope.
Local Open Scope list_scope.

(** ** Python values, exceptions and results *)

Module Py.

(** The exception classes that occur in the modelled code.  [DBAPIError]
    stands for the classes of the database driver module (for instance
    [OperationalError] or [ProgrammingError]); they are told apart by
    name. *)
Inductive exc_class : Type :=
| UnableToAcquireCommitLockError
| Unsupported
| AssertionError
| TypeError
| POSKeyError
| OSError
| DBAPIError (name : string).

#[global] Instance exc_class_eq_dec : EqDecision exc_class.
Proof. solve_decision. Defined.

(** An exception instance: its class and [str(e)]. *)
Record exn : Type := Exn { exn_class : exc_class; exn_str : string }.

#[global] Instance exn_eq_dec : EqDecision exn.
Proof. solve_decision. Defined.

(** The outcome of a call: a returned value or a raised exception. *)
Inductive result (A : Type) : Type :=
| Return (a : A)
| Raise (e : exn).
Arguments Return {A} a.
Arguments Raise {A} e.

Definition bind {A B} (m : result A) (k : A -> result B) : result B :=
  match m with
  | Return a => k a
  | Raise e => Raise e
  end.

(** [isinstance(e, classes)] for a tuple of exception classes; the
    class hierarchy is folded into the predicate. *)
Definition isinstance (classes : exc_class -> bool) (e : exn) : bool :=
  classes (exn_class e).

(** Truth value of a sequence ([if rows], [not rows[0]]). *)
Definition truthy {A} (l : list A) : bool :=
  match l with [] => false | _ :: _ => true end.

(** [str(cls)]-style names, for [repr]. *)
Definition class_name (c : exc_class) : string :=
  match c with
  | UnableToAcquireCommitLockError => "UnableToAcquireCommitLockError"
  | Unsupported => "Unsupported"
  | AssertionError => "AssertionError"
  | TypeError => "TypeError"
  | POSKeyError => "POSKeyError"
  | OSError => "OSError"
  | DBAPIError name => name
  end.

(** ["%r(%r)" % (type(e), e)], for messages without quotes. *)
Definition repr_type_and_value (e : exn) : string :=
  "<class '" +:+ class_name (exn_class e) +:+ "'>("
  +:+ class_name (exn_class e) +:+ "('" +:+ exn_str e +:+ "'))".

Definition newline : string := String (Ascii.ascii_of_nat 10) EmptyString.

(** [bytes]. *)
Definition bytes : Type := list Byte.byte.

Definition len (data : bytes) : Z := Z.of_nat (length data).

End Py.

Export Py.

Notation "'let*' x ':=' m 'in' k" := (Py.bind m (fun x => k))
  (at level 10, x name, m at level 200, k at level 200).

(** ** SQL statements

    The statements are kept as syntax: each constructor stands for one
    statement text of the source, quoted next to it. *)

Module Sql.

(** The two tables that hold "the current row" of an object:
    [current_object] when history is kept, [object_state] otherwise. *)
Inductive table_name : Type := current_object_t | object_state_t.

#[global] Instance table_name_eq_dec : EqDecision table_name.
Proof. solve_decision. Defined.

Inductive sql : Type :=
(** [SELECT tid FROM commit_row_lock FOR UPDATE] *)
| SelectCommitRowLock
(** [SELECT zoid FROM <t> WHERE zoid IN (SELECT zoid FROM temp_store)] *)
| SelectCurrentObjects (t : table_name)
(** [SELECT zoid, <t>.tid, temp_store.prev_tid FROM temp_store
     JOIN <t> USING (zoid) WHERE temp_store.prev_tid != <t>.tid
     ORDER BY zoid] *)
| DetectConflict (t : table_name)
(** [INSERT INTO current_object (zoid, tid) SELECT zoid, tid
     FROM object_state WHERE tid = %s AND prev_tid = 0] *)
| UpdateCurrentInsert
(** [UPDATE current_object SET tid = %s WHERE zoid IN (SELECT zoid
     FROM object_state WHERE tid = %s AND prev_tid != 0 ORDER BY zoid)] *)
| UpdateCurrentUpdate
(** [INSERT INTO current_object (zoid, tid) SELECT zoid, tid
     FROM object_state WHERE tid = %s ORDER BY zoid
     ON CONFLICT (zoid) DO UPDATE SET tid = excluded.tid] *)
| UpdateCurrentUpsert
(** [INSERT INTO object_state (zoid, tid, state_size, state)
     SELECT zoid, %s, COALESCE(LENGTH(state), 0), state FROM temp_store
     ORDER BY zoid ON CONFLICT (zoid) DO UPDATE SET ...] *)
| MoveFromTempHfInsertRaw
(** [EXECUTE move_from_temp(%s)] *)
| ExecuteMoveFromTemp
(** [SELECT chunk FROM blob_chunk WHERE zoid = %s AND tid = %s
     ORDER BY chunk_num] *)
| SelectBlobChunk.

(** Statement texts are Python strings: they can be extended with
    [+] and interpolated with [%]. *)
Inductive sqltext : Type :=
| Text (q : sql)
| Plus (t : sqltext) (extension : string)
| Percent (t : sqltext)
(** ['{select} ORDER BY ZOID {lock}'.format(select=..., lock=...)] *)
| OrderByZoid (select : sqltext) (lock : string).

#[global] Instance sql_eq_dec : EqDecision sql.
Proof. solve_decision. Defined.

#[global] Instance sqltext_eq_dec : EqDecision sqltext.
Proof. solve_decision. Defined.

End Sql.

Export Sql.

(** ** [relstorage/adapters/_util.py] *)

Module Util.

(** A member of a [*_queries] two-tuple: a statement, a tuple that
    starts with a statement and names a table, or an exception
    instance or class marking the variant as unsupported. *)
Inductive member : Type :=
| MQuery (t : sqltext)
| MTuple (t : sqltext) (table : table_name)
| MException (e : exn)
| MExceptionClass (c : exc_class).

(** [query + extension]: defined on strings, a [TypeError] on tuples. *)
Definition add_extension (query : member) (extension : string) : result member :=
  match query with
  | MQuery t => Return (MQuery (Plus t extension))
  | _ => Raise (Exn TypeError "can only concatenate tuple (not str) to tuple")
  end.

(** [intern(query % inst.runner.script_vars)]. *)
Definition format_query (query : member) : result member :=
  match query with
  | MQuery t => Return (MQuery (Percent t))
  | _ => Raise (Exn TypeError "unsupported operand type(s) for %")
  end.

(** [query_property(base_name, extension, formatted)]: the function
    [prop] that the property evaluates on an instance.  [queries] is
    the instance's [<base_name>_queries] attribute and [keep_history]
    its mode flag.  The [Lazy] wrapper keeps a returned value on the
    instance; a raise leaves nothing behind, so it recurs on every
    access. *)
Definition select_variant (queries : member * member) (keep_history : bool)
  : member :=
  if keep_history then queries.1 else queries.2.

(** The exception a member stands for, if it marks its variant as
    unsupported: [isinstance(query, Exception)], or a subclass of
    [Exception], which [raise] instantiates. *)
Definition unsupported_marker (query : member) : option exn :=
  match query with
  | MException e => Some e
  | MExceptionClass c => Some (Exn c "")
  | _ => None
  end.

Definition query_property (extension : string) (formatted : bool)
    (queries : member * member) (keep_history : bool) : result member :=
  let query := select_variant queries keep_history in
  match query with
  | MException e => Raise e
  | MExceptionClass c => Raise (Exn c "")
  | _ =>
      let* query := (if bool_decide (extension = "") then Return query
                     else add_extension query extension) in
      let* query := (if formatted then format_query query else Return query) in
      Return query
  end.

(** The default arguments, [query_property(base_name)]. *)
Definition _query_property := query_property "" false.

(** [formatted_query_property = partial(query_property, formatted=True)]. *)
Definition formatted_query_property (extension : string) :=
  query_property extension true.

(** *** [noop_when_history_free]

    The decorator replaces the method in the instance [__dict__] on
    the first call.  [slot] is the entry [meth_name] of the instance
    dictionary: absent, [no_op], or [partial(meth, self)]. *)
Inductive slot : Type := NoOp | Bound.

(** What the swizzler installs, by mode. *)
Definition installed (keep_history : bool) : slot :=
  if negb keep_history then NoOp else Bound.

(** The dictionary entries an instance can have: none before the first
    call, the installed replacement afterwards. *)
Definition entry_of (keep_history : bool) (dict : option slot) : Prop :=
  dict = None ∨ dict = Some (installed keep_history).

Section noop_when_history_free.
Context {S A R : Type}.
(** [meth(self, args)], acting on a state [S]; [none] is Python's
    [None] in the method's result type. *)
Variable meth : A -> S -> result R * S.
Variable none : R.

(** [no_op]: accepts any arguments, does nothing, returns [None]. *)
Definition no_op (_ : A) (s : S) : result R * S := (Return none, s).

(** [bound = partial(meth, self)]. *)
Definition bound (a : A) (s : S) : result R * S := meth a s.

Definition call_slot (sl : slot) : A -> S -> result R * S :=
  match sl with NoOp => no_op | Bound => bound end.

(** [swizzler(self, args)]: installs the replacement under the
    method's name in the instance dictionary and calls it. *)
Definition swizzler (keep_history : bool) (a : A) (s : S)
  : slot * (result R * S) :=
  let sl := installed keep_history in
  (sl, call_slot sl a s).

(** Calling the method on an instance whose dictionary entry for the
    method's name is [dict]: an entry shadows the class attribute,
    which is the swizzler.  The new dictionary entry is returned with
    the outcome. *)
Definition call_method (keep_history : bool) (dict : option slot)
    (a : A) (s : S) : option slot * (result R * S) :=
  match dict with
  | Some sl => (Some sl, call_slot sl a s)
  | None => let '(sl, out) := swizzler keep_history a s in (Some sl, out)
  end.
End noop_when_history_free.

End Util.

Export Util.

(** ** The database as one session sees it

    Tables are bags of rows, in the order the engine happens to scan
    them.  Statements get their relational meaning.  Of the constraints
    of the schema, the primary key [zoid] of [current_object] is
    enforced by the statements that insert into that table; the other
    constraints and failures of the connection are not part of it. *)

Module Db.

(** [temp_store (zoid, prev_tid, md5, state)], the staging area of the
    session. *)
Record temp_store_row : Type := TempStoreRow {
  ts_zoid : Z;
  ts_prev_tid : Z;
  ts_md5 : option string;
  ts_state : option bytes
}.

(** [current_object (zoid, tid)], present when history is kept. *)
Record current_object_row : Type := CurrentObjectRow {
  co_zoid : Z;
  co_tid : Z
}.

(** [object_state (zoid, tid, prev_tid, md5, state_size, state)].  The
    history-free table has no [prev_tid] and [md5] columns; its rows
    carry [0] and [None] there. *)
Record object_state_row : Type := ObjectStateRow {
  os_zoid : Z;
  os_tid : Z;
  os_prev_tid : Z;
  os_md5 : option string;
  os_state_size : Z;
  os_state : option bytes
}.

(** [blob_chunk (zoid, tid, chunk_num, chunk)]; [chunk] is the
    identifier of a large object. *)
Record blob_chunk_row : Type := BlobChunkRow {
  bc_zoid : Z;
  bc_tid : Z;
  bc_chunk_num : Z;
  bc_chunk : Z
}.

Record database : Type := Database {
  temp_store : list temp_store_row;
  current_object : list current_object_row;
  object_state : list object_state_row;
  blob_chunk : list blob_chunk_row;
  (** the large objects of the server, by identifier *)
  largeobject : gmap Z bytes
}.

(** A store connection: the database and the row locks the session
    holds, oldest first. *)
Record session : Type := Session {
  db : database;
  row_locks : list (table_name * Z)
}.

(** The table that holds current rows, by mode. *)
Definition current_table (keep_history : bool) : table_name :=
  if keep_history then current_object_t else object_state_t.

(** The row locks of [after] that [before] did not hold yet. *)
Definition acquired (before after : session) : list (table_name * Z) :=
  drop (length (row_locks before)) (row_locks after).

(** The [(zoid, tid)] columns of the table that holds current rows. *)
Definition current_rows (t : table_name) (d : database) : list (Z * Z) :=
  match t with
  | current_object_t => (fun r => (co_zoid r, co_tid r)) <$> current_object d
  | object_state_t => (fun r => (os_zoid r, os_tid r)) <$> object_state d
  end.

(** Rows compared by an integer column. *)
Definition key_le {A} (key : A -> Z) : relation A := fun x y => key x <= key y.

#[global] Instance key_le_dec {A} (key : A -> Z) : RelDecision (key_le key).
Proof. intros x y. unfold key_le. apply _. Defined.

(** [ORDER BY <key>]. *)
Definition order_by {A} (key : A -> Z) (rows : list A) : list A :=
  merge_sort (key_le key) rows.

(** [SELECT zoid FROM <t> WHERE zoid IN (SELECT zoid FROM temp_store)]. *)
Definition select_current_objects (t : table_name) (d : database) : list Z :=
  filter (fun z => z ∈ ts_zoid <$> temp_store d) (fst <$> current_rows t d).

(** [temp_store JOIN <t> USING (zoid)]. *)
Definition join_using_zoid (temp : list temp_store_row) (cur : list (Z * Z))
  : list (temp_store_row * (Z * Z)) :=
  temp ≫= (fun ts => (fun c => (ts, c)) <$> filter (fun c => c.1 = ts_zoid ts) cur).

(** [SELECT zoid, <t>.tid, temp_store.prev_tid FROM temp_store
    JOIN <t> USING (zoid) WHERE temp_store.prev_tid != <t>.tid
    ORDER BY zoid]. *)
Definition select_conflicts (t : table_name) (d : database) : list (Z * Z * Z) :=
  order_by (fun r => r.1.1)
    ((fun p => (ts_zoid p.1, p.2.2, ts_prev_tid p.1)) <$>
       filter (fun p => ts_prev_tid p.1 ≠ p.2.2)
              (join_using_zoid (temp_store d) (current_rows t d))).

(** A lock clause that is empty or only spaces locks nothing. *)
Fixpoint blank (s : string) : bool :=
  match s with
  | EmptyString => true
  | String c s' => bool_decide (c = " "%char) && blank s'
  end.

(** The rows a locking [SELECT] returns are locked one after the
    other, in the order it returns them. *)
Definition take_row_locks (lock : string) (t : table_name) (zoids : list Z)
    (s : session) : session :=
  if blank lock then s
  else {| db := db s; row_locks := (row_locks s ++ ((fun z => (t, z)) <$> zoids))%list |}.

(** [cursor.execute(stmt)] and the iteration over the cursor, for the
    statements that return a [zoid] column. *)
Definition execute_zoids (stmt : sqltext) (s : session) : result (list Z * session) :=
  match stmt with
  | Text (SelectCurrentObjects t) => Return (select_current_objects t (db s), s)
  | OrderByZoid (Text (SelectCurrentObjects t)) lock =>
      let rows := order_by id (select_current_objects t (db s)) in
      Return (rows, take_row_locks lock t rows s)
  | _ => Raise (Exn (DBAPIError "ProgrammingError") "not a zoid query")
  end.

(** The objects with a row at [tid] in [object_state] whose [prev_tid]
    satisfies [p]. *)
Definition zoids_at (tid : Z) (p : Z -> bool) (d : database) : list Z :=
  os_zoid <$> filter (fun r => os_tid r = tid ∧ p (os_prev_tid r) = true)
                     (object_state d).

Definition with_current_object (rows : list current_object_row) (d : database)
  : database :=
  {| temp_store := temp_store d;
     current_object := rows;
     object_state := object_state d;
     blob_chunk := blob_chunk d;
     largeobject := largeobject d |}.

(** The objects with a state written by transaction [tid]; among
    them those recorded as created, with previous transaction 0, and
    those recorded as modified. *)
Definition stored_at (tid : Z) (d : database) (z : Z) : Prop :=
  exists r, r ∈ object_state d /\ os_zoid r = z /\ os_tid r = tid.

Definition created_at (tid : Z) (d : database) (z : Z) : Prop :=
  exists r, r ∈ object_state d /\ os_zoid r = z /\ os_tid r = tid
            /\ os_prev_tid r = 0.

Definition modified_at (tid : Z) (d : database) (z : Z) : Prop :=
  exists r, r ∈ object_state d /\ os_zoid r = z /\ os_tid r = tid
            /\ os_prev_tid r <> 0.

(** What the driver raises when a statement would leave two rows of
    [current_object] with one [zoid]. *)
Definition IntegrityError : exn :=
  Exn (DBAPIError "IntegrityError") "duplicate key value violates unique constraint".

(** [INSERT INTO current_object (zoid, tid) SELECT zoid, tid
    FROM object_state WHERE tid = %s AND prev_tid = 0].  The schema
    declares [zoid BIGINT NOT NULL PRIMARY KEY] for [current_object]:
    the statement is rejected, and inserts nothing, when a selected
    object has a row already or is selected twice. *)
Definition update_current_insert (tid : Z) (d : database) : result database :=
  let selected := zoids_at tid (Z.eqb 0) d in
  if decide (NoDup selected
             /\ Forall (fun z => z ∉ co_zoid <$> current_object d) selected)
  then Return (with_current_object
                 (current_object d ++
                    ((fun z => CurrentObjectRow z tid) <$> selected))%list
                 d)
  else Raise IntegrityError.

(** [INSERT INTO current_object (zoid, tid) SELECT zoid, tid
    FROM object_state WHERE tid = %s ORDER BY zoid
    ON CONFLICT (zoid) DO UPDATE SET tid = excluded.tid]: a selected
    object that has a row gets [tid] there, one that has none gets a
    new row.  The server refuses to touch a row twice in one
    statement. *)
Definition update_current_upsert (tid : Z) (d : database) : result database :=
  let selected := order_by id (zoids_at tid (fun _ => true) d) in
  if decide (NoDup selected)
  then Return (with_current_object
                 (((fun c => if bool_decide (co_zoid c ∈ selected)
                             then CurrentObjectRow (co_zoid c) tid else c)
                     <$> current_object d) ++
                    ((fun z => CurrentObjectRow z tid)
                       <$> filter (fun z => z ∉ co_zoid <$> current_object d)
                                  selected))%list
                 d)
  else Raise (Exn (DBAPIError "ProgrammingError")
                "ON CONFLICT DO UPDATE command cannot affect row a second time").

(** [UPDATE current_object SET tid = %s WHERE zoid IN (SELECT zoid
    FROM object_state WHERE tid = %s AND prev_tid != 0 ORDER BY zoid)]. *)
Definition update_current_update (new_tid tid : Z) (d : database) : database :=
  let modified := order_by id (zoids_at tid (fun p => negb (Z.eqb 0 p)) d) in
  with_current_object
    ((fun c => if bool_decide (co_zoid c ∈ modified)
               then CurrentObjectRow (co_zoid c) new_tid else c)
       <$> current_object d)
    d.

(** [cursor.execute(stmt, params)] for the statements that republish
    the current pointers. *)
Definition execute_update_current (stmt : sqltext) (params : list Z)
    (d : database) : result database :=
  match stmt, params with
  | Text UpdateCurrentInsert, [tid] => update_current_insert tid d
  | Text UpdateCurrentUpsert, [tid] => update_current_upsert tid d
  | Text UpdateCurrentUpdate, [new_tid; tid] =>
      Return (update_current_update new_tid tid d)
  | _, _ => Raise (Exn (DBAPIError "ProgrammingError") "not a current_object statement")
  end.

(** [cursor.execute(stmt)] and [cursor.fetchall()] for the conflict
    query. *)
Definition execute_conflicts (stmt : member) (d : database)
  : result (list (Z * Z * Z)) :=
  match stmt with
  | MQuery (Text (DetectConflict t)) => Return (select_conflicts t d)
  | _ => Raise (Exn (DBAPIError "ProgrammingError") "not the conflict query")
  end.

(** [SELECT chunk FROM blob_chunk WHERE zoid = %s AND tid = %s
    ORDER BY chunk_num]. *)
Definition select_blob_chunk (oid tid : Z) (d : database) : list Z :=
  bc_chunk <$>
    order_by bc_chunk_num
      (filter (fun r => bc_zoid r = oid ∧ bc_tid r = tid) (blob_chunk d)).

(** [cursor.execute(stmt, (oid, tid))] and [cursor.fetchall()] for the
    chunk query. *)
Definition execute_blob_chunk (stmt : sqltext) (params : list Z) (d : database)
  : result (list Z) :=
  match stmt, params with
  | Text SelectBlobChunk, [oid; tid] => Return (select_blob_chunk oid tid d)
  | _, _ => Raise (Exn (DBAPIError "ProgrammingError") "not the chunk query")
  end.

End Db.

Export Db.

(** ** The row batcher *)

Module Batch.

(** Modelled from the spec: [RowBatcher.select_from] lives in
    relstorage/adapters/batch.py, which is not among the sources.  The
    core "always goes through this batching interface with a row-count
    ceiling per batch": the filter values are cut, in order, into
    batches of at most [row_limit]. *)
Fixpoint batches_aux (fuel row_limit : nat) (values : list Z) : list (list Z) :=
  match fuel with
  | O => []
  | S fuel' =>
      match take row_limit values with
      | [] => []
      | batch => batch :: batches_aux fuel' row_limit (drop row_limit values)
      end
  end.

(** Modelled from the spec: the batches of [select_from], see
    [batches_aux]; no more batches than values are needed. *)
Definition batches (row_limit : nat) (values : list Z) : list (list Z) :=
  batches_aux (length values) row_limit values.

(** Modelled from the spec: the rows that
    [SELECT zoid FROM <t> WHERE zoid IN (<batch>)] finds.  The locker
    "sorts this union by ObjectID ascending, and takes row-level locks
    in that exact order": the keys are looked up in the order of the
    batch. *)
Definition rows_in (t : table_name) (d : database) (batch : list Z) : list Z :=
  batch ≫= (fun v => filter (fun z => z = v) (fst <$> current_rows t d)).

(** Modelled from the spec: one statement of [select_from], the
    select above followed by [suffix], the lock clause. *)
Definition select_zoid_in (t : table_name) (suffix : string) (batch : list Z)
    (s : session) : list Z * session :=
  let rows := rows_in t (db s) batch in
  (rows, take_row_locks suffix t rows s).

(** Modelled from the spec: [select_from(('zoid',), table, suffix, zoid=values)],
    "selectFrom(columns, table, filters) -> sequenceOf(row)": the rows
    of all batches, one batch after the other. *)
Definition select_from (row_limit : nat) (t : table_name) (suffix : string)
    (values : list Z) (s : session) : list Z * session :=
  foldl (fun acc batch =>
           let out := select_zoid_in t suffix batch acc.2 in
           ((acc.1 ++ out.1)%list, out.2))
        ([], s) (batches row_limit values).

End Batch.

(** ** [relstorage/adapters/locker.py] *)

Module Locker.

(** The driver's capability set, as far as the locker uses it: the two
    tuples of exception classes, as [isinstance] tests. *)
Record Driver : Type := {
  lock_exceptions : exc_class -> bool;
  illegal_operation_exceptions : exc_class -> bool
}.

(** What the backend answers to [cursor.execute(stmt)] followed by
    [cursor.fetchall()].  A row is a tuple of nullable integers. *)
Inductive response : Type :=
| ExecuteRaises (e : exn)
| FetchallRaises (e : exn)
| Fetched (rows : list (list (option Z))).

(** The store cursor while the commit lock is requested: whether the
    request meets contention is decided by other sessions, so the
    answer to each statement is given. *)
Definition commit_cursor : Type := member -> response.

Record AbstractLocker : Type := {
  keep_history : bool;
  driver : Driver;
  _supports_row_lock_nowait : bool;
  _lock_current_clause : string;
  (** overridden by subclasses; see [default_debug_info] *)
  _get_commit_lock_debug_info : commit_cursor -> result string
}.

(** [_get_commit_lock_debug_info] of the base class. *)
Definition default_debug_info (_ : commit_cursor) : result string := Return "".

(** The class [AbstractLocker] itself, on a driver. *)
Definition abstract_locker (keep : bool) (d : Driver) : AbstractLocker :=
  {| keep_history := keep;
     driver := d;
     _supports_row_lock_nowait := true;
     _lock_current_clause := "FOR UPDATE";
     _get_commit_lock_debug_info := default_debug_info |}.

Definition _get_current_objects_queries : member * member :=
  (MTuple (Text (SelectCurrentObjects current_object_t)) current_object_t,
   MTuple (Text (SelectCurrentObjects object_state_t)) object_state_t).

Definition _get_current_objects_query (self : AbstractLocker) : result member :=
  _query_property _get_current_objects_queries (keep_history self).

(** [_lock_current_objects_query]: the first component of the chosen
    tuple, ordered and with the lock clause. *)
Definition _lock_current_objects_query (self : AbstractLocker) : result sqltext :=
  let* query := _get_current_objects_query self in
  match query with
  | MTuple select _ => Return (OrderByZoid select (_lock_current_clause self))
  | _ => Raise (Exn TypeError "not a tuple")
  end.

(** [sorted(oids_being_updated | set(current_oids))]. *)
Definition oids_to_lock (rows current_oids : list Z) : list Z :=
  let oids_being_updated : gset Z := list_to_set rows in
  let oids_to_lock : gset Z := oids_being_updated ∪ list_to_set current_oids in
  merge_sort Z.le (elements oids_to_lock).

(** [make_batcher(cursor, row_limit=1000)]. *)
Definition row_limit : nat := 1000.

(** The branch of [lock_current_objects] taken when [current_oids] is
    not empty: read the staged objects that have a current row, unite
    them with [current_oids], sort, and lock through the batcher. *)
Definition lock_explicit_oids (self : AbstractLocker) (cursor : session)
    (current_oids : list Z) : result session :=
  let* query := _get_current_objects_query self in
  match query with
  | MTuple stmt table =>
      let* out := execute_zoids stmt cursor in
      let oids := oids_to_lock out.1 current_oids in
      let rows := Batch.select_from row_limit table
                    ("  " +:+ _lock_current_clause self +:+ " ") oids out.2 in
      (* consume(rows) *)
      Return rows.2
  | _ => Raise (Exn TypeError "cannot unpack")
  end.

(** The other branch: one ordered, locking query. *)
Definition lock_ordered_query (self : AbstractLocker) (cursor : session)
  : result session :=
  let* stmt := _lock_current_objects_query self in
  let* rows := execute_zoids stmt cursor in
  (* consume(rows) *)
  Return rows.2.

Definition lock_current_objects (self : AbstractLocker) (cursor : session)
    (current_oids : list Z) : result session :=
  if truthy current_oids then lock_explicit_oids self cursor current_oids
  else lock_ordered_query self cursor.

Definition _commit_lock_queries : member * member :=
  (MQuery (Text SelectCommitRowLock), MQuery (Text SelectCommitRowLock)).

Definition _commit_lock_query (self : AbstractLocker) : result member :=
  _query_property _commit_lock_queries (keep_history self).

Definition _commit_lock_nowait_queries : member * member :=
  (MQuery (Plus (Text SelectCommitRowLock) " NOWAIT"),
   MQuery (Plus (Text SelectCommitRowLock) " NOWAIT")).

Definition _commit_lock_nowait_query (self : AbstractLocker) : result member :=
  _query_property _commit_lock_nowait_queries (keep_history self).

(** The backend fails the statement with [e], while executing it or
    while fetching its rows. *)
Definition backend_raises (r : response) (e : exn) : Prop :=
  r = ExecuteRaises e ∨ r = FetchallRaises e.

(** The statement [hold_commit_lock] settles on before the [try].
    Without [NOWAIT] support [_set_row_lock_nowait] is called instead,
    whose [_set_row_lock_timeout(cursor, 0)] does nothing in this
    class. *)
Definition lock_stmt (self : AbstractLocker) (nowait : bool) : result member :=
  let* lock_stmt := _commit_lock_query self in
  if nowait then
    if _supports_row_lock_nowait self then _commit_lock_nowait_query self
    else Return lock_stmt
  else Return lock_stmt.

Definition no_row_returned : exn :=
  Exn UnableToAcquireCommitLockError "No row returned from commit_row_lock".

(** The body of the [try]: execute, fetch, and insist on a row. *)
Definition try_lock (cursor : commit_cursor) (stmt : member) : result unit :=
  match cursor stmt with
  | ExecuteRaises e => Raise e
  | FetchallRaises e => Raise e
  | Fetched rows =>
      if negb (truthy rows) || negb (truthy (hd [] rows))
      then Raise no_row_returned
      else Return tt
  end.

(** The text gathered for the error message; a failure while gathering
    it is logged and its [repr] used instead. *)
Definition debug_info (self : AbstractLocker) (cursor : commit_cursor) : string :=
  match _get_commit_lock_debug_info self cursor with
  | Return info => info
  | Raise nested => repr_type_and_value nested
  end.

Definition message (e : exn) (debug_info : string) : string :=
  "Acquiring a commit lock failed: " +:+ exn_str e
  +:+ (if bool_decide (debug_info = "") then "" else newline +:+ debug_info).

Definition hold_commit_lock (self : AbstractLocker) (cursor : commit_cursor)
    (ensure_current nowait : bool) : result bool :=
  let* stmt := lock_stmt self nowait in
  match try_lock cursor stmt with
  | Return _ => Return true
  | Raise e =>
      if isinstance (illegal_operation_exceptions (driver self)) e then
        (* Bug in our code. *)
        Raise e
      else if isinstance (lock_exceptions (driver self)) e then
        if nowait then Return false
        else Raise (Exn UnableToAcquireCommitLockError
                        (message e (debug_info self cursor)))
      else Raise e
  end.

End Locker.

(** ** [relstorage/adapters/mover.py] *)

Module Mover.

(** Values bound to the parameters of a statement. *)
Inductive sqlval : Type :=
| Null
| Int (z : Z)
| Str (s : string)
| Blob (b : bytes).

(** The driver, as far as the mover uses it.  What [Binary(None)]
    does depends on the driver. *)
Record IDBDriver : Type := {
  Binary : bytes -> sqlval;
  Binary_of_None : result sqlval
}.

(** The row batcher as the mover sees it: the calls it receives. *)
Inductive batcher_call : Type :=
| delete_from (table : string) (filters : list (string * Z))
| insert_into (header row_schema : string) (row : list sqlval)
    (rowkey : list Z) (size : Z) (command suffix : string).

(** A batcher: the calls received so far, oldest first. *)
Definition batcher : Type := list batcher_call.

Record AbstractObjectMover : Type := {
  keep_history : bool;
  driver : IDBDriver
}.

(** An instance in the given mode. *)
Definition mover (keep : bool) (drv : IDBDriver) : AbstractObjectMover :=
  {| keep_history := keep; driver := drv |}.

Definition nullable (md5sum : option string) : sqlval :=
  match md5sum with
  | None => Null
  | Some s => Str s
  end.

(** [command == 'INSERT' and not suffix]. *)
Definition plain_insert (command suffix : string) : bool :=
  bool_decide (command = "INSERT") && bool_decide (suffix = "").

Definition _detect_conflict_queries : member * member :=
  (MQuery (Text (DetectConflict current_object_t)),
   MQuery (Text (DetectConflict object_state_t))).

Definition _detect_conflict_query (self : AbstractObjectMover) : result member :=
  _query_property _detect_conflict_queries (keep_history self).

Definition detect_conflict (self : AbstractObjectMover) (cursor : database)
  : result (list (Z * Z * Z)) :=
  let* stmt := _detect_conflict_query self in
  let* rows := execute_conflicts stmt cursor in
  Return rows.

Definition _update_current_insert_query : sqltext := Text UpdateCurrentInsert.

Definition _update_current_update_query : option sqltext :=
  Some (Text UpdateCurrentUpdate).

(** The method [update_current] before it is decorated, as it runs on
    an instance of a class whose attributes
    [_update_current_insert_query] and [_update_current_update_query]
    are the given ones. *)
Definition update_current_body (insert_query : sqltext)
    (update_query : option sqltext) (tid : Z) (cursor : database)
  : result unit * database :=
  match execute_update_current insert_query [tid] cursor with
  | Raise e => (Raise e, cursor)
  | Return cursor1 =>
      match update_query with
      | Some stmt =>
          match execute_update_current stmt [tid; tid] cursor1 with
          | Raise e => (Raise e, cursor1)
          | Return cursor2 => (Return tt, cursor2)
          end
      | None => (Return tt, cursor1)
      end
  end.

(** The method with the attributes of [AbstractObjectMover] itself. *)
Definition update_current_meth (tid : Z) (cursor : database)
  : result unit * database :=
  update_current_body _update_current_insert_query
    _update_current_update_query tid cursor.

(** [update_current], decorated with [noop_when_history_free].  [dict]
    is the entry for the method's name in the instance dictionary; the
    entry after the call comes back with the outcome. *)
Definition update_current (self : AbstractObjectMover) (dict : option slot)
    (cursor : database) (tid : Z) : option slot * (result unit * database) :=
  call_method update_current_meth tt (keep_history self) dict tid cursor.

Definition row_schema_object_state : string :=
  "%s, %s, COALESCE((SELECT tid FROM current_object WHERE zoid = %s), 0), %s, %s, %s".

Section digest.
(** [md5(data).hexdigest()]. *)
Variable md5_hexdigest : bytes -> string.

(** The method [_compute_md5sum] before it is decorated. *)
Definition _compute_md5sum_meth (data : option bytes) (_ : unit)
  : result (option string) * unit :=
  (Return (match data with
           | None => None
           | Some d => Some (md5_hexdigest d)
           end), tt).

(** [_compute_md5sum], decorated with [noop_when_history_free]. *)
Definition _compute_md5sum (self : AbstractObjectMover) (dict : option slot)
    (data : option bytes) : result (option string) :=
  (call_method _compute_md5sum_meth None (keep_history self) dict data tt).2.1.

(** [_generic_store_temp(batcher, oid, prev_tid, data, command, suffix)].
    The arguments of [insert_into] are evaluated in order; [len(data)]
    comes after [self.driver.Binary(data)]. *)
Definition _generic_store_temp (self : AbstractObjectMover) (b : batcher)
    (oid prev_tid : Z) (data : option bytes) (command suffix : string)
  : result unit * batcher :=
  match _compute_md5sum self None data with
  | Raise e => (Raise e, b)
  | Return md5sum =>
      let b := if plain_insert command suffix
               then (b ++ [delete_from "temp_store" [("zoid", oid)]])%list
               else b in
      let args :=
        let* state := match data with
                      | Some d => Return (Binary (driver self) d)
                      | None => Binary_of_None (driver self)
                      end in
        let* size := match data with
                     | Some d => Return (len d)
                     | None => Raise (Exn TypeError
                                 "object of type 'NoneType' has no len()")
                     end in
        Return (state, size) in
      match args with
      | Raise e => (Raise e, b)
      | Return (state, size) =>
          (Return tt,
           (b ++ [insert_into "temp_store (zoid, prev_tid, md5, state)"
                    "%s, %s, %s, %s"
                    [Int oid; Int prev_tid; nullable md5sum; state]
                    [oid] size command suffix])%list)
      end
  end.

(** [if data] on an optional byte string. *)
Definition nonempty (data : option bytes) : bool :=
  match data with
  | Some d => truthy d
  | None => false
  end.

(** [_generic_restore(batcher, oid, tid, data, command, suffix)]. *)
Definition _generic_restore (self : AbstractObjectMover) (b : batcher)
    (oid tid : Z) (data : option bytes) (command suffix : string)
  : result unit * batcher :=
  match _compute_md5sum self None data with
  | Raise e => (Raise e, b)
  | Return md5sum =>
      let '(encoded, size) :=
        match data with
        | Some d => (Binary (driver self) d, len d)
        | None => (Null, 0)
        end in
      if keep_history self then
        let b := if plain_insert command suffix
                 then (b ++ [delete_from "object_state"
                               [("zoid", oid); ("tid", tid)]])%list
                 else b in
        (Return tt,
         (b ++ [insert_into
                  "object_state (zoid, tid, prev_tid, md5, state_size, state)"
                  row_schema_object_state
                  [Int oid; Int tid; Int oid; nullable md5sum; Int size; encoded]
                  [oid; tid] size command suffix])%list)
      else if nonempty data then
        let b := if plain_insert command suffix
                 then (b ++ [delete_from "object_state" [("zoid", oid)]])%list
                 else b in
        (Return tt,
         (b ++ [insert_into "object_state (zoid, tid, state_size, state)"
                  "%s, %s, %s, %s"
                  [Int oid; Int tid; Int size; encoded]
                  [oid] size command suffix])%list)
      else
        (Return tt, (b ++ [delete_from "object_state" [("zoid", oid)]])%list)
  end.

End digest.

End Mover.

(** ** [relstorage/adapters/postgresql/mover.py] *)

Module PostgreSQL.

Definition unsupported_in_history_preserving : member :=
  MException (Exn Unsupported "States accumulate in history-preserving mode").

Definition _move_from_temp_hf_insert_raw_queries : member * member :=
  (unsupported_in_history_preserving, MQuery (Text MoveFromTempHfInsertRaw)).

Definition _move_from_temp_hf_insert_queries : member * member :=
  (unsupported_in_history_preserving, MQuery (Text ExecuteMoveFromTemp)).

Definition _move_from_temp_hf_insert_query (self : Mover.AbstractObjectMover)
  : result member :=
  query_property "" false _move_from_temp_hf_insert_queries
    (Mover.keep_history self).

(** The cursor of the unit tests ([MockCursor]): [execute] records the
    statement and its parameters. *)
Definition executed : Type := list (member * list Z).

(** The class replaces the two statements of [update_current] by one
    upsert. *)
Definition _update_current_insert_query : sqltext := Text UpdateCurrentUpsert.

Definition _update_current_update_query : option sqltext := None.

(** [update_current], inherited with its decorator, on an instance of
    this class. *)
Definition update_current (self : Mover.AbstractObjectMover)
    (dict : option slot) (cursor : database) (tid : Z)
  : option slot * (result unit * database) :=
  call_method
    (Mover.update_current_body _update_current_insert_query
       _update_current_update_query)
    tt (Mover.keep_history self) dict tid cursor.

(** [_move_from_temp_object_state(cursor, tid)] with the attributes of
    this class: [_move_from_temp_hf_delete_query] is the empty string
    ("We upsert, no need"), so only the insert is executed, once its
    statement has been read from the instance. *)
Definition _move_from_temp_object_state (self : Mover.AbstractObjectMover)
    (cursor : executed) (tid : Z) : result unit * executed :=
  match _move_from_temp_hf_insert_query self with
  | Raise e => (Raise e, cursor)
  | Return stmt => (Return tt, cursor ++ [(stmt, [tid])])
  end.

(** The files of the client, by name. *)
Definition filesystem : Type := gmap string bytes.

(** [os.path.getsize(filename)]. *)
Definition getsize (fs : filesystem) (filename : string) : result Z :=
  match fs !! filename with
  | Some content => Return (len content)
  | None => Raise (Exn OSError "No such file or directory")
  end.

(** [download_blob(cursor, oid, tid, filename)].  Opening the large
    object fails when the server has none under the identifier;
    [export] writes its content to the file. *)
Definition download_blob (self : Mover.AbstractObjectMover) (cursor : database)
    (oid tid : Z) (filename : string) (fs : filesystem)
  : result Z * filesystem :=
  match execute_blob_chunk (Text SelectBlobChunk) [oid; tid] cursor with
  | Raise e => (Raise e, fs)
  | Return rows =>
      match rows with
      | [loid] =>
          match largeobject cursor !! loid with
          | Some content =>
              let fs := <[filename := content]> fs in
              (getsize fs filename, fs)
          | None =>
              (Raise (Exn (DBAPIError "OperationalError")
                          "large object does not exist"), fs)
          end
      | _ =>
          (* assert len(rows) == 1 *)
          (Raise (Exn AssertionError ""), fs)
      end
  end.

Definition store_temp_suffix : string :=
  "ON CONFLICT (zoid) DO UPDATE SET state = excluded.state, prev_tid = excluded.prev_tid, md5 = excluded.md5".

Definition restore_suffix (keep_history : bool) : string :=
  if keep_history then
    "ON CONFLICT (zoid, tid) DO UPDATE SET tid = excluded.tid, prev_tid = excluded.prev_tid, md5 = excluded.md5, state_size = excluded.state_size, state = excluded.state"
  else
    "ON CONFLICT (zoid) DO UPDATE SET tid = excluded.tid, state_size = excluded.state_size, state = excluded.state".

Definition store_temp (md5_hexdigest : bytes -> string)
    (self : Mover.AbstractObjectMover) (b : Mover.batcher)
    (oid prev_tid : Z) (data : option bytes) : result unit * Mover.batcher :=
  Mover._generic_store_temp md5_hexdigest self b oid prev_tid data
    "INSERT" store_temp_suffix.

Definition restore (md5_hexdigest : bytes -> string)
    (self : Mover.AbstractObjectMover) (b : Mover.batcher)
    (oid tid : Z) (data : option bytes) : result unit * Mover.batcher :=
  Mover._generic_restore md5_hexdigest self b oid tid data
    "INSERT" (restore_suffix (Mover.keep_history self)).

End PostgreSQL.

(** ** Concrete instances used to exercise the model *)

Module Examples.

Definition OperationalError : exc_class := DBAPIError "OperationalError".
Definition ProgrammingError : exc_class := DBAPIError "ProgrammingError".

(** A driver in the usual shape: contention is an [OperationalError],
    a bug a [ProgrammingError]. *)
Definition plain_driver : Locker.Driver :=
  {| Locker.lock_exceptions c := bool_decide (c = OperationalError);
     Locker.illegal_operation_exceptions c := bool_decide (c = ProgrammingError) |}.

(** A driver whose two categories share [OperationalError]. *)
Definition overlapping_driver : Locker.Driver :=
  {| Locker.lock_exceptions c := bool_decide (c = OperationalError);
     Locker.illegal_operation_exceptions c :=
       bool_decide (c = OperationalError ∨ c = ProgrammingError) |}.

Definition lock_not_available : exn :=
  Exn OperationalError "could not obtain lock on row in relation commit_row_lock".

Definition syntax_error : exn := Exn ProgrammingError "syntax error".

(** A backend under contention. *)
Definition contended : Locker.commit_cursor :=
  fun _ => Locker.ExecuteRaises lock_not_available.

(** A backend whose [commit_row_lock] table answers with [rows]. *)
Definition answering (rows : list (list (option Z))) : Locker.commit_cursor :=
  fun _ => Locker.Fetched rows.

Definition nowait_stmt : member := MQuery (Plus (Text SelectCommitRowLock) " NOWAIT").
Definition wait_stmt : member := MQuery (Text SelectCommitRowLock).

(** A history-preserving database: objects 4, 7 and 9 are committed,
    and the session has staged 9 (expecting transaction 5), 7
    (expecting 1) and the new object 12. *)
Definition staged : list temp_store_row :=
  [TempStoreRow 9 5 None (Some [Byte.x42]);
   TempStoreRow 7 1 None (Some [Byte.x41]);
   TempStoreRow 12 0 None (Some [Byte.x43])].

Definition committed : database :=
  {| temp_store := staged;
     current_object := [CurrentObjectRow 7 1; CurrentObjectRow 9 3;
                        CurrentObjectRow 4 2];
     object_state := [ObjectStateRow 7 1 0 None 1 (Some [Byte.x41]);
                      ObjectStateRow 4 2 0 None 1 (Some [Byte.x44]);
                      ObjectStateRow 9 3 0 None 1 (Some [Byte.x45])];
     blob_chunk := [BlobChunkRow 4 2 0 100];
     largeobject := {[ 100 := [Byte.x62; Byte.x6c; Byte.x6f; Byte.x62] ]} |}.

(** The same database with the objects staged in the opposite order. *)
Definition committed_reversed : database :=
  {| temp_store := reverse staged;
     current_object := current_object committed;
     object_state := object_state committed;
     blob_chunk := blob_chunk committed;
     largeobject := largeobject committed |}.

(** The database after the staged rows were moved to [object_state]
    under transaction 6. *)
Definition moved : database :=
  {| temp_store := staged;
     current_object := current_object committed;
     object_state := (object_state committed ++
                      [ObjectStateRow 7 6 1 None 1 (Some [Byte.x41]);
                       ObjectStateRow 9 6 5 None 1 (Some [Byte.x42]);
                       ObjectStateRow 12 6 0 None 1 (Some [Byte.x43])])%list;
     blob_chunk := blob_chunk committed;
     largeobject := largeobject committed |}.

(** A database with no blob at all, and one where a key has two chunk
    rows. *)
Definition no_blobs : database :=
  {| temp_store := [];
     current_object := [];
     object_state := [];
     blob_chunk := [];
     largeobject := ∅ |}.

Definition two_chunks : database :=
  {| temp_store := [];
     current_object := [];
     object_state := [];
     blob_chunk := [BlobChunkRow 4 2 0 100; BlobChunkRow 4 2 1 101];
     largeobject := {[ 100 := [Byte.x62]; 101 := [Byte.x63] ]} |}.

Definition fresh (d : database) : session := {| db := d; row_locks := [] |}.

Definition history_preserving_locker : Locker.AbstractLocker :=
  Locker.abstract_locker true plain_driver.

(** A mover driver whose [Binary] wraps the bytes and accepts [None]. *)
Definition wrapping_driver : Mover.IDBDriver :=
  {| Mover.Binary := Mover.Blob;
     Mover.Binary_of_None := Return Mover.Null |}.

Definition history_preserving : Mover.AbstractObjectMover :=
  {| Mover.keep_history := true; Mover.driver := wrapping_driver |}.

Definition history_free : Mover.AbstractObjectMover :=
  {| Mover.keep_history := false; Mover.driver := wrapping_driver |}.

(** A stand-in for the digest. *)
Definition constant_digest (_ : bytes) : string :=
  "d41d8cd98f00b204e9800998ecf8427e".

End Examples.

(** ** Loading, finalizing and blobs

    The remaining statements of [AbstractObjectMover] and of
    [PostgreSQLObjectMover], with their relational meaning.  Tables are
    bags of rows: the keys that the schema declares appear as
    hypotheses where a property depends on them, and the rejection of a
    statement by the server for violating one is not described. *)

Module Store.

(** [temp_blob_chunk (zoid, chunk_num, chunk)], the blobs staged by the
    session. *)
Record temp_blob_chunk_row : Type := TempBlobChunkRow {
  tb_zoid : Z;
  tb_chunk_num : Z;
  tb_chunk : Z
}.

(** A store connection with its blob staging table. *)
Record store : Type := MkStore {
  tables : database;
  temp_blob_chunk : list temp_blob_chunk_row
}.

Definition with_temp_store (rows : list temp_store_row) (d : database) : database :=
  {| temp_store := rows;
     current_object := current_object d;
     object_state := object_state d;
     blob_chunk := blob_chunk d;
     largeobject := largeobject d |}.

Definition with_object_state (rows : list object_state_row) (d : database)
  : database :=
  {| temp_store := temp_store d;
     current_object := current_object d;
     object_state := rows;
     blob_chunk := blob_chunk d;
     largeobject := largeobject d |}.

Definition with_blob_chunk (rows : list blob_chunk_row) (d : database) : database :=
  {| temp_store := temp_store d;
     current_object := current_object d;
     object_state := object_state d;
     blob_chunk := rows;
     largeobject := largeobject d |}.

Definition with_largeobject (objects : gmap Z bytes) (d : database) : database :=
  {| temp_store := temp_store d;
     current_object := current_object d;
     object_state := object_state d;
     blob_chunk := blob_chunk d;
     largeobject := objects |}.

(** [cursor.fetchone()]. *)
Definition fetchone {A} (rows : list A) : option A := head rows.

(** [COALESCE(LENGTH(state), 0)]. *)
Definition state_length (state : option bytes) : Z :=
  match state with
  | Some b => len b
  | None => 0
  end.

(** *** Reading *)

(** [SELECT state, tid FROM current_object JOIN object_state
    USING(zoid, tid) WHERE zoid = %s]. *)
Definition select_load_current_hp (oid : Z) (d : database)
  : list (option bytes * Z) :=
  (fun p : current_object_row * object_state_row => (os_state p.2, os_tid p.2)) <$>
    filter (fun p : current_object_row * object_state_row => co_zoid p.1 = oid)
      (current_object d ≫= fun c =>
         (fun r => (c, r)) <$>
           filter (fun r => os_zoid r = co_zoid c /\ os_tid r = co_tid c)
                  (object_state d)).

(** [SELECT state, tid FROM object_state WHERE zoid = %s]. *)
Definition select_load_current_hf (oid : Z) (d : database)
  : list (option bytes * Z) :=
  (fun r => (os_state r, os_tid r)) <$>
    filter (fun r => os_zoid r = oid) (object_state d).

(** [SELECT state FROM object_state WHERE zoid = %s AND tid = %s]. *)
Definition select_load_revision (oid tid : Z) (d : database) : list (option bytes) :=
  os_state <$> filter (fun r => os_zoid r = oid /\ os_tid r = tid) (object_state d).

(** [SELECT 1 FROM <t> WHERE zoid = %s]. *)
Definition select_exists (t : table_name) (oid : Z) (d : database) : list Z :=
  (fun _ => 1) <$> filter (fun z => z = oid) (current_rows t d).*1.

(** [SELECT state, tid FROM object_state WHERE zoid = %s AND tid < %s
    ORDER BY tid DESC LIMIT 1]. *)
Definition select_load_before (oid tid : Z) (d : database)
  : list (option bytes * Z) :=
  (fun r => (os_state r, os_tid r)) <$>
    take 1 (order_by (fun r => - os_tid r)
              (filter (fun r => os_zoid r = oid /\ os_tid r < tid) (object_state d))).

(** [SELECT tid FROM object_state WHERE zoid = %s AND tid > %s
    ORDER BY tid LIMIT 1]. *)
Definition select_tid_after (oid tid : Z) (d : database) : list Z :=
  os_tid <$>
    take 1 (order_by os_tid
              (filter (fun r => os_zoid r = oid /\ os_tid r > tid) (object_state d))).

Section driver.
(** [driver.binary_column_as_state_type], applied to a fetched state
    column, which is null for an object whose creation was undone. *)
Variable binary_column_as_state_type : option bytes -> option bytes.

(** [load_current(cursor, oid)]: the state and transaction of the
    current row, [(None, None)] without one. *)
Definition load_current (self : Mover.AbstractObjectMover) (cursor : database)
    (oid : Z) : option bytes * option Z :=
  let rows := if Mover.keep_history self
              then select_load_current_hp oid cursor
              else select_load_current_hf oid cursor in
  match fetchone rows with
  | Some (state, tid) => (binary_column_as_state_type state, Some tid)
  | None => (None, None)
  end.

(** [load_revision(cursor, oid, tid)]. *)
Definition load_revision (cursor : database) (oid tid : Z) : option bytes :=
  match fetchone (select_load_revision oid tid cursor) with
  | Some state => binary_column_as_state_type state
  | None => None
  end.

(** [load_before(cursor, oid, tid)]. *)
Definition load_before (cursor : database) (oid tid : Z)
  : option bytes * option Z :=
  match fetchone (select_load_before oid tid cursor) with
  | Some (state, tid) => (binary_column_as_state_type state, Some tid)
  | None => (None, None)
  end.
End driver.

(** [exists(cursor, oid)]: the fetched row, or [None]. *)
Definition exists_ (self : Mover.AbstractObjectMover) (cursor : database)
    (oid : Z) : option Z :=
  fetchone (select_exists (current_table (Mover.keep_history self)) oid cursor).

(** [get_object_tid_after(cursor, oid, tid)]. *)
Definition get_object_tid_after (cursor : database) (oid tid : Z) : option Z :=
  match fetchone (select_tid_after oid tid cursor) with
  | Some tid' => Some tid'
  | None => None
  end.

(** *** Replacing a staged object *)

(** What the database keeps of a bound payload. *)
Definition bound_state (v : Mover.sqlval) : option bytes :=
  match v with
  | Mover.Blob b => Some b
  | _ => None
  end.

(** [UPDATE temp_store SET prev_tid = %s, md5 = %s, state = %s
    WHERE zoid = %s]. *)
Definition update_temp_store (prev_tid : Z) (md5sum : option string)
    (state : option bytes) (oid : Z) (d : database) : database :=
  with_temp_store
    ((fun ts => if bool_decide (ts_zoid ts = oid)
                then TempStoreRow (ts_zoid ts) prev_tid md5sum state
                else ts) <$> temp_store d)
    d.

(** [replace_temp(cursor, oid, prev_tid, data)]. *)
Definition replace_temp (md5_hexdigest : bytes -> string)
    (self : Mover.AbstractObjectMover) (cursor : database)
    (oid prev_tid : Z) (data : option bytes) : result unit * database :=
  match Mover._compute_md5sum md5_hexdigest self None data with
  | Raise e => (Raise e, cursor)
  | Return md5sum =>
      match (match data with
             | Some d => Return (Mover.Binary (Mover.driver self) d)
             | None => Mover.Binary_of_None (Mover.driver self)
             end) with
      | Raise e => (Raise e, cursor)
      | Return state =>
          (Return tt,
           update_temp_store prev_tid md5sum (bound_state state) oid cursor)
      end
  end.

(** *** Moving the staged objects to permanent storage *)

Definition staged_zoids (d : database) : list Z := ts_zoid <$> temp_store d.

(** [INSERT INTO object_state (zoid, tid, prev_tid, md5, state_size, state)
    SELECT zoid, %s, prev_tid, md5, COALESCE(LENGTH(state), 0), state
    FROM temp_store ORDER BY zoid]. *)
Definition move_from_temp_hp_insert (tid : Z) (d : database) : database :=
  with_object_state
    (object_state d ++
       ((fun ts => ObjectStateRow (ts_zoid ts) tid (ts_prev_tid ts) (ts_md5 ts)
                     (state_length (ts_state ts)) (ts_state ts))
          <$> order_by ts_zoid (temp_store d)))
    d.

(** [DELETE FROM object_state WHERE zoid IN (SELECT zoid FROM temp_store)]. *)
Definition move_from_temp_hf_delete (d : database) : database :=
  with_object_state
    (filter (fun r => os_zoid r ∉ staged_zoids d) (object_state d)) d.

(** [INSERT INTO object_state (zoid, tid, state_size, state)
    SELECT zoid, %s, COALESCE(LENGTH(state), 0), state FROM temp_store
    ORDER BY zoid]. *)
Definition move_from_temp_hf_insert (tid : Z) (d : database) : database :=
  with_object_state
    (object_state d ++
       ((fun ts => ObjectStateRow (ts_zoid ts) tid 0 None
                     (state_length (ts_state ts)) (ts_state ts))
          <$> order_by ts_zoid (temp_store d)))
    d.

(** [DELETE FROM blob_chunk WHERE zoid IN (SELECT zoid FROM temp_store)]. *)
Definition move_from_temp_hf_delete_blob_chunk (d : database) : database :=
  with_blob_chunk
    (filter (fun r => bc_zoid r ∉ staged_zoids d) (blob_chunk d)) d.

(** [INSERT INTO blob_chunk (zoid, tid, chunk_num, chunk)
    SELECT zoid, %s, chunk_num, chunk FROM temp_blob_chunk]. *)
Definition move_from_temp_copy_blob (tid : Z) (s : store) : store :=
  {| tables :=
       with_blob_chunk
         (blob_chunk (tables s) ++
            ((fun tb => BlobChunkRow (tb_zoid tb) tid (tb_chunk_num tb) (tb_chunk tb))
               <$> temp_blob_chunk s))
         (tables s);
     temp_blob_chunk := temp_blob_chunk s |}.

(** [_move_from_temp_object_state(cursor, tid)] of the base class:
    delete, then insert. *)
Definition _move_from_temp_object_state (cursor : database) (tid : Z) : database :=
  move_from_temp_hf_insert tid (move_from_temp_hf_delete cursor).

(** [move_from_temp(cursor, tid, txn_has_blobs)]. *)
Definition move_from_temp (self : Mover.AbstractObjectMover) (cursor : store)
    (tid : Z) (txn_has_blobs : bool) : store :=
  let cursor :=
    if Mover.keep_history self then
      {| tables := move_from_temp_hp_insert tid (tables cursor);
         temp_blob_chunk := temp_blob_chunk cursor |}
    else
      let d := _move_from_temp_object_state (tables cursor) tid in
      {| tables := if txn_has_blobs then move_from_temp_hf_delete_blob_chunk d else d;
         temp_blob_chunk := temp_blob_chunk cursor |} in
  if txn_has_blobs then move_from_temp_copy_blob tid cursor else cursor.

(** *** Uploading a blob *)

(** [DELETE FROM blob_chunk WHERE zoid = %s AND tid = %s]. *)
Definition delete_blob_chunk_at (oid tid : Z) (d : database) : database :=
  with_blob_chunk
    (filter (fun r => ~ (bc_zoid r = oid /\ bc_tid r = tid)) (blob_chunk d)) d.

(** [DELETE FROM blob_chunk WHERE zoid = %s]. *)
Definition delete_blob_chunk_of (oid : Z) (d : database) : database :=
  with_blob_chunk (filter (fun r => bc_zoid r <> oid) (blob_chunk d)) d.

(** [upload_blob(cursor, oid, tid, filename)].  The rows of the key
    are deleted first; then the file is imported as a new large
    object, which fails without the file; [new_loid] is the identifier
    the server gives to the new large object.  The row inserted has
    chunk number 0. *)
Definition upload_blob (self : Mover.AbstractObjectMover) (cursor : store)
    (oid : Z) (tid : option Z) (filename : string) (fs : gmap string bytes)
    (new_loid : Z) : result unit * store :=
  let deleted :=
    match tid with
    | Some tid =>
        {| tables := if Mover.keep_history self
                     then delete_blob_chunk_at oid tid (tables cursor)
                     else delete_blob_chunk_of oid (tables cursor);
           temp_blob_chunk := temp_blob_chunk cursor |}
    | None =>
        {| tables := tables cursor;
           temp_blob_chunk :=
             filter (fun r => tb_zoid r <> oid) (temp_blob_chunk cursor) |}
    end in
  match fs !! filename with
  | None => (Raise (Exn (DBAPIError "OperationalError") "could not open file"),
             deleted)
  | Some content =>
      let d := with_largeobject (<[new_loid := content]> (largeobject (tables deleted)))
                 (tables deleted) in
      (Return tt,
       match tid with
       | Some tid =>
           {| tables := with_blob_chunk
                          (blob_chunk d ++ [BlobChunkRow oid tid 0 new_loid]) d;
              temp_blob_chunk := temp_blob_chunk deleted |}
       | None =>
           {| tables := d;
              temp_blob_chunk :=
                temp_blob_chunk deleted ++ [TempBlobChunkRow oid 0 new_loid] |}
       end)
  end.

(** *** Statements run when a connection opens *)

(** [on_store_opened(cursor, restart)] of [AbstractObjectMover].
    [statements] are the attributes named by
    [on_store_opened_statement_names], each one the outcome of reading
    it; an [Unsupported] raised by reading one is passed over, any
    other exception leaves the method. *)
Fixpoint on_store_opened_loop (statements : list (result member))
    (cursor : PostgreSQL.executed) : result unit * PostgreSQL.executed :=
  match statements with
  | [] => (Return tt, cursor)
  | Return prep :: rest => on_store_opened_loop rest (cursor ++ [(prep, [])])
  | Raise e :: rest =>
      if bool_decide (exn_class e = Unsupported)
      then on_store_opened_loop rest cursor
      else (Raise e, cursor)
  end.

(** The statements that could be read, as [execute] records them. *)
Definition readable (statements : list (result member)) : PostgreSQL.executed :=
  omap (fun statement => match statement with
                         | Return prep => Some (prep, [])
                         | Raise _ => None
                         end) statements.

Definition on_store_opened (statements : list (result member))
    (cursor : PostgreSQL.executed) (restart : bool)
  : result unit * PostgreSQL.executed :=
  if restart then (Return tt, cursor)
  else on_store_opened_loop statements cursor.

(** [on_load_opened(cursor, restart)]: the same loop without the
    [try]. *)
Fixpoint on_load_opened_loop (statements : list (result member))
    (cursor : PostgreSQL.executed) : result unit * PostgreSQL.executed :=
  match statements with
  | [] => (Return tt, cursor)
  | Return prep :: rest => on_load_opened_loop rest (cursor ++ [(prep, [])])
  | Raise e :: rest => (Raise e, cursor)
  end.

Definition on_load_opened (statements : list (result member))
    (cursor : PostgreSQL.executed) (restart : bool)
  : result unit * PostgreSQL.executed :=
  if negb restart then on_load_opened_loop statements cursor
  else (Return tt, cursor).

End Store.

(** ** Calling a decorated method repeatedly *)

Module Calls.

Section calls.
Context {S A R : Type}.
Variable meth : A -> S -> result R * S.
Variable none : R.

(** The calls [self.meth(a)] for the arguments of [args], one after
    the other, on an instance in the given mode whose dictionary entry
    for the method is [dict]: the last entry, the outcomes and the last
    state. *)
Fixpoint call_sequence (keep_history : bool) (dict : option slot)
    (args : list A) (s : S) : option slot * (list (result R) * S) :=
  match args with
  | [] => (dict, ([], s))
  | a :: args =>
      let '(dict, (out, s)) := call_method meth none keep_history dict a s in
      let '(dict, (outs, s)) := call_sequence keep_history dict args s in
      (dict, (out :: outs, s))
  end.

(** The same calls on [if not self.keep_history: return None] followed
    by the method's body. *)
Fixpoint branch_sequence (keep_history : bool) (args : list A) (s : S)
  : list (result R) * S :=
  match args with
  | [] => ([], s)
  | a :: args =>
      let '(out, s) := if keep_history then meth a s else (Return none, s) in
      let '(outs, s) := branch_sequence keep_history args s in
      (out :: outs, s)
  end.
End calls.

End Calls.

(** ** Further concrete instances *)

Module Scenarios.

(** A store connection on the database of the examples, without staged
    blobs. *)
Definition session : Store.store :=
  {| Store.tables := Examples.committed; Store.temp_blob_chunk := [] |}.

(** The staged row of object 9. *)
Definition staged_nine : temp_store_row :=
  TempStoreRow 9 5 None (Some [Byte.x42]).

(** A driver that hands fetched states on as they are. *)
Definition as_fetched (state : option bytes) : option bytes := state.

(** The files of a client that holds one blob file. *)
Definition files : gmap string bytes :=
  {[ "blob.tmp" := [Byte.x68; Byte.x65; Byte.x6c; Byte.x6c; Byte.x6f] ]}.

(** Three statements read from a history-preserving instance when a
    store connection opens: the second one is unsupported there. *)
Definition opening : list (result member) :=
  [Return (MQuery (Text (DetectConflict current_object_t)));
   PostgreSQL._move_from_temp_hf_insert_query Examples.history_preserving;
   Return (MQuery (Text SelectCommitRowLock))].

(** A session that staged object 4 as new, with predecessor 0, while
    the object has a current row, at transaction 2. *)
Definition clashing : Store.store :=
  {| Store.tables :=
       Store.with_temp_store
         [TempStoreRow 9 3 None (Some [Byte.x42]);
          TempStoreRow 4 0 None (Some [Byte.x44])]
         Examples.committed;
     Store.temp_blob_chunk := [] |}.

End Scenarios.

(** ** The binary stream of staged objects

    [struct] with the byte order [!], and [TempStoreCopyBuffer] of the
    PostgreSQL mover, the file-like object handed to [COPY temp_store
    ... FROM STDIN WITH (FORMAT binary)]. *)

Module Struct.

(** The byte with the value [z mod 256]. *)
Definition byte_of (z : Z) : Byte.byte :=
  default Byte.x00 (Byte.of_N (Z.to_N (z mod 256))).

(** [width] bytes of the two's complement of [z], most significant
    first. *)
Fixpoint big_endian (width : nat) (z : Z) : bytes :=
  match width with
  | O => []
  | S w => big_endian w (z / 256) ++ [byte_of z]
  end.

(** The values a signed integer of [width] bytes holds. *)
Definition in_range (width : nat) (z : Z) : Prop :=
  - 2 ^ (8 * Z.of_nat width - 1) <= z < 2 ^ (8 * Z.of_nat width - 1).

#[global] Instance in_range_dec width z : Decision (in_range width z).
Proof. unfold in_range. apply _. Defined.

(** A format character with its argument: [h], [i], [q] and [<n>s]. *)
Inductive field : Type :=
| h (z : Z)
| i (z : Z)
| q (z : Z)
| s (n : nat) (b : bytes).

Definition size_of (f : field) : nat :=
  match f with
  | h _ => 2
  | i _ => 4
  | q _ => 8
  | s n _ => n
  end.

(** The argument fits its format; bytes always do, they are cut or
    padded with null bytes. *)
Definition fits (f : field) : Prop :=
  match f with
  | h z => in_range 2 z
  | i z => in_range 4 z
  | q z => in_range 8 z
  | s _ _ => True
  end.

#[global] Instance fits_dec f : Decision (fits f).
Proof. destruct f; simpl; apply _. Defined.

Definition layout_of (f : field) : bytes :=
  match f with
  | h z => big_endian 2 z
  | i z => big_endian 4 z
  | q z => big_endian 8 z
  | s n b => take n (b ++ replicate n Byte.x00)
  end.

Definition layout (fields : list field) : bytes := fields ≫= layout_of.

(** [Struct(format).pack(...)]; [None] stands for [struct.error]. *)
Definition pack (fields : list field) : option bytes :=
  if decide (Forall fits fields) then Some (layout fields) else None.

End Struct.

Module TempStoreCopy.

(** What a call can raise here, apart from [StopIteration], which
    [readinto] catches. *)
Inductive raised : Type :=
| struct_error
| UnicodeEncodeError.

(** [s.encode("ascii")]. *)
Definition encode_ascii (s : string) : option bytes :=
  if decide (Forall (fun c => (N_of_ascii c < 128)%N) (list_ascii_of_string s))
  then Some (list_byte_of_string s)
  else None.

(** [b'PGCOPY\n\xff\r\n\0']. *)
Definition SIGNATURE : bytes :=
  [Byte.x50; Byte.x47; Byte.x43; Byte.x4f; Byte.x50; Byte.x59;
   Byte.x0a; Byte.xff; Byte.x0d; Byte.x0a; Byte.x00].

Definition FLAGS : bytes := Struct.layout [Struct.i 0].
Definition EXTENSION_LEN : bytes := Struct.layout [Struct.i 0].
Definition HEADER : bytes := SIGNATURE ++ FLAGS ++ EXTENSION_LEN.
Definition TRAILER : bytes := Struct.layout [Struct.h (-1)].

(** An element of [state_oid_tid_iterable]. *)
Definition item : Type := bytes * Z * Z.

(** The attributes of an instance.  [_digester] is the digester given
    to [__init__], when it is one; [_buffer] is the [bytearray] that
    [read] hands to [readinto]. *)
Record TempStoreCopyBuffer : Type := MkBuffer {
  state_oid_tid_iterable : list item;
  _iter : list item;
  _digester : option (bytes -> string);
  _done : bool;
  _header : bytes;
  _buffer : bytes
}.

(** [__init__(state_oid_tid_iterable, digester)]. *)
Definition __init__ (state_oid_tid_iterable : list item)
    (digester : option (bytes -> string)) : TempStoreCopyBuffer :=
  {| state_oid_tid_iterable := state_oid_tid_iterable;
     _iter := state_oid_tid_iterable;
     _digester := digester;
     _done := false;
     _header := HEADER;
     _buffer := replicate (Z.to_nat 8192) Byte.x00 |}.

(** [__len__()]. *)
Definition __len__ (self : TempStoreCopyBuffer) : Z :=
  Z.of_nat (length (state_oid_tid_iterable self)).

(** The fields [_read_one_tuple_md5] packs with [WITH_SUM]
    ([!hiqiqi32si]). *)
Definition WITH_SUM (oid_int tid_int : Z) (md5 : bytes) (len_data : Z)
  : list Struct.field :=
  [Struct.h 4; Struct.i 8; Struct.q oid_int; Struct.i 8; Struct.q tid_int;
   Struct.i 32; Struct.s 32 md5; Struct.i len_data].

(** The fields [_read_one_tuple_no_md5] packs with [NO_SUM]
    ([!hiqiqii]). *)
Definition NO_SUM (oid_int tid_int : Z) (len_data : Z) : list Struct.field :=
  [Struct.h 4; Struct.i 8; Struct.q oid_int; Struct.i 8; Struct.q tid_int;
   Struct.i (-1); Struct.i len_data].

(** [_header_size]: [WITH_SUM.size] with a digester, [NO_SUM.size]
    without. *)
Definition _header_size (digester : option (bytes -> string)) : nat :=
  match digester with
  | Some _ => sum_list (Struct.size_of <$> WITH_SUM 0 0 [] 0)
  | None => sum_list (Struct.size_of <$> NO_SUM 0 0 0)
  end.

(** What [self._read_tuple(buf)] appends to [buf] for the element it
    took from the iterator: [_read_one_tuple_md5] with a digester,
    [_read_one_tuple_no_md5] without. *)
Definition _read_tuple (digester : option (bytes -> string)) (it : item)
  : raised + bytes :=
  let '(data, oid_int, tid_int) := it in
  let len_data := len data in
  match digester with
  | Some digester =>
      match encode_ascii (digester data) with
      | None => inl UnicodeEncodeError
      | Some md5 =>
          match Struct.pack (WITH_SUM oid_int tid_int md5 len_data) with
          | None => inl struct_error
          | Some header => inr (header ++ data)
          end
      end
  | None =>
      match Struct.pack (NO_SUM oid_int tid_int len_data) with
      | None => inl struct_error
      | Some header => inr (header ++ data)
      end
  end.

(** The loop of [readinto]: tuples are appended while the buffer is
    shorter than [requested]; when the iterator is exhausted the
    trailer is appended and the stream is done.  The result is the
    buffer, what is left of the iterator and [_done]. *)
Fixpoint fill (digester : option (bytes -> string)) (requested : nat)
    (buf : bytes) (iter : list item) : raised + (bytes * list item * bool) :=
  if decide (length buf < requested)%nat then
    match iter with
    | [] => inr (buf ++ TRAILER, [], true)
    | it :: iter =>
        match _read_tuple digester it with
        | inl e => inl e
        | inr tuple => fill digester requested (buf ++ tuple) iter
        end
    end
  else inr (buf, iter, false).

(** [readinto(buf)]: the count returned, the content of [buf] and the
    instance afterwards.  What [buf] and the instance hold after an
    exception is not described. *)
Definition readinto (self : TempStoreCopyBuffer) (buf : bytes)
  : raised + (nat * bytes * TempStoreCopyBuffer) :=
  if _done self then inr (O, buf, self)
  else
    let requested := length buf in
    match fill (_digester self) requested (_header self) (_iter self) with
    | inl e => inl e
    | inr (buf, iter, done) =>
        inr (length buf, buf,
             {| state_oid_tid_iterable := state_oid_tid_iterable self;
                _iter := iter;
                _digester := _digester self;
                _done := done;
                _header := [];
                _buffer := _buffer self |})
    end.

Definition with_buffer (buffer : bytes) (self : TempStoreCopyBuffer)
  : TempStoreCopyBuffer :=
  {| state_oid_tid_iterable := state_oid_tid_iterable self;
     _iter := _iter self;
     _digester := _digester self;
     _done := _done self;
     _header := _header self;
     _buffer := buffer |}.

(** [read(size)]: [readinto] on the instance's own buffer, which is
    first extended to [size]. *)
Definition read (self : TempStoreCopyBuffer) (size : Z)
  : raised + (bytes * TempStoreCopyBuffer) :=
  if _done self then inr ([], self)
  else
    let buffer :=
      if decide (len (_buffer self) < size)
      then _buffer self ++ replicate (Z.to_nat (size - len (_buffer self))) Byte.x00
      else _buffer self in
    match readinto (with_buffer buffer self) buffer with
    | inl e => inl e
    | inr (count, buf, self) =>
        inr (if decide (count = O) then [] else buf, with_buffer buf self)
    end.

(** A reader that calls [readinto] with buffers of the given lengths,
    until a call returns 0: the bytes it received with each call. *)
Fixpoint readinto_until_0 (self : TempStoreCopyBuffer) (requests : list nat)
  : raised + (list bytes * TempStoreCopyBuffer) :=
  match requests with
  | [] => inr ([], self)
  | requested :: requests =>
      match readinto self (replicate requested Byte.x00) with
      | inl e => inl e
      | inr (count, buf, self) =>
          if decide (count = O) then inr ([], self)
          else
            match readinto_until_0 self requests with
            | inl e => inl e
            | inr (chunks, self) => inr (take count buf :: chunks, self)
            end
      end
  end.

(** A reader that calls [read] with the given sizes, until a call
    returns no bytes. *)
Fixpoint read_until_empty (self : TempStoreCopyBuffer) (sizes : list Z)
  : raised + (list bytes * TempStoreCopyBuffer) :=
  match sizes with
  | [] => inr ([], self)
  | size :: sizes =>
      match read self size with
      | inl e => inl e
      | inr (chunk, self) =>
          if decide (chunk = []) then inr ([], self)
          else
            match read_until_empty self sizes with
            | inl e => inl e
            | inr (chunks, self) => inr (chunk :: chunks, self)
            end
      end
  end.

(** The bytes an instance has still to deliver, when [records] are
    the tuples of the elements left in its iterator. *)
Definition pending (self : TempStoreCopyBuffer) (records : list bytes) : bytes :=
  if _done self then [] else _header self ++ concat records ++ TRAILER.

(** The calls that are enough to drain an instance. *)
Definition calls_left (self : TempStoreCopyBuffer) : nat :=
  if _done self then O
  else (if decide (_header self = []) then 0 else 1) + length (_iter self) + 1.

End TempStoreCopy.

(** ** Instances for the stream *)

Module Copied.

(** Two objects to be copied: 9, last seen at transaction 5, and 7,
    last seen at transaction 1. *)
Definition objects : list TempStoreCopy.item :=
  [([Byte.x42], 9, 5); ([Byte.x41; Byte.x43], 7, 1)].

(** Their tuples without a digest. *)
Definition records : list bytes :=
  [Struct.layout (TempStoreCopy.NO_SUM 9 5 1) ++ [Byte.x42];
   Struct.layout (TempStoreCopy.NO_SUM 7 1 2) ++ [Byte.x41; Byte.x43]].

End Copied.

(** ** Prepared statements of the PostgreSQL mover *)

From Stdlib Require Import DecimalString.

Module Prepared.

(** An element of [queries]: a statement text, or something that is
    not a [str], the marker for an unsupported statement. *)
Inductive query : Type :=
| Str (q : string)
| Marker (e : exn).

(** [c.isspace()] for the characters below 256. *)
Definition isspace (c : ascii) : bool :=
  bool_decide (N_of_ascii c ∈ [9; 10; 11; 12; 13; 28; 29; 30; 31; 32; 133; 160]%N).

Fixpoint lstrip (q : string) : string :=
  match q with
  | String c rest => if isspace c then lstrip rest else q
  | EmptyString => EmptyString
  end.

Definition rstrip (q : string) : string :=
  String.rev (lstrip (String.rev q)).

(** [q.strip()]. *)
Definition strip (q : string) : string := lstrip (rstrip q).

(** [q.count('%s')]: the occurrences that do not overlap, from the
    left. *)
Fixpoint count (q : string) : nat :=
  match q with
  | EmptyString => O
  | String c rest =>
      match rest with
      | String c' rest' =>
          if decide (c = "%"%char /\ c' = "s"%char)
          then S (count rest')
          else count rest
      | EmptyString => O
      end
  end.

(** [q.replace('%s', new, 1)]: the first occurrence is replaced. *)
Fixpoint replace (q new : string) : string :=
  match q with
  | EmptyString => EmptyString
  | String c rest =>
      match rest with
      | String c' rest' =>
          if decide (c = "%"%char /\ c' = "s"%char)
          then new +:+ rest'
          else String c (replace rest new)
      | EmptyString => q
      end
  end.

(** [str(n)] of a natural number. *)
Definition str (n : nat) : string := NilZero.string_of_uint (Nat.to_uint n).

(** The [while] loop, with [remaining = param_count - rep_count]
    rounds to go. *)
Fixpoint while (remaining rep_count : nat) (q : string) : string :=
  match remaining with
  | O => q
  | S remaining =>
      let rep_count := S rep_count in
      while remaining rep_count (replace q ("$" +:+ str rep_count))
  end.

(** The text put after the name: [' (%s)' % ', '.join(datatypes)] for
    a sequence that is not empty. *)
Definition datatypes_text (datatypes : list string) : string :=
  match datatypes with
  | [] => ""
  | _ :: _ => " (" +:+ String.concat ", " datatypes +:+ ")"
  end.

(** [to_prepared_queries(name, queries, datatypes)], for [datatypes] a
    list or a tuple. *)
Definition to_prepared_queries (name : string) (queries : list query)
    (datatypes : list string) : list query :=
  let datatypes := datatypes_text datatypes in
  (fun q =>
     match q with
     | Marker e => Marker e
     | Str q =>
         let q := strip q in
         let param_count := count q in
         let q := while param_count O q in
         Str ("PREPARE " +:+ name +:+ datatypes +:+ " AS " +:+ q)
     end) <$> queries.

(** A text with a placeholder after each of [parts], and [last] at the
    end. *)
Fixpoint placeholders (parts : list string) (last : string) : string :=
  match parts with
  | [] => last
  | part :: parts => part +:+ "%s" +:+ placeholders parts last
  end.

(** The same text with the numbered parameters [$k], [$k+1], ... in
    place of the placeholders. *)
Fixpoint numbered (k : nat) (parts : list string) (last : string) : string :=
  match parts with
  | [] => last
  | part :: parts => part +:+ "$" +:+ str k +:+ numbered (S k) parts last
  end.

(** A prefix that neither holds a placeholder nor begins one with its
    last character. *)
Definition passed_over (prefix : string) : Prop :=
  forall rest new,
    count (prefix +:+ rest) = count rest
    /\ replace (prefix +:+ rest) new = prefix +:+ replace rest new.

End Prepared.
(** * Verified properties *)

(** ** The commit lock *)

Section hold_commit_lock.
Import Locker.
Context (self : AbstractLocker) (cursor : commit_cursor).

(** The lock statement is always found: both members of both pairs are
    statements. *)
Lemma lock_stmt_returns nowait :
  lock_stmt self nowait =
    Return (if nowait && _supports_row_lock_nowait self
            then MQuery (Plus (Text SelectCommitRowLock) " NOWAIT")
            else MQuery (Text SelectCommitRowLock)).
Proof.
  unfold lock_stmt, _commit_lock_query, _commit_lock_nowait_query,
    _query_property, query_property, select_variant.
  destruct nowait, (_supports_row_lock_nowait self), (keep_history self);
    reflexivity.
Qed.

Lemma try_lock_raises stmt e :
  backend_raises (cursor stmt) e -> try_lock cursor stmt = Raise e.
Proof. unfold try_lock. intros [-> | ->]; reflexivity. Qed.

Lemma try_lock_no_row stmt rows :
  cursor stmt = Fetched rows ->
  rows = [] \/ hd [] rows = [] ->
  try_lock cursor stmt = Raise no_row_returned.
Proof.
  unfold try_lock. intros -> Hrows.
  destruct rows as [|row rows]; [reflexivity|].
  destruct Hrows as [Hnil | Hhd]; [discriminate|].
  simpl in Hhd. subst row. reflexivity.
Qed.

Lemma try_lock_row stmt row rows :
  cursor stmt = Fetched (row :: rows) ->
  row <> [] ->
  try_lock cursor stmt = Return tt.
Proof.
  unfold try_lock. intros -> Hrow.
  destruct row; [congruence | reflexivity].
Qed.

(** What the handlers make of an exception raised inside the [try]. *)
Lemma hold_commit_lock_handlers ensure_current nowait stmt e :
  lock_stmt self nowait = Return stmt ->
  try_lock cursor stmt = Raise e ->
  hold_commit_lock self cursor ensure_current nowait =
    if isinstance (illegal_operation_exceptions (driver self)) e then Raise e
    else if isinstance (lock_exceptions (driver self)) e then
      if nowait then Return false
      else Raise (Exn UnableToAcquireCommitLockError
                      (message e (debug_info self cursor)))
    else Raise e.
Proof.
  intros Hstmt Htry. unfold hold_commit_lock.
  rewrite Hstmt. simpl. rewrite Htry. reflexivity.
Qed.

(** C4: an exception of the driver's illegal-operation category raised
    by the backend for the lock statement leaves [hold_commit_lock]
    as it is, in blocking and in non-blocking mode, whether or not the
    lock-contention category contains it too: it is neither turned
    into [UnableToAcquireCommitLockError] nor into a [False] result,
    and the backend is asked once. *)
Theorem hold_commit_lock_illegal_operation_propagates
    ensure_current nowait stmt e :
  lock_stmt self nowait = Return stmt ->
  backend_raises (cursor stmt) e ->
  isinstance (illegal_operation_exceptions (driver self)) e = true ->
  hold_commit_lock self cursor ensure_current nowait = Raise e.
Proof.
  intros Hstmt Hraise Hillegal.
  rewrite (hold_commit_lock_handlers _ _ stmt e Hstmt (try_lock_raises _ _ Hraise)).
  rewrite Hillegal. reflexivity.
Qed.

(** C3, amended: a failure of the lock statement with an exception
    that is in the lock-contention category and not in the
    illegal-operation category makes the call return [False] when
    [nowait] is true and raise [UnableToAcquireCommitLockError] when it
    is false; a statement that returns a row makes it return [True]. *)
Theorem hold_commit_lock_contention ensure_current nowait stmt :
  lock_stmt self nowait = Return stmt ->
  (forall e,
      backend_raises (cursor stmt) e ->
      isinstance (lock_exceptions (driver self)) e = true ->
      isinstance (illegal_operation_exceptions (driver self)) e = false ->
      hold_commit_lock self cursor ensure_current nowait =
        if nowait then Return false
        else Raise (Exn UnableToAcquireCommitLockError
                        (message e (debug_info self cursor))))
  /\ (forall row rows,
         cursor stmt = Fetched (row :: rows) ->
         row <> [] ->
         hold_commit_lock self cursor ensure_current nowait = Return true).
Proof.
  intros Hstmt. split.
  - intros e Hraise Hlock Hlegal.
    rewrite (hold_commit_lock_handlers _ _ stmt e Hstmt (try_lock_raises _ _ Hraise)).
    rewrite Hlegal, Hlock. reflexivity.
  - intros row rows Hrows Hrow. unfold hold_commit_lock.
    rewrite Hstmt. simpl. rewrite (try_lock_row _ _ _ Hrows Hrow). reflexivity.
Qed.

(** C10, amended: when the lock statement runs without a database
    error and returns no row, or a first row that is itself empty, a
    blocking call raises [UnableToAcquireCommitLockError]; so does
    every call on a driver that does not count that class as lock
    contention, or counts it as an illegal operation, and then the
    error is the one saying that no row was returned. *)
Theorem hold_commit_lock_no_row ensure_current nowait stmt rows :
  lock_stmt self nowait = Return stmt ->
  cursor stmt = Fetched rows ->
  rows = [] \/ hd [] rows = [] ->
  (nowait = false ->
   exists text, hold_commit_lock self cursor ensure_current nowait =
                Raise (Exn UnableToAcquireCommitLockError text))
  /\ (lock_exceptions (driver self) UnableToAcquireCommitLockError = false
      \/ illegal_operation_exceptions (driver self) UnableToAcquireCommitLockError = true ->
      hold_commit_lock self cursor ensure_current nowait = Raise no_row_returned).
Proof.
  intros Hstmt Hfetch Hrows.
  rewrite (hold_commit_lock_handlers _ _ stmt _ Hstmt (try_lock_no_row _ _ Hfetch Hrows)).
  unfold isinstance, no_row_returned. cbn [exn_class].
  set (illegal := illegal_operation_exceptions (driver self)
                    UnableToAcquireCommitLockError).
  set (contention := lock_exceptions (driver self)
                       UnableToAcquireCommitLockError).
  split.
  - intros ->. unfold no_row_returned. destruct illegal, contention; eauto.
  - intros [-> | ->]; [|reflexivity]. destruct illegal; reflexivity.
Qed.

End hold_commit_lock.

(** The amended C3 at work: under contention a non-blocking request
    answers [False], and a row answers [True]. *)
Lemma hold_commit_lock_contention_witness :
  Locker.lock_stmt (Locker.abstract_locker true Examples.plain_driver) true
    = Return Examples.nowait_stmt
  /\ Locker.hold_commit_lock (Locker.abstract_locker true Examples.plain_driver)
       Examples.contended false true = Return false
  /\ Locker.hold_commit_lock (Locker.abstract_locker true Examples.plain_driver)
       (Examples.answering [[Some 1]]) false true = Return true.
Proof.
  split; [reflexivity|]. split.
  - apply (proj1 (hold_commit_lock_contention
                    (Locker.abstract_locker true Examples.plain_driver)
                    Examples.contended false true Examples.nowait_stmt eq_refl)
                 Examples.lock_not_available).
    + left. reflexivity.
    + reflexivity.
    + reflexivity.
  - apply (proj2 (hold_commit_lock_contention
                    (Locker.abstract_locker true Examples.plain_driver)
                    (Examples.answering [[Some 1]]) false true
                    Examples.nowait_stmt eq_refl)
                 [Some 1] []).
    + reflexivity.
    + discriminate.
Defined.

(** C3 as stated fails when the driver lists the exception in both
    categories: the backend raises a lock-contention error for a
    non-blocking request, and the call raises it instead of returning
    [False]. *)
Lemma hold_commit_lock_nowait_contention_counterexample :
  Locker.lock_stmt (Locker.abstract_locker true Examples.overlapping_driver) true
    = Return Examples.nowait_stmt
  /\ Locker.backend_raises (Examples.contended Examples.nowait_stmt)
       Examples.lock_not_available
  /\ isinstance (Locker.lock_exceptions Examples.overlapping_driver)
       Examples.lock_not_available = true
  /\ Locker.hold_commit_lock (Locker.abstract_locker true Examples.overlapping_driver)
       Examples.contended false true = Raise Examples.lock_not_available
  /\ Locker.hold_commit_lock (Locker.abstract_locker true Examples.overlapping_driver)
       Examples.contended false true <> Return false.
Proof.
  repeat split; try reflexivity.
  - left. reflexivity.
  - discriminate.
Qed.

(** C4 at work, on the driver whose categories overlap. *)
Lemma hold_commit_lock_illegal_operation_propagates_witness :
  Locker.lock_stmt (Locker.abstract_locker true Examples.overlapping_driver) true
    = Return Examples.nowait_stmt
  /\ Locker.backend_raises (Examples.contended Examples.nowait_stmt)
       Examples.lock_not_available
  /\ isinstance (Locker.illegal_operation_exceptions Examples.overlapping_driver)
       Examples.lock_not_available = true
  /\ Locker.hold_commit_lock (Locker.abstract_locker true Examples.overlapping_driver)
       Examples.contended false true = Raise Examples.lock_not_available.
Proof.
  split; [reflexivity|]. split; [left; reflexivity|]. split; [reflexivity|].
  apply (hold_commit_lock_illegal_operation_propagates
           (Locker.abstract_locker true Examples.overlapping_driver)
           Examples.contended false true Examples.nowait_stmt
           Examples.lock_not_available).
  - reflexivity.
  - left. reflexivity.
  - reflexivity.
Defined.

(** The amended C10 at work: an empty [commit_row_lock] table makes a
    non-blocking request raise as well. *)
Lemma hold_commit_lock_no_row_witness :
  Locker.lock_stmt (Locker.abstract_locker true Examples.plain_driver) true
    = Return Examples.nowait_stmt
  /\ Examples.answering [] Examples.nowait_stmt = Locker.Fetched []
  /\ Locker.hold_commit_lock (Locker.abstract_locker true Examples.plain_driver)
       (Examples.answering []) false true = Raise Locker.no_row_returned.
Proof.
  split; [reflexivity|]. split; [reflexivity|].
  apply (proj2 (hold_commit_lock_no_row
                  (Locker.abstract_locker true Examples.plain_driver)
                  (Examples.answering []) false true Examples.nowait_stmt []
                  eq_refl eq_refl (or_introl eq_refl))).
  left. reflexivity.
Defined.

(** C10 as stated fails on a row whose first value is falsy: the
    statement runs without error and returns the row [(0,)], a
    non-empty tuple, and the call returns [True] in both modes. *)
Lemma hold_commit_lock_falsy_first_value_counterexample :
  Examples.answering [[Some 0]] Examples.wait_stmt = Locker.Fetched [[Some 0]]
  /\ hd_error (hd [] [[Some 0]]) = Some (Some 0)
  /\ Locker.hold_commit_lock (Locker.abstract_locker true Examples.plain_driver)
       (Examples.answering [[Some 0]]) false false = Return true
  /\ Locker.hold_commit_lock (Locker.abstract_locker true Examples.plain_driver)
       (Examples.answering [[Some 0]]) false true = Return true.
Proof. repeat split; reflexivity. Qed.

(** ** The query-variant selector *)

Section query_property.
Context (queries : member * member) (keep_history : bool).

(** C7: a variant marked unsupported makes the selector raise the
    marking exception, whatever the extension and the formatting, so an
    [Unsupported] marker raises [Unsupported] when the attribute is
    read and before a statement exists; a supported variant is returned
    as it is, and the variant is the first member when history is kept
    and the second when it is not. *)
Theorem query_property_selects :
  (forall e extension formatted,
      unsupported_marker (select_variant queries keep_history) = Some e ->
      query_property extension formatted queries keep_history = Raise e)
  /\ (unsupported_marker (select_variant queries keep_history) = None ->
      _query_property queries keep_history
        = Return (select_variant queries keep_history))
  /\ select_variant queries true = queries.1
  /\ select_variant queries false = queries.2.
Proof.
  unfold _query_property, query_property.
  repeat split.
  - intros e extension formatted Hmark.
    destruct (select_variant queries keep_history); simpl in Hmark;
      congruence.
  - intros Hmark.
    destruct (select_variant queries keep_history); simpl in Hmark;
      try discriminate; reflexivity.
Qed.

End query_property.

(** C7 at work on [_move_from_temp_hf_insert_queries]: reading the
    query raises [Unsupported] when history is kept and selects the
    second member when it is not. *)
Lemma query_property_selects_witness :
  query_property "" false PostgreSQL._move_from_temp_hf_insert_queries true
    = Raise (Exn Unsupported "States accumulate in history-preserving mode")
  /\ _query_property PostgreSQL._move_from_temp_hf_insert_queries false
    = Return (MQuery (Text ExecuteMoveFromTemp)).
Proof.
  split.
  - apply (proj1 (query_property_selects
                    PostgreSQL._move_from_temp_hf_insert_queries true)).
    reflexivity.
  - apply (proj1 (proj2 (query_property_selects
                           PostgreSQL._move_from_temp_hf_insert_queries false))).
    reflexivity.
Defined.

(** Reading the unsupported variant raises before anything is sent to
    the database; the supported one is executed with the transaction
    as its parameter. *)
Lemma move_from_temp_object_state_by_mode drv cursor tid :
  PostgreSQL._move_from_temp_object_state (Mover.mover true drv) cursor tid
  = (Raise (Exn Unsupported "States accumulate in history-preserving mode"), cursor)
  /\ PostgreSQL._move_from_temp_object_state (Mover.mover false drv) cursor tid
     = (Return tt, cursor ++ [(MQuery (Text ExecuteMoveFromTemp), [tid])]).
Proof. split; reflexivity. Qed.

(** ** Relational facts *)

Lemma key_le_total {A} (key : A -> Z) : Total (key_le key).
Proof. intros x y. unfold key_le. lia. Qed.

Lemma key_le_trans {A} (key : A -> Z) : Transitive (key_le key).
Proof. intros x y z. unfold key_le. lia. Qed.

Lemma order_by_perm {A} (key : A -> Z) (rows : list A) :
  order_by key rows ≡ₚ rows.
Proof. apply merge_sort_Permutation. Qed.

Lemma elem_of_order_by {A} (key : A -> Z) (rows : list A) (x : A) :
  x ∈ order_by key rows <-> x ∈ rows.
Proof. rewrite (order_by_perm key rows). reflexivity. Qed.

Lemma order_by_sorted {A} (key : A -> Z) (rows : list A) :
  StronglySorted (key_le key) (order_by key rows).
Proof.
  apply (@StronglySorted_merge_sort _ (key_le key) _
           (key_le_trans key) (key_le_total key)).
Qed.

Lemma elem_of_join_using_zoid temp cur ts (c : Z * Z) :
  (ts, c) ∈ join_using_zoid temp cur <->
  ts ∈ temp /\ c ∈ cur /\ c.1 = ts_zoid ts.
Proof.
  unfold join_using_zoid. rewrite list_elem_of_bind. split.
  - intros (ts' & Hin & Hts).
    apply list_elem_of_fmap in Hin as (c' & Heq & Hc).
    apply list_elem_of_filter in Hc as [Hzoid Hc].
    inversion Heq; subst. auto.
  - intros (Hts & Hc & Hzoid). exists ts. split; [|exact Hts].
    apply list_elem_of_fmap. exists c. split; [reflexivity|].
    apply list_elem_of_filter. auto.
Qed.

Lemma elem_of_select_conflicts t d zoid tid prev_tid :
  (zoid, tid, prev_tid) ∈ select_conflicts t d <->
  (exists ts, ts ∈ temp_store d /\ ts_zoid ts = zoid /\ ts_prev_tid ts = prev_tid)
  /\ (zoid, tid) ∈ current_rows t d
  /\ prev_tid <> tid.
Proof.
  unfold select_conflicts. rewrite elem_of_order_by, list_elem_of_fmap. split.
  - intros ([ts [z c]] & Heq & Hin). simpl in Heq.
    apply list_elem_of_filter in Hin as [Hne Hin]. simpl in Hne.
    apply elem_of_join_using_zoid in Hin as (Hts & Hc & Hz). simpl in Hz.
    inversion Heq; subst. eauto 7.
  - intros ((ts & Hts & Hz & Hp) & Hc & Hne).
    exists (ts, (zoid, tid)). simpl. split; [congruence|].
    apply list_elem_of_filter. simpl. split; [congruence|].
    apply elem_of_join_using_zoid. auto.
Qed.

(** ** Conflict detection *)

(** C1: [detect_conflict] returns, for the table that holds the
    current rows in the instance's mode, exactly the records
    (object, current transaction, expected predecessor) of the staged
    objects whose expected predecessor differs from the transaction
    of their current row; the records come in ascending order of the
    object identifier, and there is none exactly when every staged
    object agrees with its current row. *)
Theorem detect_conflict_exact (self : Mover.AbstractObjectMover) (cursor : database) :
  exists rows,
    Mover.detect_conflict self cursor = Return rows
    /\ (forall zoid tid prev_tid,
           (zoid, tid, prev_tid) ∈ rows <->
           (exists ts, ts ∈ temp_store cursor /\ ts_zoid ts = zoid
                       /\ ts_prev_tid ts = prev_tid)
           /\ (zoid, tid) ∈ current_rows (current_table (Mover.keep_history self)) cursor
           /\ prev_tid <> tid)
    /\ StronglySorted (key_le (fun r : Z * Z * Z => r.1.1)) rows
    /\ (rows = [] <->
        forall ts tid,
          ts ∈ temp_store cursor ->
          (ts_zoid ts, tid) ∈ current_rows (current_table (Mover.keep_history self)) cursor ->
          ts_prev_tid ts = tid).
Proof.
  exists (select_conflicts (current_table (Mover.keep_history self)) cursor).
  split; [|split; [|split]].
  - unfold Mover.detect_conflict, Mover._detect_conflict_query, _query_property,
      query_property, select_variant, current_table.
    destruct (Mover.keep_history self); reflexivity.
  - intros zoid tid prev_tid. apply elem_of_select_conflicts.
  - apply order_by_sorted.
  - split.
    + intros Hnil ts tid Hts Hc.
      destruct (decide (ts_prev_tid ts = tid)) as [|Hne]; [assumption|].
      assert (Hin : (ts_zoid ts, tid, ts_prev_tid ts)
                      ∈ select_conflicts (current_table (Mover.keep_history self)) cursor)
        by (apply elem_of_select_conflicts; eauto 7).
      rewrite Hnil in Hin. apply elem_of_nil in Hin. contradiction.
    + intros Hagree.
      destruct (select_conflicts _ cursor) as [|[[zoid tid] prev_tid] rows] eqn:Hrows;
        [reflexivity|].
      assert (Hin : (zoid, tid, prev_tid)
                      ∈ select_conflicts (current_table (Mover.keep_history self)) cursor)
        by (rewrite Hrows; apply elem_of_cons; auto).
      apply elem_of_select_conflicts in Hin as ((ts & Hts & Hz & Hp) & Hc & Hne).
      subst. exfalso. apply Hne. apply (Hagree ts tid Hts Hc).
Qed.

(** ** Row locks *)

Lemma blank_append_space c : blank (c +:+ " ") = blank c.
Proof.
  induction c as [|a c IH]; simpl; [reflexivity|].
  rewrite IH. reflexivity.
Qed.

Lemma blank_suffix c : blank ("  " +:+ c +:+ " ") = blank c.
Proof.
  change (blank ("  " +:+ c +:+ " ")) with (true && (true && blank (c +:+ " "))).
  simpl. apply blank_append_space.
Qed.

Lemma take_row_locks_db lock t zoids s :
  db (take_row_locks lock t zoids s) = db s.
Proof. unfold take_row_locks. destruct (blank lock); reflexivity. Qed.

Lemma take_row_locks_nil lock t s : take_row_locks lock t [] s = s.
Proof.
  unfold take_row_locks. destruct (blank lock); [reflexivity|].
  destruct s as [d locks]. simpl. rewrite app_nil_r. reflexivity.
Qed.

Lemma take_row_locks_app lock t zoids1 zoids2 s :
  take_row_locks lock t zoids2 (take_row_locks lock t zoids1 s)
  = take_row_locks lock t (zoids1 ++ zoids2) s.
Proof.
  unfold take_row_locks. destruct (blank lock); [reflexivity|].
  simpl. rewrite fmap_app, app_assoc. reflexivity.
Qed.

Lemma acquired_take_row_locks lock t zoids s :
  acquired s (take_row_locks lock t zoids s)
  = if blank lock then [] else (fun z => (t, z)) <$> zoids.
Proof.
  unfold acquired, take_row_locks. destruct (blank lock); simpl.
  - apply drop_all.
  - apply drop_app_length.
Qed.

Lemma batches_aux_concat n fuel (l : list Z) :
  n <> 0%nat -> (length l <= fuel)%nat ->
  concat (Batch.batches_aux fuel n l) = l.
Proof.
  intros Hn. revert l. induction fuel as [|fuel IH]; intros l Hlen.
  - destruct l; [reflexivity | simpl in Hlen; lia].
  - simpl. destruct (take n l) as [|z batch] eqn:Htake.
    + apply take_nil_inv in Htake as [? | ->]; [contradiction | reflexivity].
    + simpl. rewrite IH.
      * change (z :: batch ++ drop n l) with ((z :: batch) ++ drop n l).
        rewrite <- Htake. apply take_drop.
      * rewrite length_drop.
        destruct l; [rewrite take_nil in Htake; discriminate|].
        simpl in Hlen |- *. lia.
Qed.

Lemma batches_concat n (l : list Z) :
  n <> 0%nat -> concat (Batch.batches n l) = l.
Proof. intros Hn. apply batches_aux_concat; [assumption | lia]. Qed.

Lemma rows_in_app t d ids1 ids2 :
  Batch.rows_in t d (ids1 ++ ids2) = Batch.rows_in t d ids1 ++ Batch.rows_in t d ids2.
Proof. unfold Batch.rows_in. apply bind_app. Qed.

(** The batches of [select_from] behave as one lookup of all values. *)
Lemma select_from_batches t suffix batches rows s :
  foldl (fun acc batch =>
           let out := Batch.select_zoid_in t suffix batch acc.2 in
           ((acc.1 ++ out.1)%list, out.2))
        (rows, s) batches
  = (rows ++ Batch.rows_in t (db s) (concat batches),
     take_row_locks suffix t (Batch.rows_in t (db s) (concat batches)) s).
Proof.
  revert rows s. induction batches as [|batch batches IH]; intros rows s.
  - simpl. rewrite app_nil_r, take_row_locks_nil. reflexivity.
  - simpl foldl. rewrite IH. simpl.
    rewrite take_row_locks_db, take_row_locks_app, rows_in_app, app_assoc.
    reflexivity.
Qed.

Lemma select_from_rows n t suffix values s :
  n <> 0%nat ->
  Batch.select_from n t suffix values s
  = (Batch.rows_in t (db s) values,
     take_row_locks suffix t (Batch.rows_in t (db s) values) s).
Proof.
  intros Hn. unfold Batch.select_from.
  rewrite select_from_batches, batches_concat by assumption. reflexivity.
Qed.

Lemma elem_of_rows_in t d ids z :
  z ∈ Batch.rows_in t d ids <-> z ∈ ids /\ z ∈ (current_rows t d).*1.
Proof.
  unfold Batch.rows_in. rewrite list_elem_of_bind. split.
  - intros (v & Hz & Hv). apply list_elem_of_filter in Hz as [-> Hz]. auto.
  - intros [Hids Hz]. exists z. split; [|assumption].
    apply list_elem_of_filter. auto.
Qed.

Lemma constant_sorted (v : Z) (l : list Z) :
  (forall x, x ∈ l -> x = v) -> StronglySorted Z.le l.
Proof.
  induction l as [|x l IH]; intros Hall; constructor.
  - apply IH. intros y Hy. apply Hall. right. assumption.
  - apply Forall_forall. intros y Hy.
    rewrite (Hall x) by left. rewrite (Hall y) by (right; assumption). lia.
Qed.

Lemma rows_in_sorted t d ids :
  StronglySorted Z.lt ids -> StronglySorted Z.le (Batch.rows_in t d ids).
Proof.
  induction 1 as [|v ids Hsorted IH Hlt]; [constructor|].
  unfold Batch.rows_in. rewrite bind_cons. apply StronglySorted_app_2.
  - intros x1 x2 Hx1 Hx2.
    apply list_elem_of_filter in Hx1 as [-> _].
    apply elem_of_rows_in in Hx2 as [Hx2 _].
    rewrite Forall_forall in Hlt. specialize (Hlt x2 Hx2). lia.
  - apply (constant_sorted v). intros x Hx.
    apply list_elem_of_filter in Hx as [-> _]. reflexivity.
  - exact IH.
Qed.

Lemma filter_key_split (v : Z) (ids T : list Z) :
  v ∉ ids ->
  filter (fun z => z = v) T ++ filter (fun z => z ∈ ids) T
  ≡ₚ filter (fun z => z ∈ v :: ids) T.
Proof.
  intros Hv. induction T as [|z T IH]; [reflexivity|].
  rewrite !filter_cons.
  destruct (decide (z = v)) as [->|Hne].
  - rewrite decide_False by assumption.
    rewrite decide_True by left. simpl. constructor. exact IH.
  - destruct (decide (z ∈ ids)) as [Hin|Hout].
    + rewrite decide_True by (right; assumption).
      rewrite <- Permutation_middle. constructor. exact IH.
    + rewrite decide_False; [exact IH|].
      intros Hz. apply elem_of_cons in Hz as [?|?]; contradiction.
Qed.

Lemma rows_in_perm t d ids :
  NoDup ids ->
  Batch.rows_in t d ids ≡ₚ filter (fun z => z ∈ ids) (current_rows t d).*1.
Proof.
  induction 1 as [|v ids Hv Hnodup IH].
  - unfold Batch.rows_in. simpl.
    induction ((current_rows t d).*1) as [|z T IHT]; [reflexivity|].
    rewrite filter_cons, decide_False; [exact IHT|]. apply not_elem_of_nil.
  - unfold Batch.rows_in. rewrite bind_cons. fold (Batch.rows_in t d ids).
    rewrite IH. apply filter_key_split. assumption.
Qed.

Lemma filter_ext_in {A} (P Q : A -> Prop) `{!forall x, Decision (P x)}
    `{!forall x, Decision (Q x)} (l : list A) :
  (forall x, x ∈ l -> (P x <-> Q x)) -> filter P l = filter Q l.
Proof.
  induction l as [|x l IH]; intros Hext; [reflexivity|].
  rewrite !filter_cons.
  rewrite IH by (intros y Hy; apply Hext; right; assumption).
  destruct (decide (P x)) as [HP|HP], (decide (Q x)) as [HQ|HQ];
    try reflexivity; exfalso; apply (Hext x) in HP || apply HP, (Hext x);
    auto; left.
Qed.

Lemma elem_of_oids_to_lock rows current_oids z :
  z ∈ Locker.oids_to_lock rows current_oids <-> z ∈ rows \/ z ∈ current_oids.
Proof.
  unfold Locker.oids_to_lock.
  rewrite merge_sort_Permutation, elem_of_elements, elem_of_union,
    !elem_of_list_to_set.
  reflexivity.
Qed.

Lemma oids_to_lock_NoDup rows current_oids :
  NoDup (Locker.oids_to_lock rows current_oids).
Proof.
  unfold Locker.oids_to_lock. rewrite merge_sort_Permutation.
  apply NoDup_elements.
Qed.

Lemma sorted_le_NoDup_lt (l : list Z) :
  StronglySorted Z.le l -> NoDup l -> StronglySorted Z.lt l.
Proof.
  induction 1 as [|x l Hsorted IH Hle]; intros Hnodup; constructor.
  - apply IH. apply NoDup_cons in Hnodup as [_ ?]. assumption.
  - apply NoDup_cons in Hnodup as [Hx _].
    rewrite Forall_forall in Hle |- *. intros y Hy.
    specialize (Hle y Hy).
    assert (x <> y) by (intros ->; contradiction). lia.
Qed.

Lemma oids_to_lock_sorted rows current_oids :
  StronglySorted Z.lt (Locker.oids_to_lock rows current_oids).
Proof.
  apply sorted_le_NoDup_lt; [|apply oids_to_lock_NoDup].
  unfold Locker.oids_to_lock. apply StronglySorted_merge_sort; apply _.
Qed.

Lemma elem_of_select_current_objects t d z :
  z ∈ select_current_objects t d <->
  z ∈ ts_zoid <$> temp_store d /\ z ∈ (current_rows t d).*1.
Proof.
  unfold select_current_objects. rewrite list_elem_of_filter. reflexivity.
Qed.

Lemma order_by_id_sorted (l : list Z) : StronglySorted Z.le (order_by id l).
Proof. exact (order_by_sorted id l). Qed.

(** Looking up the sorted staged objects one by one finds the rows of
    the ordered range query, in the same order. *)
Lemma rows_in_staged t d :
  Batch.rows_in t d (Locker.oids_to_lock (select_current_objects t d) [])
  = order_by id (select_current_objects t d).
Proof.
  apply (StronglySorted_unique Z.le).
  - apply rows_in_sorted, oids_to_lock_sorted.
  - apply order_by_id_sorted.
  - rewrite rows_in_perm by apply oids_to_lock_NoDup.
    rewrite order_by_perm.
    replace (filter (fun z => z ∈ Locker.oids_to_lock (select_current_objects t d) [])
               (current_rows t d).*1)
      with (select_current_objects t d); [reflexivity|].
    unfold select_current_objects at 1. apply filter_ext_in.
    intros z Hz.
    rewrite elem_of_oids_to_lock, elem_of_select_current_objects, elem_of_nil.
    tauto.
Qed.

Lemma locked_zoids (t : table_name) (zoids : list Z) :
  ((fun z => (t, z)) <$> zoids).*2 = zoids.
Proof.
  induction zoids as [|z zoids IH]; [reflexivity|].
  simpl. f_equal. exact IH.
Qed.

Section lock_current_objects.
Import Locker.
Context (self : AbstractLocker).

Lemma row_limit_positive : row_limit <> 0%nat.
Proof. discriminate. Qed.

Lemma lock_explicit_oids_locks cursor current_oids :
  lock_explicit_oids self cursor current_oids
  = Return (take_row_locks (_lock_current_clause self)
              (current_table (keep_history self))
              (Batch.rows_in (current_table (keep_history self)) (db cursor)
                 (oids_to_lock
                    (select_current_objects (current_table (keep_history self))
                       (db cursor))
                    current_oids))
              cursor).
Proof.
  unfold lock_explicit_oids, _get_current_objects_query, _query_property,
    query_property, select_variant, current_table.
  destruct (keep_history self); simpl;
    rewrite select_from_rows by apply row_limit_positive; simpl;
    unfold take_row_locks; rewrite blank_suffix; reflexivity.
Qed.

Lemma lock_ordered_query_locks cursor :
  lock_ordered_query self cursor
  = Return (take_row_locks (_lock_current_clause self)
              (current_table (keep_history self))
              (order_by id
                 (select_current_objects (current_table (keep_history self))
                    (db cursor)))
              cursor).
Proof.
  unfold lock_ordered_query, _lock_current_objects_query,
    _get_current_objects_query, _query_property, query_property,
    select_variant, current_table.
  destruct (keep_history self); reflexivity.
Qed.

(** C2: with a non-empty candidate set, [lock_current_objects] unites
    the staged objects that have a current row with the candidates,
    sorts the union ascending without repetition, and takes the row
    locks of the rows found for these identifiers in exactly that
    order; a second call on the same table whose union is the same set
    takes the same locks in the same order, however the objects were
    staged or supplied. *)
Theorem lock_current_objects_order cursor current_oids :
  current_oids <> [] ->
  exists oids locked cursor',
    oids = oids_to_lock
             (select_current_objects (current_table (keep_history self)) (db cursor))
             current_oids
    /\ (forall z, z ∈ oids <->
                  (z ∈ ts_zoid <$> temp_store (db cursor)
                   /\ z ∈ (current_rows (current_table (keep_history self))
                             (db cursor)).*1)
                  \/ z ∈ current_oids)
    /\ StronglySorted Z.lt oids
    /\ lock_current_objects self cursor current_oids = Return cursor'
    /\ db cursor' = db cursor
    /\ acquired cursor cursor'
       = (if blank (_lock_current_clause self) then []
          else (fun z => (current_table (keep_history self), z)) <$> locked)
    /\ locked = Batch.rows_in (current_table (keep_history self)) (db cursor) oids
    /\ (forall z, z ∈ locked <->
                  z ∈ oids
                  /\ z ∈ (current_rows (current_table (keep_history self))
                            (db cursor)).*1)
    /\ StronglySorted Z.le locked
    /\ (forall cursor2 current_oids2,
           current_oids2 <> [] ->
           current_rows (current_table (keep_history self)) (db cursor2)
           = current_rows (current_table (keep_history self)) (db cursor) ->
           list_to_set (select_current_objects (current_table (keep_history self))
                          (db cursor2))
             ∪ list_to_set current_oids2
           =@{gset Z}
           list_to_set (select_current_objects (current_table (keep_history self))
                          (db cursor))
             ∪ list_to_set current_oids ->
           exists cursor2',
             lock_current_objects self cursor2 current_oids2 = Return cursor2'
             /\ acquired cursor2 cursor2' = acquired cursor cursor').
Proof.
  intros Hoids.
  eexists _, _, _. split; [reflexivity|].
  assert (Hcall : forall c oids0, oids0 <> [] ->
            lock_current_objects self c oids0 = lock_explicit_oids self c oids0).
  { intros c oids0 Hne. unfold lock_current_objects.
    destruct oids0; [contradiction | reflexivity]. }
  split; [|split; [|split; [|split; [|split; [|split; [|split; [|split]]]]]]].
  - intros z. rewrite elem_of_oids_to_lock, elem_of_select_current_objects.
    reflexivity.
  - apply oids_to_lock_sorted.
  - rewrite Hcall by assumption. apply lock_explicit_oids_locks.
  - apply take_row_locks_db.
  - apply acquired_take_row_locks.
  - reflexivity.
  - intros z. apply elem_of_rows_in.
  - apply rows_in_sorted, oids_to_lock_sorted.
  - intros cursor2 current_oids2 Hoids2 Htable Hset.
    eexists. split.
    + rewrite Hcall by assumption. apply lock_explicit_oids_locks.
    + rewrite !acquired_take_row_locks.
      unfold oids_to_lock, Batch.rows_in. rewrite Hset, Htable. reflexivity.
Qed.

(** C8: with no candidates the two ways of locking agree.  The single
    ordered range query and the general path, run on an empty
    candidate set, end in the same session: they lock the same rows of
    the same table, in the same ascending order of object
    identifiers. *)
Theorem lock_paths_agree cursor :
  exists cursor',
    lock_current_objects self cursor [] = Return cursor'
    /\ lock_ordered_query self cursor = Return cursor'
    /\ lock_explicit_oids self cursor [] = Return cursor'
    /\ db cursor' = db cursor
    /\ acquired cursor cursor'
       = (if blank (_lock_current_clause self) then []
          else (fun z => (current_table (keep_history self), z))
                 <$> order_by id
                       (select_current_objects (current_table (keep_history self))
                          (db cursor)))
    /\ StronglySorted Z.le (acquired cursor cursor').*2
    /\ (forall z, z ∈ order_by id
                        (select_current_objects (current_table (keep_history self))
                           (db cursor)) <->
                  z ∈ ts_zoid <$> temp_store (db cursor)
                  /\ z ∈ (current_rows (current_table (keep_history self))
                            (db cursor)).*1).
Proof.
  eexists.
  split; [|split; [|split; [|split; [|split; [|split]]]]].
  - unfold lock_current_objects. simpl. apply lock_ordered_query_locks.
  - apply lock_ordered_query_locks.
  - rewrite lock_explicit_oids_locks, rows_in_staged. reflexivity.
  - apply take_row_locks_db.
  - apply acquired_take_row_locks.
  - rewrite acquired_take_row_locks.
    destruct (blank (_lock_current_clause self)); [constructor|].
    rewrite locked_zoids. apply order_by_id_sorted.
  - intros z. rewrite elem_of_order_by. apply elem_of_select_current_objects.
Qed.

End lock_current_objects.

(** C2 at work: objects 7 and 9 are staged and committed, object 4 is
    a candidate; the locks are taken on 4, 7, 9, also when the objects
    were staged and supplied in the opposite order. *)
Lemma lock_current_objects_order_witness :
  [4; 9] <> []
  /\ exists cursor' cursor2',
      Locker.lock_current_objects Examples.history_preserving_locker
        (Examples.fresh Examples.committed) [4; 9] = Return cursor'
      /\ acquired (Examples.fresh Examples.committed) cursor'
         = [(current_object_t, 4); (current_object_t, 7); (current_object_t, 9)]
      /\ Locker.lock_current_objects Examples.history_preserving_locker
           (Examples.fresh Examples.committed_reversed) [9; 4] = Return cursor2'
      /\ acquired (Examples.fresh Examples.committed_reversed) cursor2'
         = acquired (Examples.fresh Examples.committed) cursor'.
Proof.
  split; [discriminate|].
  destruct (lock_current_objects_order Examples.history_preserving_locker
              (Examples.fresh Examples.committed) [4; 9])
    as (oids & locked & cursor' & Hoids & _ & _ & Hcall & _ & Hacquired
        & Hlocked & _ & _ & Hsame);
    [discriminate|].
  destruct (Hsame (Examples.fresh Examples.committed_reversed) [9; 4])
    as (cursor2' & Hcall2 & Hacquired2);
    [discriminate | reflexivity | vm_compute; reflexivity |].
  exists cursor', cursor2'.
  split; [exact Hcall|]. split; [|split; [exact Hcall2 | exact Hacquired2]].
  rewrite Hacquired, Hlocked, Hoids. vm_compute. reflexivity.
Defined.

(** C8 at work: without candidates both paths lock 7 and then 9. *)
Lemma lock_paths_agree_witness :
  exists cursor',
      Locker.lock_ordered_query Examples.history_preserving_locker
        (Examples.fresh Examples.committed) = Return cursor'
      /\ Locker.lock_explicit_oids Examples.history_preserving_locker
           (Examples.fresh Examples.committed) [] = Return cursor'
      /\ acquired (Examples.fresh Examples.committed) cursor'
         = [(current_object_t, 7); (current_object_t, 9)].
Proof.
  destruct (lock_paths_agree Examples.history_preserving_locker
              (Examples.fresh Examples.committed))
    as (cursor' & _ & Hordered & Hexplicit & _ & Hacquired & _).
  exists cursor'. split; [exact Hordered|]. split; [exact Hexplicit|].
  rewrite Hacquired. vm_compute. reflexivity.
Defined.

(** The scenario of the specification: object 9 staged with
    predecessor 5 while its current transaction is 3, next to the
    agreeing object 7 and the new object 12. *)
Example detect_conflict_scenario :
  Mover.detect_conflict Examples.history_preserving Examples.committed
  = Return [(9, 3, 5)].
Proof. vm_compute. reflexivity. Qed.

(** ** Republishing the current pointers *)

Lemma elem_of_zoids_at tid p d z :
  z ∈ zoids_at tid p d <->
  exists r, r ∈ object_state d /\ os_zoid r = z /\ os_tid r = tid
            /\ p (os_prev_tid r) = true.
Proof.
  unfold zoids_at. rewrite list_elem_of_fmap. split.
  - intros (r & -> & Hr). apply list_elem_of_filter in Hr as [[? ?] ?]. eauto.
  - intros (r & Hr & Hz & Htid & Hp). exists r. split; [auto|].
    apply list_elem_of_filter. auto.
Qed.

Lemma prev_tid_nonzero (p : Z) : negb (Z.eqb 0 p) = true <-> p <> 0.
Proof. destruct (Z.eqb_spec 0 p); simpl; split; intros; congruence || lia. Qed.

Lemma NoDup_fmap_injective {A B} (f : A -> B) (l : list A) x y :
  NoDup (f <$> l) -> x ∈ l -> y ∈ l -> f x = f y -> x = y.
Proof.
  induction l as [|a l IH]; intros Hnodup Hx Hy Heq.
  - apply elem_of_nil in Hx. contradiction.
  - simpl in Hnodup. apply NoDup_cons in Hnodup as [Ha Hnodup].
    apply elem_of_cons in Hx as [->|Hx], Hy as [->|Hy]; auto.
    + exfalso. apply Ha. rewrite Heq. apply list_elem_of_fmap_2. assumption.
    + exfalso. apply Ha. rewrite <- Heq. apply list_elem_of_fmap_2. assumption.
Qed.

(** Under the primary key [(zoid, tid)] of [object_state], a
    transaction has one state per object. *)
Lemma zoids_at_NoDup tid p d :
  NoDup ((fun r => (os_zoid r, os_tid r)) <$> object_state d) ->
  NoDup (zoids_at tid p d).
Proof.
  intros Hkey. unfold zoids_at. apply NoDup_fmap_2_strong.
  - intros x y Hx Hy Hz.
    apply list_elem_of_filter in Hx as [[Hxt _] Hx].
    apply list_elem_of_filter in Hy as [[Hyt _] Hy].
    apply (NoDup_fmap_injective _ _ x y Hkey Hx Hy). congruence.
  - apply NoDup_filter. eapply NoDup_fmap_1. exact Hkey.
Qed.

Lemma elem_of_created tid d z :
  z ∈ zoids_at tid (Z.eqb 0) d <-> created_at tid d z.
Proof.
  rewrite elem_of_zoids_at. unfold created_at.
  split; intros (r & Hr & Hz & Ht & Hp); exists r; repeat split; auto.
  - apply Z.eqb_eq in Hp. congruence.
  - apply Z.eqb_eq. congruence.
Qed.

Lemma elem_of_modified tid d z :
  z ∈ order_by id (zoids_at tid (fun p => negb (Z.eqb 0 p)) d)
  <-> modified_at tid d z.
Proof.
  rewrite elem_of_order_by, elem_of_zoids_at. unfold modified_at.
  split; intros (r & Hr & Hz & Ht & Hp); exists r; repeat split; auto;
    apply prev_tid_nonzero; exact Hp.
Qed.

Lemma elem_of_stored tid d z :
  z ∈ order_by id (zoids_at tid (fun _ => true) d) <-> stored_at tid d z.
Proof.
  rewrite elem_of_order_by, elem_of_zoids_at. unfold stored_at.
  split; [intros (r & Hr & Hz & Ht & _) | intros (r & Hr & Hz & Ht)];
    exists r; auto.
Qed.

(** The insert is accepted when no object recorded as created has a
    row yet. *)
Lemma update_current_insert_accepted tid d :
  NoDup (zoids_at tid (Z.eqb 0) d) ->
  (forall r, r ∈ object_state d -> os_tid r = tid -> os_prev_tid r = 0 ->
             os_zoid r ∉ co_zoid <$> current_object d) ->
  update_current_insert tid d
  = Return (with_current_object
              (current_object d
               ++ ((fun z => CurrentObjectRow z tid) <$> zoids_at tid (Z.eqb 0) d))
              d).
Proof.
  intros Hkey Hfresh. unfold update_current_insert.
  rewrite decide_True; [reflexivity|].
  split; [exact Hkey|].
  apply Forall_forall. intros z Hz.
  apply elem_of_created in Hz as (r & Hr & <- & Ht & Hp). auto.
Qed.

(** It is rejected when one of them has. *)
Lemma update_current_insert_rejected tid d r :
  r ∈ object_state d -> os_tid r = tid -> os_prev_tid r = 0 ->
  os_zoid r ∈ co_zoid <$> current_object d ->
  update_current_insert tid d = Raise IntegrityError.
Proof.
  intros Hr Ht Hp Hhas. unfold update_current_insert.
  rewrite decide_False; [reflexivity|].
  intros [_ Hall]. rewrite Forall_forall in Hall.
  apply (Hall (os_zoid r)); [|exact Hhas].
  apply elem_of_created. exists r. auto.
Qed.

(** The base class's method: both statements run, and the rows of
    [current_object] afterwards. *)
Lemma update_current_meth_rows tid d :
  NoDup (zoids_at tid (Z.eqb 0) d) ->
  (forall r, r ∈ object_state d -> os_tid r = tid -> os_prev_tid r = 0 ->
             os_zoid r ∉ co_zoid <$> current_object d) ->
  exists d',
    Mover.update_current_meth tid d = (Return tt, d')
    /\ temp_store d' = temp_store d
    /\ object_state d' = object_state d
    /\ blob_chunk d' = blob_chunk d
    /\ largeobject d' = largeobject d
    /\ current_object d'
       = (fun c => if bool_decide
                        (co_zoid c ∈ order_by id
                           (zoids_at tid (fun p => negb (Z.eqb 0 p)) d))
                   then CurrentObjectRow (co_zoid c) tid else c)
           <$> (current_object d
                ++ ((fun z => CurrentObjectRow z tid) <$> zoids_at tid (Z.eqb 0) d)).
Proof.
  intros Hkey Hfresh. eexists. split.
  - unfold Mover.update_current_meth, Mover.update_current_body,
      Mover._update_current_insert_query, Mover._update_current_update_query.
    cbn [execute_update_current].
    rewrite (update_current_insert_accepted tid d Hkey Hfresh). reflexivity.
  - repeat split; reflexivity.
Qed.

(** The method with the upsert of the PostgreSQL class. *)
Lemma update_current_upsert_rows tid d :
  NoDup ((fun r => (os_zoid r, os_tid r)) <$> object_state d) ->
  exists d',
    Mover.update_current_body PostgreSQL._update_current_insert_query
      PostgreSQL._update_current_update_query tid d
    = (Return tt, d')
    /\ temp_store d' = temp_store d
    /\ object_state d' = object_state d
    /\ blob_chunk d' = blob_chunk d
    /\ largeobject d' = largeobject d
    /\ current_object d'
       = ((fun c => if bool_decide
                         (co_zoid c ∈ order_by id (zoids_at tid (fun _ => true) d))
                    then CurrentObjectRow (co_zoid c) tid else c)
            <$> current_object d)
         ++ ((fun z => CurrentObjectRow z tid)
               <$> filter (fun z => z ∉ co_zoid <$> current_object d)
                          (order_by id (zoids_at tid (fun _ => true) d))).
Proof.
  intros Hkey. eexists. split.
  - unfold Mover.update_current_body, PostgreSQL._update_current_insert_query,
      PostgreSQL._update_current_update_query.
    cbn [execute_update_current]. unfold update_current_upsert.
    rewrite decide_True; [reflexivity|].
    rewrite order_by_perm. apply zoids_at_NoDup. exact Hkey.
  - repeat split; reflexivity.
Qed.

Lemma call_method_bound {S A R} (meth : A -> S -> result R * S) (none : R)
    dict a s :
  entry_of true dict ->
  call_method meth none true dict a s = (Some Bound, meth a s).
Proof.
  unfold call_method, swizzler, entry_of. intros [-> | ->]; reflexivity.
Qed.

Lemma call_method_no_op {S A R} (meth : A -> S -> result R * S) (none : R)
    dict a s :
  entry_of false dict ->
  call_method meth none false dict a s = (Some NoOp, (Return none, s)).
Proof.
  unfold call_method, swizzler, entry_of. intros [-> | ->]; reflexivity.
Qed.

Lemma co_zoid_republished (modified : list Z) tid (rows : list current_object_row) :
  co_zoid <$> ((fun c => if bool_decide (co_zoid c ∈ modified)
                         then CurrentObjectRow (co_zoid c) tid else c) <$> rows)
  = co_zoid <$> rows.
Proof.
  rewrite <- list_fmap_compose. apply list_fmap_ext. intros i c _. simpl.
  case_bool_decide; reflexivity.
Qed.

Lemma co_zoid_new_rows tid (zoids : list Z) :
  co_zoid <$> ((fun z => CurrentObjectRow z tid) <$> zoids) = zoids.
Proof.
  induction zoids as [|z zoids IH]; [reflexivity|].
  rewrite !fmap_cons, IH. reflexivity.
Qed.

Section update_current.
Context (self : Mover.AbstractObjectMover) (cursor : database) (tid : Z).

(** C5: on a history-free instance [update_current] returns [None]
    and leaves the database as it is, on the first call, which
    installs the no-op, and on every later one, with the statements of
    the base class and with the upsert of the PostgreSQL class alike.
    On a history-preserving instance of the base class it returns,
    when no object recorded at [tid] as created (previous transaction
    0) has a row in [current_object] yet, and the table then holds
    exactly: a new row at [tid] for every object created at [tid]; for
    every object modified at [tid] (previous transaction not 0) that
    had a row, that row with [tid] in place of its old transaction;
    and the rows of the objects not modified at [tid] as they were.
    With the upsert every object with a state at [tid] ends with its
    row at [tid], inserted or replaced, and the other rows are as they
    were.  [zoid] stays a key of the table and the other tables are
    not touched. *)
Theorem update_current_by_mode dict :
  entry_of (Mover.keep_history self) dict ->
  (Mover.keep_history self = false ->
   Mover.update_current self dict cursor tid = (Some NoOp, (Return tt, cursor))
   /\ PostgreSQL.update_current self dict cursor tid
      = (Some NoOp, (Return tt, cursor)))
  /\ (Mover.keep_history self = true ->
      NoDup ((fun r => (os_zoid r, os_tid r)) <$> object_state cursor) ->
      (forall r, r ∈ object_state cursor -> os_tid r = tid -> os_prev_tid r = 0 ->
                 os_zoid r ∉ co_zoid <$> current_object cursor) ->
      exists cursor',
        Mover.update_current self dict cursor tid
        = (Some Bound, (Return tt, cursor'))
        /\ temp_store cursor' = temp_store cursor
        /\ object_state cursor' = object_state cursor
        /\ blob_chunk cursor' = blob_chunk cursor
        /\ largeobject cursor' = largeobject cursor
        /\ (forall z t,
              CurrentObjectRow z t ∈ current_object cursor' <->
              (t = tid /\ created_at tid cursor z)
              \/ (t = tid /\ modified_at tid cursor z
                  /\ z ∈ co_zoid <$> current_object cursor)
              \/ (~ modified_at tid cursor z
                  /\ CurrentObjectRow z t ∈ current_object cursor))
        /\ (NoDup (co_zoid <$> current_object cursor) ->
            NoDup (co_zoid <$> current_object cursor')))
  /\ (Mover.keep_history self = true ->
      NoDup ((fun r => (os_zoid r, os_tid r)) <$> object_state cursor) ->
      exists cursor',
        PostgreSQL.update_current self dict cursor tid
        = (Some Bound, (Return tt, cursor'))
        /\ temp_store cursor' = temp_store cursor
        /\ object_state cursor' = object_state cursor
        /\ blob_chunk cursor' = blob_chunk cursor
        /\ largeobject cursor' = largeobject cursor
        /\ (forall z t,
              CurrentObjectRow z t ∈ current_object cursor' <->
              (t = tid /\ stored_at tid cursor z)
              \/ (~ stored_at tid cursor z
                  /\ CurrentObjectRow z t ∈ current_object cursor))
        /\ (NoDup (co_zoid <$> current_object cursor) ->
            NoDup (co_zoid <$> current_object cursor'))).
Proof.
  intros Hentry. split; [|split].
  - intros Hmode.
    unfold Mover.update_current, PostgreSQL.update_current.
    rewrite Hmode in *.
    rewrite !call_method_no_op by exact Hentry. split; reflexivity.
  - intros Hmode Hkey Hfresh.
    destruct (update_current_meth_rows tid cursor
                (zoids_at_NoDup tid (Z.eqb 0) cursor Hkey) Hfresh)
      as (cursor' & Hcall & Hts & Hos & Hbc & Hlo & Hrows).
    exists cursor'. split.
    { unfold Mover.update_current. rewrite Hmode in *.
      rewrite call_method_bound by exact Hentry. rewrite Hcall. reflexivity. }
    do 4 (split; [assumption|]). rewrite Hrows. clear Hcall Hrows. split.
    + intros z t. rewrite list_elem_of_fmap. split.
      * intros (c & Heq & Hc). case_bool_decide as Hmod.
        -- injection Heq as -> ->. apply elem_of_modified in Hmod.
           apply elem_of_app in Hc as [Hc | Hc].
           ++ right. left. repeat split; auto. apply list_elem_of_fmap_2. exact Hc.
           ++ left. split; [reflexivity|].
              apply list_elem_of_fmap in Hc as (z0 & -> & Hz0).
              apply elem_of_created. exact Hz0.
        -- subst c. rewrite elem_of_modified in Hmod. simpl in Hmod.
           apply elem_of_app in Hc as [Hc | Hc].
           ++ right. right. auto.
           ++ left. apply list_elem_of_fmap in Hc as (z0 & Heq & Hz0).
              injection Heq as -> ->. split; [reflexivity|].
              apply elem_of_created. exact Hz0.
      * intros [[-> Hcreated] | [(-> & Hmod & Hhas) | [Hmod Hold]]].
        -- exists (CurrentObjectRow z tid). split.
           ++ simpl. case_bool_decide; reflexivity.
           ++ apply elem_of_app. right. apply list_elem_of_fmap.
              exists z. split; [reflexivity|]. apply elem_of_created. exact Hcreated.
        -- apply list_elem_of_fmap in Hhas as (c & -> & Hc). exists c. split.
           ++ rewrite bool_decide_eq_true_2; [reflexivity|].
              apply elem_of_modified. exact Hmod.
           ++ apply elem_of_app. left. exact Hc.
        -- exists (CurrentObjectRow z t). split.
           ++ rewrite bool_decide_eq_false_2; [reflexivity|].
              rewrite elem_of_modified. exact Hmod.
           ++ apply elem_of_app. left. exact Hold.
    + intros Hpointer. rewrite co_zoid_republished, fmap_app.
      apply NoDup_app. split; [exact Hpointer|]. split.
      * intros z Hz Hnew. rewrite co_zoid_new_rows in Hnew.
        apply elem_of_created in Hnew as (r & Hr & <- & Ht & Hp).
        exact (Hfresh r Hr Ht Hp Hz).
      * rewrite co_zoid_new_rows. apply zoids_at_NoDup. exact Hkey.
  - intros Hmode Hkey.
    destruct (update_current_upsert_rows tid cursor Hkey)
      as (cursor' & Hcall & Hts & Hos & Hbc & Hlo & Hrows).
    exists cursor'. split.
    { unfold PostgreSQL.update_current. rewrite Hmode in *.
      rewrite call_method_bound by exact Hentry. rewrite Hcall. reflexivity. }
    do 4 (split; [assumption|]). rewrite Hrows. clear Hcall Hrows. split.
    + intros z t. rewrite elem_of_app, !list_elem_of_fmap. split.
      * intros [(c & Heq & Hc) | (z0 & Heq & Hz0)].
        -- case_bool_decide as Hsel.
           ++ injection Heq as -> ->. left. split; [reflexivity|].
              apply elem_of_stored. exact Hsel.
           ++ subst c. rewrite elem_of_stored in Hsel. right. auto.
        -- injection Heq as -> ->. left. split; [reflexivity|].
           apply list_elem_of_filter in Hz0 as [_ Hz0].
           apply elem_of_stored. exact Hz0.
      * intros [[-> Hstored] | [Hstored Hold]].
        -- destruct (decide (z ∈ co_zoid <$> current_object cursor)) as [Hhas | Hnew].
           ++ left. apply list_elem_of_fmap in Hhas as (c & -> & Hc).
              exists c. split; [|exact Hc].
              rewrite bool_decide_eq_true_2; [reflexivity|].
              apply elem_of_stored. exact Hstored.
           ++ right. exists z. split; [reflexivity|].
              apply list_elem_of_filter. split; [exact Hnew|].
              apply elem_of_stored. exact Hstored.
        -- left. exists (CurrentObjectRow z t). split; [|exact Hold].
           rewrite bool_decide_eq_false_2; [reflexivity|].
           rewrite elem_of_stored. exact Hstored.
    + intros Hpointer. rewrite fmap_app, co_zoid_republished.
      apply NoDup_app. split; [exact Hpointer|]. split.
      * intros z Hz Hnew. rewrite co_zoid_new_rows in Hnew.
        apply list_elem_of_filter in Hnew as [Hnew _]. exact (Hnew Hz).
      * rewrite co_zoid_new_rows. apply NoDup_filter.
        rewrite order_by_perm. apply zoids_at_NoDup. exact Hkey.
Qed.

End update_current.

(** C5 at work: the history-free instance leaves the database alone on
    its first call; the history-preserving ones publish transaction 6
    for the modified objects 7 and 9, whose rows at 1 and 3 are
    replaced, and for the new object 12, with the two statements and
    with the upsert. *)
Lemma update_current_by_mode_witness :
  entry_of (Mover.keep_history Examples.history_free) None
  /\ Mover.update_current Examples.history_free None Examples.moved 6
     = (Some NoOp, (Return tt, Examples.moved))
  /\ entry_of (Mover.keep_history Examples.history_preserving) None
  /\ NoDup ((fun r => (os_zoid r, os_tid r)) <$> object_state Examples.moved)
  /\ Forall (fun r => os_tid r = 6 -> os_prev_tid r = 0 ->
                      os_zoid r ∉ co_zoid <$> current_object Examples.moved)
       (object_state Examples.moved)
  /\ (exists cursor',
         Mover.update_current Examples.history_preserving None Examples.moved 6
         = (Some Bound, (Return tt, cursor'))
         /\ current_object cursor'
            = [CurrentObjectRow 7 6; CurrentObjectRow 9 6; CurrentObjectRow 4 2;
               CurrentObjectRow 12 6])
  /\ (exists cursor',
         PostgreSQL.update_current Examples.history_preserving None
           Examples.moved 6
         = (Some Bound, (Return tt, cursor'))
         /\ current_object cursor'
            = [CurrentObjectRow 7 6; CurrentObjectRow 9 6; CurrentObjectRow 4 2;
               CurrentObjectRow 12 6]).
Proof.
  assert (Hkey : NoDup ((fun r => (os_zoid r, os_tid r))
                          <$> object_state Examples.moved))
    by (apply (bool_decide_unpack _); vm_compute; reflexivity).
  assert (Hfresh : Forall (fun r => os_tid r = 6 -> os_prev_tid r = 0 ->
                             os_zoid r ∉ co_zoid <$> current_object Examples.moved)
                     (object_state Examples.moved))
    by (apply (bool_decide_unpack _); vm_compute; reflexivity).
  split; [left; reflexivity|]. split.
  { apply (proj1 (update_current_by_mode Examples.history_free Examples.moved 6
                    None (or_introl eq_refl))).
    reflexivity. }
  split; [left; reflexivity|]. split; [exact Hkey|]. split; [exact Hfresh|].
  split.
  - destruct (proj1 (proj2 (update_current_by_mode Examples.history_preserving
                              Examples.moved 6 None (or_introl eq_refl)))
                eq_refl Hkey (proj1 (Forall_forall _ _) Hfresh))
      as (cursor' & Hcall & _).
    exists cursor'. split; [exact Hcall|].
    vm_compute in Hcall. injection Hcall as <-. reflexivity.
  - destruct (proj2 (proj2 (update_current_by_mode Examples.history_preserving
                              Examples.moved 6 None (or_introl eq_refl)))
                eq_refl Hkey)
      as (cursor' & Hcall & _).
    exists cursor'. split; [exact Hcall|].
    vm_compute in Hcall. injection Hcall as <-. reflexivity.
Defined.

(** ** Null and empty payloads *)

Section payloads.
Context (md5_hexdigest : bytes -> string) (drv : Mover.IDBDriver).
Context (b : Mover.batcher) (oid tid : Z) (command suffix : string).

(** The digest column: computed when history is kept, [None] when it
    is not. *)
Lemma _compute_md5sum_by_mode (self : Mover.AbstractObjectMover) data :
  Mover._compute_md5sum md5_hexdigest self None data
  = Return (if Mover.keep_history self
            then match data with
                 | Some d => Some (md5_hexdigest d)
                 | None => None
                 end
            else None).
Proof.
  unfold Mover._compute_md5sum, call_method, swizzler, installed.
  destruct (Mover.keep_history self); reflexivity.
Qed.

(** C6, amended: storing directly ([_generic_restore]) a [None] payload
    writes, when history is kept, a row with a null state, size 0 and
    no digest; when history is not kept, a [None] or empty payload only
    deletes the object's row; a non-empty payload is written as a row
    in both modes.  Staging ([_generic_store_temp]) writes every byte
    string, empty or not, as a row in both modes, and raises on [None]
    before any row is written. *)
Theorem restore_and_store_temp_payloads :
  Mover._generic_restore md5_hexdigest (Mover.mover true drv) b oid tid None
    command suffix
  = (Return tt,
     b ++ (if Mover.plain_insert command suffix
           then [Mover.delete_from "object_state" [("zoid", oid); ("tid", tid)]]
           else [])
       ++ [Mover.insert_into
             "object_state (zoid, tid, prev_tid, md5, state_size, state)"
             Mover.row_schema_object_state
             [Mover.Int oid; Mover.Int tid; Mover.Int oid; Mover.Null;
              Mover.Int 0; Mover.Null]
             [oid; tid] 0 command suffix])
  /\ Mover._generic_restore md5_hexdigest (Mover.mover false drv) b oid tid None
       command suffix
     = (Return tt, b ++ [Mover.delete_from "object_state" [("zoid", oid)]])
  /\ Mover._generic_restore md5_hexdigest (Mover.mover false drv) b oid tid (Some [])
       command suffix
     = (Return tt, b ++ [Mover.delete_from "object_state" [("zoid", oid)]])
  /\ (forall x d,
         Mover._generic_restore md5_hexdigest (Mover.mover true drv) b oid tid
           (Some (x :: d)) command suffix
         = (Return tt,
            b ++ (if Mover.plain_insert command suffix
                  then [Mover.delete_from "object_state"
                          [("zoid", oid); ("tid", tid)]]
                  else [])
              ++ [Mover.insert_into
                    "object_state (zoid, tid, prev_tid, md5, state_size, state)"
                    Mover.row_schema_object_state
                    [Mover.Int oid; Mover.Int tid; Mover.Int oid;
                     Mover.Str (md5_hexdigest (x :: d));
                     Mover.Int (len (x :: d)); Mover.Binary drv (x :: d)]
                    [oid; tid] (len (x :: d)) command suffix])
         /\ Mover._generic_restore md5_hexdigest (Mover.mover false drv) b oid tid
              (Some (x :: d)) command suffix
            = (Return tt,
               b ++ (if Mover.plain_insert command suffix
                     then [Mover.delete_from "object_state" [("zoid", oid)]]
                     else [])
                 ++ [Mover.insert_into
                       "object_state (zoid, tid, state_size, state)"
                       "%s, %s, %s, %s"
                       [Mover.Int oid; Mover.Int tid;
                        Mover.Int (len (x :: d)); Mover.Binary drv (x :: d)]
                       [oid] (len (x :: d)) command suffix]))
  /\ (forall (self : Mover.AbstractObjectMover) d,
         Mover.driver self = drv ->
         Mover._generic_store_temp md5_hexdigest self b oid tid (Some d)
           command suffix
         = (Return tt,
            b ++ (if Mover.plain_insert command suffix
                  then [Mover.delete_from "temp_store" [("zoid", oid)]]
                  else [])
              ++ [Mover.insert_into "temp_store (zoid, prev_tid, md5, state)"
                    "%s, %s, %s, %s"
                    [Mover.Int oid; Mover.Int tid;
                     (if Mover.keep_history self
                      then Mover.Str (md5_hexdigest d) else Mover.Null);
                     Mover.Binary drv d]
                    [oid] (len d) command suffix]))
  /\ (forall (self : Mover.AbstractObjectMover),
         exists e,
           Mover._generic_store_temp md5_hexdigest self b oid tid None
             command suffix
           = (Raise e,
              b ++ (if Mover.plain_insert command suffix
                    then [Mover.delete_from "temp_store" [("zoid", oid)]]
                    else []))).
Proof.
  unfold Mover._generic_restore, Mover._generic_store_temp.
  repeat split; intros;
    rewrite ?_compute_md5sum_by_mode; subst; simpl;
    try (destruct (Mover.keep_history self); simpl);
    try (destruct (Mover.Binary_of_None (Mover.driver self)); simpl);
    destruct (Mover.plain_insert command suffix); simpl;
    rewrite <- ?app_assoc, ?app_nil_r; eauto.
Qed.

End payloads.

(** The amended C6 at work: staging the empty byte string on a
    history-free instance writes a staged row. *)
Lemma restore_and_store_temp_payloads_witness :
  Mover.driver Examples.history_free = Examples.wrapping_driver
  /\ PostgreSQL.store_temp Examples.constant_digest Examples.history_free [] 7 1
       (Some [])
     = (Return tt,
        [Mover.insert_into "temp_store (zoid, prev_tid, md5, state)"
           "%s, %s, %s, %s"
           [Mover.Int 7; Mover.Int 1; Mover.Null; Mover.Blob []]
           [7] 0 "INSERT" PostgreSQL.store_temp_suffix]).
Proof.
  split; [reflexivity|].
  apply (proj1 (proj2 (proj2 (proj2 (proj2
           (restore_and_store_temp_payloads Examples.constant_digest
              Examples.wrapping_driver [] 7 1 "INSERT"
              PostgreSQL.store_temp_suffix)))))
           Examples.history_free [] eq_refl).
Defined.

(** C6 as stated fails for staging: a [None] payload staged on a
    history-preserving instance raises [TypeError], and no row, so no
    tombstone, reaches the batcher. *)
Lemma store_temp_none_counterexample :
  PostgreSQL.store_temp Examples.constant_digest Examples.history_preserving
    [] 7 1 None
  = (Raise (Exn TypeError "object of type 'NoneType' has no len()"), [])
  /\ Mover._generic_store_temp Examples.constant_digest Examples.history_preserving
       [] 7 1 None "INSERT" ""
     = (Raise (Exn TypeError "object of type 'NoneType' has no len()"),
        [Mover.delete_from "temp_store" [("zoid", 7)]]).
Proof. split; reflexivity. Qed.

(** ** Downloading a blob *)

Lemma select_blob_chunk_none oid tid d :
  (forall r, r ∈ blob_chunk d -> bc_zoid r = oid -> bc_tid r <> tid) ->
  select_blob_chunk oid tid d = [].
Proof.
  intros Hnone. unfold select_blob_chunk.
  assert (Hfilter : filter (fun r => bc_zoid r = oid /\ bc_tid r = tid)
                      (blob_chunk d) = []).
  { apply elem_of_nil_inv. intros r Hr.
    apply list_elem_of_filter in Hr as [[Hzoid Htid] Hr].
    exact (Hnone r Hr Hzoid Htid). }
  rewrite Hfilter. reflexivity.
Qed.

Lemma select_blob_chunk_single oid tid d r :
  filter (fun r => bc_zoid r = oid /\ bc_tid r = tid) (blob_chunk d) = [r] ->
  select_blob_chunk oid tid d = [bc_chunk r].
Proof. intros Hone. unfold select_blob_chunk. rewrite Hone. reflexivity. Qed.

Section download_blob.
Context (self : Mover.AbstractObjectMover) (cursor : database).
Context (oid tid : Z) (filename : string) (fs : gmap string bytes).

(** C9, amended: when the key has exactly one chunk row, whose large
    object exists, [download_blob] writes the content of the large
    object to the file and returns its length; when the key has no
    chunk row, it raises [AssertionError], which is not an I/O error,
    and leaves the files as they are. *)
Theorem download_blob_single_chunk :
  (forall r content,
      filter (fun r => bc_zoid r = oid /\ bc_tid r = tid) (blob_chunk cursor) = [r] ->
      largeobject cursor !! bc_chunk r = Some content ->
      PostgreSQL.download_blob self cursor oid tid filename fs
      = (Return (len content), <[filename := content]> fs)
      /\ (<[filename := content]> fs) !! filename = Some content)
  /\ ((forall r, r ∈ blob_chunk cursor -> bc_zoid r = oid -> bc_tid r <> tid) ->
      PostgreSQL.download_blob self cursor oid tid filename fs
      = (Raise (Exn AssertionError ""), fs)
      /\ AssertionError <> OSError).
Proof.
  unfold PostgreSQL.download_blob, execute_blob_chunk. split.
  - intros r content Hone Hcontent.
    rewrite (select_blob_chunk_single _ _ _ _ Hone), Hcontent.
    unfold PostgreSQL.getsize, PostgreSQL.filesystem.
    rewrite lookup_insert_eq. auto.
  - intros Hnone. rewrite (select_blob_chunk_none _ _ _ Hnone).
    split; [reflexivity | discriminate].
Qed.

End download_blob.

(** The amended C9 at work: the blob of object 4 at transaction 2 has
    four bytes. *)
Lemma download_blob_single_chunk_witness :
  filter (fun r => bc_zoid r = 4 /\ bc_tid r = 2) (blob_chunk Examples.committed)
    = [BlobChunkRow 4 2 0 100]
  /\ largeobject Examples.committed !! 100
     = Some [Byte.x62; Byte.x6c; Byte.x6f; Byte.x62]
  /\ PostgreSQL.download_blob Examples.history_preserving Examples.committed 4 2
       "blob" ∅
     = (Return 4, {[ "blob" := [Byte.x62; Byte.x6c; Byte.x6f; Byte.x62] ]}).
Proof.
  split; [reflexivity|]. split; [reflexivity|].
  apply (proj1 (download_blob_single_chunk Examples.history_preserving
                  Examples.committed 4 2 "blob" ∅)
               (BlobChunkRow 4 2 0 100) [Byte.x62; Byte.x6c; Byte.x6f; Byte.x62]
               eq_refl eq_refl).
Defined.

(** C9 as stated fails on a key without chunk row: the error raised
    is an [AssertionError], not the not-found error [POSKeyError], and
    the same [AssertionError] is raised for a key with two chunk
    rows. *)
Lemma download_blob_not_found_counterexample :
  select_blob_chunk 4 2 Examples.no_blobs = []
  /\ PostgreSQL.download_blob Examples.history_preserving Examples.no_blobs 4 2
       "blob" ∅
     = (Raise (Exn AssertionError ""), ∅)
  /\ AssertionError <> POSKeyError
  /\ PostgreSQL.download_blob Examples.history_preserving Examples.two_chunks 4 2
       "blob" ∅
     = (Raise (Exn AssertionError ""), ∅).
Proof. repeat split; try reflexivity. discriminate. Qed.

(** * Further properties *)

(** ** The commit lock, further *)

Section hold_commit_lock_outcomes.
Import Locker.
Context (self : AbstractLocker) (cursor : commit_cursor).

(** X1: a blocking request never answers [False]: it returns [True]
    or raises. *)
Theorem hold_commit_lock_blocking_never_false ensure_current :
  hold_commit_lock self cursor ensure_current false <> Return false.
Proof.
  unfold hold_commit_lock. rewrite lock_stmt_returns. simpl.
  destruct (try_lock cursor (MQuery (Text SelectCommitRowLock))) as [[]|e];
    [discriminate|].
  destruct (isinstance (illegal_operation_exceptions (driver self)) e);
    [discriminate|].
  destruct (isinstance (lock_exceptions (driver self)) e); discriminate.
Qed.

(** X2: the answer [True] means that the lock statement was executed
    without error and returned a first row that is not empty. *)
Theorem hold_commit_lock_true_has_row ensure_current nowait :
  hold_commit_lock self cursor ensure_current nowait = Return true ->
  exists stmt row rows,
    lock_stmt self nowait = Return stmt
    /\ cursor stmt = Fetched (row :: rows)
    /\ row <> [].
Proof.
  unfold hold_commit_lock. rewrite lock_stmt_returns. simpl.
  set (stmt := if nowait && _supports_row_lock_nowait self
               then MQuery (Plus (Text SelectCommitRowLock) " NOWAIT")
               else MQuery (Text SelectCommitRowLock)).
  intros Htrue. exists stmt.
  unfold try_lock in Htrue.
  destruct (cursor stmt) as [e|e|rows] eqn:Hanswer.
  - destruct (isinstance (illegal_operation_exceptions (driver self)) e);
      [discriminate|].
    destruct (isinstance (lock_exceptions (driver self)) e), nowait;
      discriminate.
  - destruct (isinstance (illegal_operation_exceptions (driver self)) e);
      [discriminate|].
    destruct (isinstance (lock_exceptions (driver self)) e), nowait;
      discriminate.
  - destruct rows as [|[|v row] rows]; simpl in Htrue.
    + destruct (isinstance (illegal_operation_exceptions (driver self))
                  no_row_returned); [discriminate|].
      destruct (isinstance (lock_exceptions (driver self)) no_row_returned),
        nowait; discriminate.
    + destruct (isinstance (illegal_operation_exceptions (driver self))
                  no_row_returned); [discriminate|].
      destruct (isinstance (lock_exceptions (driver self)) no_row_returned),
        nowait; discriminate.
    + exists (v :: row), rows.
      split; [reflexivity|]. split; [reflexivity|]. discriminate.
Qed.

(** X3: an exception of the backend that is in neither category of the
    driver leaves [hold_commit_lock] unchanged, in both modes. *)
Theorem hold_commit_lock_other_exception_propagates
    ensure_current nowait stmt e :
  lock_stmt self nowait = Return stmt ->
  backend_raises (cursor stmt) e ->
  isinstance (illegal_operation_exceptions (driver self)) e = false ->
  isinstance (lock_exceptions (driver self)) e = false ->
  hold_commit_lock self cursor ensure_current nowait = Raise e.
Proof.
  intros Hstmt Hraise Hlegal Hlock.
  rewrite (hold_commit_lock_handlers _ _ _ _ stmt e Hstmt
             (try_lock_raises _ _ _ Hraise)).
  rewrite Hlegal, Hlock. reflexivity.
Qed.

End hold_commit_lock_outcomes.

Lemma hold_commit_lock_true_has_row_witness :
  Locker.hold_commit_lock Examples.history_preserving_locker
    (Examples.answering [[Some 1]]) false true = Return true
  /\ exists stmt row rows,
      Locker.lock_stmt Examples.history_preserving_locker true = Return stmt
      /\ Examples.answering [[Some 1]] stmt = Locker.Fetched (row :: rows)
      /\ row <> [].
Proof.
  split; [reflexivity|].
  apply (hold_commit_lock_true_has_row Examples.history_preserving_locker
           (Examples.answering [[Some 1]]) false true).
  reflexivity.
Defined.

Lemma hold_commit_lock_other_exception_propagates_witness :
  Locker.lock_stmt Examples.history_preserving_locker false = Return Examples.wait_stmt
  /\ Locker.hold_commit_lock Examples.history_preserving_locker
       (fun _ => Locker.ExecuteRaises (Exn (DBAPIError "InterfaceError") "closed"))
       false false
     = Raise (Exn (DBAPIError "InterfaceError") "closed").
Proof.
  split; [reflexivity|].
  apply (hold_commit_lock_other_exception_propagates
           Examples.history_preserving_locker
           (fun _ => Locker.ExecuteRaises (Exn (DBAPIError "InterfaceError") "closed"))
           false false Examples.wait_stmt).
  - reflexivity.
  - left. reflexivity.
  - reflexivity.
  - reflexivity.
Defined.

(** ** Conflict detection under the primary keys *)

Lemma join_using_zoid_NoDup temp (cur : list (Z * Z)) :
  NoDup (ts_zoid <$> temp) -> NoDup cur.*1 ->
  NoDup ((fun p : temp_store_row * (Z * Z) => ts_zoid p.1)
           <$> join_using_zoid temp cur).
Proof.
  intros Htemp Hcur. apply NoDup_fmap_2_strong.
  - intros [ts c] [ts' c'] Hin Hin' Hz. simpl in Hz.
    apply elem_of_join_using_zoid in Hin as (Hts & Hc & Hzc).
    apply elem_of_join_using_zoid in Hin' as (Hts' & Hc' & Hzc').
    assert (ts = ts') by (eapply NoDup_fmap_injective; eauto). subst ts'.
    assert (c = c') by (eapply (NoDup_fmap_injective fst); eauto; congruence).
    subst. reflexivity.
  - unfold join_using_zoid. apply NoDup_bind.
    + intros ts ts' [ts0 c] _ _ Hin Hin'.
      apply list_elem_of_fmap in Hin as (? & Heq & _).
      apply list_elem_of_fmap in Hin' as (? & Heq' & _).
      congruence.
    + intros ts _. apply NoDup_fmap_2; [intros ? ? ?; congruence|].
      apply NoDup_filter. eapply NoDup_fmap_1. exact Hcur.
    + eapply NoDup_fmap_1. exact Htemp.
Qed.

Lemma detect_conflict_returns (self : Mover.AbstractObjectMover) (cursor : database) :
  Mover.detect_conflict self cursor
  = Return (select_conflicts (current_table (Mover.keep_history self)) cursor).
Proof.
  unfold Mover.detect_conflict, Mover._detect_conflict_query, _query_property,
    query_property, select_variant, current_table.
  destruct (Mover.keep_history self); reflexivity.
Qed.

(** X4: when [zoid] is a key of [temp_store] and of the table of
    current rows, as the schema declares, the records of
    [detect_conflict] come in strictly ascending order of the object
    identifier: no object is reported twice. *)
Theorem detect_conflict_one_record_per_object
    (self : Mover.AbstractObjectMover) (cursor : database) :
  NoDup (ts_zoid <$> temp_store cursor) ->
  NoDup (current_rows (current_table (Mover.keep_history self)) cursor).*1 ->
  exists rows,
    Mover.detect_conflict self cursor = Return rows
    /\ StronglySorted Z.lt rows.*1.*1.
Proof.
  intros Htemp Hcur.
  exists (select_conflicts (current_table (Mover.keep_history self)) cursor).
  split; [apply detect_conflict_returns|].
  apply sorted_le_NoDup_lt.
  - rewrite <- list_fmap_compose.
    apply (StronglySorted_fmap _ (key_le (fun r : Z * Z * Z => r.1.1)));
      [|apply order_by_sorted].
    intros x y Hle. exact Hle.
  - unfold select_conflicts.
    rewrite order_by_perm, <- !list_fmap_compose.
    eapply NoDup_fmap_2_strong.
    + intros p q Hp Hq Heq. simpl in Heq.
      apply list_elem_of_filter in Hp as [_ Hp].
      apply list_elem_of_filter in Hq as [_ Hq].
      pose proof (join_using_zoid_NoDup _ _ Htemp Hcur) as Hjoin.
      eapply (NoDup_fmap_injective _ _ p q Hjoin); eauto.
    + apply NoDup_filter. eapply NoDup_fmap_1.
      apply (join_using_zoid_NoDup _ _ Htemp Hcur).
Qed.

Lemma detect_conflict_one_record_per_object_witness :
  NoDup (ts_zoid <$> temp_store Examples.committed)
  /\ NoDup (current_rows (current_table (Mover.keep_history Examples.history_preserving))
              Examples.committed).*1
  /\ exists rows,
      Mover.detect_conflict Examples.history_preserving Examples.committed
      = Return rows
      /\ StronglySorted Z.lt rows.*1.*1.
Proof.
  assert (H1 : NoDup (ts_zoid <$> temp_store Examples.committed))
    by (apply (bool_decide_unpack _); vm_compute; reflexivity).
  assert (H2 : NoDup (current_rows
                        (current_table (Mover.keep_history Examples.history_preserving))
                        Examples.committed).*1)
    by (apply (bool_decide_unpack _); vm_compute; reflexivity).
  split; [exact H1|]. split; [exact H2|].
  exact (detect_conflict_one_record_per_object Examples.history_preserving
           Examples.committed H1 H2).
Defined.

(** ** Finalization and loading *)

Lemma filter_fmap {A B} (f : A -> B) (P : B -> Prop) `{!forall y, Decision (P y)}
    (l : list A) :
  filter P (f <$> l) = f <$> filter (fun x => P (f x)) l.
Proof.
  induction l as [|x l IH]; [reflexivity|].
  rewrite fmap_cons, !filter_cons, IH.
  destruct (decide (P (f x))); reflexivity.
Qed.

Lemma filter_none {A} (P : A -> Prop) `{!forall x, Decision (P x)} (l : list A) :
  (forall x, x ∈ l -> ~ P x) -> filter P l = [].
Proof.
  intros Hnone. apply elem_of_nil_inv. intros x Hx.
  apply list_elem_of_filter in Hx as [HP Hx]. exact (Hnone x Hx HP).
Qed.

Lemma filter_all {A} (P : A -> Prop) `{!forall x, Decision (P x)} (l : list A) :
  (forall x, x ∈ l -> P x) -> filter P l = l.
Proof.
  induction l as [|x l IH]; intros Hall; [reflexivity|].
  rewrite filter_cons, decide_True by (apply Hall; left).
  rewrite IH; [reflexivity|]. intros y Hy. apply Hall. right. assumption.
Qed.

(** A key finds its row, and only it. *)
Lemma filter_key {A} (key : A -> Z) (l : list A) (x : A) :
  NoDup (key <$> l) -> x ∈ l -> filter (fun y => key y = key x) l = [x].
Proof.
  induction l as [|a l IH]; intros Hnodup Hx.
  - apply elem_of_nil in Hx. contradiction.
  - simpl in Hnodup. apply NoDup_cons in Hnodup as [Ha Hnodup].
    rewrite filter_cons. apply elem_of_cons in Hx as [->|Hx].
    + rewrite decide_True by reflexivity. f_equal.
      apply filter_none. intros y Hy Heq. apply Ha. rewrite <- Heq.
      apply list_elem_of_fmap_2. assumption.
    + rewrite decide_False; [apply IH; assumption|].
      intros Heq. apply Ha. rewrite Heq. apply list_elem_of_fmap_2. assumption.
Qed.

Lemma NoDup_fmap_filter {A} (key : A -> Z) (P : A -> Prop)
    `{!forall x, Decision (P x)} (l : list A) :
  NoDup (key <$> l) -> NoDup (key <$> filter P l).
Proof.
  induction l as [|a l IH]; intros Hnodup; [constructor|].
  simpl in Hnodup. apply NoDup_cons in Hnodup as [Ha Hnodup].
  rewrite filter_cons. destruct (decide (P a)); [|auto].
  rewrite fmap_cons. apply NoDup_cons. split; [|auto].
  intros Hin. apply Ha.
  apply list_elem_of_fmap in Hin as (y & Heq & Hy).
  apply list_elem_of_filter in Hy as [_ Hy].
  rewrite Heq. apply list_elem_of_fmap_2. assumption.
Qed.

Lemma fetchone_constant {A} (rows : list A) (v : A) :
  (forall x, x ∈ rows -> x = v) -> rows <> [] -> Store.fetchone rows = Some v.
Proof.
  destruct rows as [|x rows]; intros Hall Hne; [contradiction|].
  simpl. f_equal. apply Hall. left.
Qed.

Lemma staged_sorted_NoDup (d : database) :
  NoDup (ts_zoid <$> temp_store d) ->
  NoDup (ts_zoid <$> order_by ts_zoid (temp_store d)).
Proof. intros Hnodup. rewrite order_by_perm. exact Hnodup. Qed.

(** The rows of [object_state] after [move_from_temp]. *)
Lemma move_from_temp_object_state_hf drv cursor tid txn_has_blobs :
  object_state (Store.tables (Store.move_from_temp (Mover.mover false drv)
                                cursor tid txn_has_blobs))
  = filter (fun r => os_zoid r ∉ Store.staged_zoids (Store.tables cursor))
           (object_state (Store.tables cursor))
    ++ ((fun ts => ObjectStateRow (ts_zoid ts) tid 0 None
                     (Store.state_length (ts_state ts)) (ts_state ts))
          <$> order_by ts_zoid (temp_store (Store.tables cursor))).
Proof. destruct txn_has_blobs; reflexivity. Qed.

Lemma move_from_temp_object_state_hp drv cursor tid txn_has_blobs :
  object_state (Store.tables (Store.move_from_temp (Mover.mover true drv)
                                cursor tid txn_has_blobs))
  = object_state (Store.tables cursor)
    ++ ((fun ts => ObjectStateRow (ts_zoid ts) tid (ts_prev_tid ts) (ts_md5 ts)
                     (Store.state_length (ts_state ts)) (ts_state ts))
          <$> order_by ts_zoid (temp_store (Store.tables cursor))).
Proof. destruct txn_has_blobs; reflexivity. Qed.

Lemma move_from_temp_current_object self cursor tid txn_has_blobs :
  current_object (Store.tables (Store.move_from_temp self cursor tid txn_has_blobs))
  = current_object (Store.tables cursor).
Proof. destruct self as [[] drv], txn_has_blobs; reflexivity. Qed.

Lemma move_from_temp_temp_store self cursor tid txn_has_blobs :
  temp_store (Store.tables (Store.move_from_temp self cursor tid txn_has_blobs))
  = temp_store (Store.tables cursor).
Proof. destruct self as [[] drv], txn_has_blobs; reflexivity. Qed.

Section finalize.
Context (binary_column_as_state_type : option bytes -> option bytes).
Context (drv : Mover.IDBDriver) (cursor : Store.store) (tid : Z).
Context (txn_has_blobs : bool).

(** X5: on a history-free instance, once [move_from_temp] has run,
    [load_current] returns for every staged object its staged state
    under the new transaction, whatever the table held for it before;
    an object that was not staged loads as before. *)
Theorem move_from_temp_load_current_history_free :
  NoDup (ts_zoid <$> temp_store (Store.tables cursor)) ->
  (forall ts,
      ts ∈ temp_store (Store.tables cursor) ->
      Store.load_current binary_column_as_state_type (Mover.mover false drv)
        (Store.tables (Store.move_from_temp (Mover.mover false drv)
                         cursor tid txn_has_blobs))
        (ts_zoid ts)
      = (binary_column_as_state_type (ts_state ts), Some tid))
  /\ (forall oid,
         oid ∉ ts_zoid <$> temp_store (Store.tables cursor) ->
         Store.load_current binary_column_as_state_type (Mover.mover false drv)
           (Store.tables (Store.move_from_temp (Mover.mover false drv)
                            cursor tid txn_has_blobs))
           oid
         = Store.load_current binary_column_as_state_type (Mover.mover false drv)
             (Store.tables cursor) oid).
Proof.
  intros Hkey. unfold Store.load_current, Store.select_load_current_hf. simpl.
  split.
  - intros ts Hts.
    rewrite move_from_temp_object_state_hf, filter_app, filter_fmap.
    rewrite (filter_none _ (filter _ _)).
    + simpl. rewrite (filter_key ts_zoid).
      * reflexivity.
      * apply staged_sorted_NoDup. exact Hkey.
      * apply elem_of_order_by. exact Hts.
    + intros r Hr Hz. apply list_elem_of_filter in Hr as [Hout _].
      apply Hout. rewrite Hz. unfold Store.staged_zoids.
      apply list_elem_of_fmap_2. exact Hts.
  - intros oid Hout.
    rewrite move_from_temp_object_state_hf, filter_app, filter_fmap.
    rewrite (filter_none _ (order_by _ _)).
    + rewrite app_nil_r, list_filter_filter.
      rewrite (filter_ext_in _ (fun r => os_zoid r = oid)); [reflexivity|].
      intros r _. split; [tauto|]. intros Hz. split; [exact Hz|].
      rewrite Hz. exact Hout.
    + intros ts Hts Hz. simpl in Hz. apply Hout. rewrite <- Hz.
      apply list_elem_of_fmap_2. apply elem_of_order_by in Hts. exact Hts.
Qed.

(** X6: on a history-free instance [move_from_temp] keeps
    [object_state] at one row per object: with [zoid] a key of the
    table and of [temp_store] before, it is a key of the table
    after. *)
Theorem move_from_temp_one_row_per_object :
  NoDup (os_zoid <$> object_state (Store.tables cursor)) ->
  NoDup (ts_zoid <$> temp_store (Store.tables cursor)) ->
  NoDup (os_zoid <$> object_state
           (Store.tables (Store.move_from_temp (Mover.mover false drv)
                            cursor tid txn_has_blobs))).
Proof.
  intros Hstate Hkey.
  rewrite move_from_temp_object_state_hf, fmap_app. apply NoDup_app.
  split; [|split].
  - apply NoDup_fmap_filter. exact Hstate.
  - intros z Hz Hz'.
    apply list_elem_of_fmap in Hz as (r & -> & Hr).
    apply list_elem_of_filter in Hr as [Hout _]. apply Hout.
    rewrite <- list_fmap_compose in Hz'.
    apply list_elem_of_fmap in Hz' as (ts & Heq & Hts). simpl in Heq.
    rewrite Heq. apply list_elem_of_fmap_2. apply elem_of_order_by in Hts.
    exact Hts.
  - rewrite <- list_fmap_compose. apply staged_sorted_NoDup. exact Hkey.
Qed.

(** X7: on a history-free instance, moving the same staged objects a
    second time, under another transaction, gives the tables that
    moving them once under that transaction gives. *)
Theorem move_from_temp_again_history_free tid' :
  Store.move_from_temp (Mover.mover false drv)
    (Store.move_from_temp (Mover.mover false drv) cursor tid false) tid' false
  = Store.move_from_temp (Mover.mover false drv) cursor tid' false.
Proof.
  unfold Store.move_from_temp. simpl. f_equal.
  unfold Store._move_from_temp_object_state, Store.move_from_temp_hf_insert,
    Store.move_from_temp_hf_delete, Store.with_object_state. simpl.
  f_equal. f_equal.
  rewrite filter_app, list_filter_filter.
  rewrite (filter_none _ (_ <$> _)).
  - rewrite app_nil_r. apply filter_ext_in. intros r _. tauto.
  - intros r Hr Hout. apply Hout.
    apply list_elem_of_fmap in Hr as (ts & -> & Hts). simpl.
    apply list_elem_of_fmap_2. apply elem_of_order_by in Hts. exact Hts.
Qed.

(** X8: on a history-preserving instance [move_from_temp] leaves every
    revision of another transaction as it was: [load_revision] at a
    transaction other than the new one answers as before. *)
Theorem move_from_temp_keeps_revisions oid tid' :
  tid' <> tid ->
  Store.load_revision binary_column_as_state_type
    (Store.tables (Store.move_from_temp (Mover.mover true drv)
                     cursor tid txn_has_blobs)) oid tid'
  = Store.load_revision binary_column_as_state_type (Store.tables cursor) oid tid'.
Proof.
  intros Hother. unfold Store.load_revision, Store.select_load_revision.
  rewrite move_from_temp_object_state_hp, filter_app.
  rewrite (filter_none _ (_ <$> _)).
  - rewrite app_nil_r. reflexivity.
  - intros r Hr [_ Htid].
    apply list_elem_of_fmap in Hr as (ts & -> & _). simpl in Htid. congruence.
Qed.

End finalize.

Lemma elem_of_select_load_current_hp oid d state tid :
  (state, tid) ∈ Store.select_load_current_hp oid d <->
  exists c r, c ∈ current_object d /\ r ∈ object_state d
              /\ co_zoid c = oid /\ os_zoid r = oid /\ os_tid r = co_tid c
              /\ state = os_state r /\ tid = os_tid r.
Proof.
  unfold Store.select_load_current_hp. rewrite list_elem_of_fmap. split.
  - intros ([c r] & Heq & Hin). simpl in Heq.
    apply list_elem_of_filter in Hin as [Hoid Hin]. simpl in Hoid.
    apply list_elem_of_bind in Hin as (c' & Hin & Hc').
    apply list_elem_of_fmap in Hin as (r' & Hpair & Hr').
    apply list_elem_of_filter in Hr' as [[Hz Ht] Hr'].
    inversion Hpair; subst c' r'. inversion Heq; subst.
    exists c, r. repeat split; auto; congruence.
  - intros (c & r & Hc & Hr & Hoid & Hz & Ht & -> & ->).
    exists (c, r). split; [reflexivity|].
    apply list_elem_of_filter. split; [exact Hoid|].
    apply list_elem_of_bind. exists c. split; [|exact Hc].
    apply list_elem_of_fmap. exists r. split; [reflexivity|].
    apply list_elem_of_filter. split; [split; congruence | exact Hr].
Qed.

Section finalize_history_preserving.
Context (binary_column_as_state_type : option bytes -> option bytes).
Context (drv : Mover.IDBDriver) (cursor : Store.store) (tid : Z).
Context (txn_has_blobs : bool).

(** X9: on a history-preserving instance, once [move_from_temp] and
    [update_current] have run for a transaction that has no state yet,
    [load_current] returns for a staged object its staged state under
    the new transaction, provided the object was staged with
    predecessor 0 exactly when it has no current row, and no object
    staged with predecessor 0 has one, so that the primary key of
    [current_object] admits the new rows. *)
Theorem finalize_load_current_history_preserving dict ts :
  entry_of true dict ->
  NoDup (ts_zoid <$> temp_store (Store.tables cursor)) ->
  (forall r, r ∈ object_state (Store.tables cursor) -> os_tid r <> tid) ->
  (forall ts', ts' ∈ temp_store (Store.tables cursor) -> ts_prev_tid ts' = 0 ->
               ts_zoid ts' ∉ co_zoid <$> current_object (Store.tables cursor)) ->
  ts ∈ temp_store (Store.tables cursor) ->
  (ts_prev_tid ts = 0 <->
   ts_zoid ts ∉ co_zoid <$> current_object (Store.tables cursor)) ->
  exists final,
    Mover.update_current (Mover.mover true drv) dict
      (Store.tables (Store.move_from_temp (Mover.mover true drv)
                       cursor tid txn_has_blobs)) tid
    = (Some Bound, (Return tt, final))
    /\ Store.load_current binary_column_as_state_type (Mover.mover true drv)
         final (ts_zoid ts)
       = (binary_column_as_state_type (ts_state ts), Some tid).
Proof.
  intros Hentry Hkey Hfresh Hcreated Hts Hprev.
  set (moved := Store.tables (Store.move_from_temp (Mover.mover true drv)
                                cursor tid txn_has_blobs)).
  assert (Hstate : forall r, r ∈ object_state moved <->
            r ∈ object_state (Store.tables cursor)
            \/ exists ts', ts' ∈ temp_store (Store.tables cursor)
                 /\ r = ObjectStateRow (ts_zoid ts') tid (ts_prev_tid ts')
                          (ts_md5 ts') (Store.state_length (ts_state ts'))
                          (ts_state ts')).
  { intros r. subst moved. rewrite move_from_temp_object_state_hp, elem_of_app.
    rewrite list_elem_of_fmap. split.
    - intros [Hold | (ts' & Heq & Hts')]; [left; exact Hold|].
      right. exists ts'.
      split; [apply elem_of_order_by in Hts'; exact Hts' | exact Heq].
    - intros [Hold | (ts' & Hts' & Heq)]; [left; exact Hold|].
      right. exists ts'. split; [exact Heq | apply elem_of_order_by; exact Hts']. }
  assert (Hcurrent : current_object moved = current_object (Store.tables cursor))
    by apply move_from_temp_current_object.
  (* the insert of the new pointers is accepted *)
  assert (Hselected : NoDup (zoids_at tid (Z.eqb 0) moved)).
  { unfold zoids_at. subst moved.
    rewrite move_from_temp_object_state_hp, filter_app.
    rewrite (filter_none _ (object_state (Store.tables cursor)))
      by (intros r Hr [Ht _]; exact (Hfresh r Hr Ht)).
    rewrite app_nil_l, filter_fmap, <- list_fmap_compose.
    apply (NoDup_fmap_filter ts_zoid). apply staged_sorted_NoDup. exact Hkey. }
  assert (Hadmitted : forall r, r ∈ object_state moved -> os_tid r = tid ->
            os_prev_tid r = 0 -> os_zoid r ∉ co_zoid <$> current_object moved).
  { intros r Hr Ht Hp. rewrite Hcurrent.
    apply Hstate in Hr as [Hold | (ts' & Hts' & ->)].
    - exfalso. exact (Hfresh r Hold Ht).
    - simpl in *. apply Hcreated; assumption. }
  destruct (update_current_meth_rows tid moved Hselected Hadmitted)
    as (final & Hcall & _ & Hos & _ & _ & Hrows).
  exists final. split.
  { unfold Mover.update_current. simpl.
    rewrite call_method_bound by exact Hentry. rewrite Hcall. reflexivity. }
  (* the staged object's own row among the moved ones *)
  set (mine := ObjectStateRow (ts_zoid ts) tid (ts_prev_tid ts) (ts_md5 ts)
                 (Store.state_length (ts_state ts)) (ts_state ts)).
  assert (Hmine : mine ∈ object_state moved) by (apply Hstate; right; eauto).
  assert (Honly : forall r, r ∈ object_state moved ->
            os_zoid r = ts_zoid ts -> os_tid r = tid -> r = mine).
  { intros r Hr Hz Ht. apply Hstate in Hr as [Hold | (ts' & Hts' & ->)].
    - exfalso. exact (Hfresh r Hold Ht).
    - simpl in Hz. assert (ts' = ts) by (eapply NoDup_fmap_injective; eauto).
      subst ts'. reflexivity. }
  unfold Store.load_current. simpl.
  apply (f_equal (fun o : option (option bytes * Z) =>
                    match o with
                    | Some (state, tid0) =>
                        (binary_column_as_state_type state, Some tid0)
                    | None => (None, None)
                    end)
           (y := Some (ts_state ts, tid))).
  assert (Hrepublished : forall c,
            c ∈ current_object final -> co_zoid c = ts_zoid ts -> co_tid c = tid).
  { intros c Hc Hz. rewrite Hrows in Hc.
    apply list_elem_of_fmap in Hc as (c0 & -> & Hc0).
    case_bool_decide as Hmod; [reflexivity|].
    apply elem_of_app in Hc0 as [Hold | Hnew].
    - exfalso. apply Hmod. apply elem_of_modified. exists mine.
      simpl in Hz. repeat split; auto; try (simpl; congruence).
      simpl. intros Hzero. apply Hprev in Hzero. apply Hzero.
      rewrite <- Hz. apply list_elem_of_fmap_2. rewrite <- Hcurrent. exact Hold.
    - apply list_elem_of_fmap in Hnew as (z & -> & _). reflexivity. }
  apply fetchone_constant.
  - intros [state tid0] Hrow.
    apply elem_of_select_load_current_hp in Hrow
      as (c & r & Hc & Hr & Hzc & Hzr & Htr & -> & ->).
    rewrite Hos in Hr.
    assert (co_tid c = tid) by (apply Hrepublished; assumption).
    assert (r = mine) by (apply Honly; [exact Hr | exact Hzr | congruence]).
    subst r. reflexivity.
  - assert (Hin : (ts_state ts, tid)
                    ∈ Store.select_load_current_hp (ts_zoid ts) final).
    { apply elem_of_select_load_current_hp.
      exists (CurrentObjectRow (ts_zoid ts) tid), mine.
      rewrite Hos, Hrows. repeat split; auto.
      destruct (decide (ts_prev_tid ts = 0)) as [Hzero | Hnonzero].
      - apply list_elem_of_fmap. exists (CurrentObjectRow (ts_zoid ts) tid).
        split; [simpl; case_bool_decide; reflexivity|].
        apply elem_of_app. right. apply list_elem_of_fmap.
        exists (ts_zoid ts). split; [reflexivity|].
        apply elem_of_zoids_at. exists mine. repeat split; auto.
        simpl. rewrite Hzero. reflexivity.
      - assert (Hhas : ts_zoid ts ∈ co_zoid <$> current_object (Store.tables cursor)).
        { destruct (decide (ts_zoid ts
                              ∈ co_zoid <$> current_object (Store.tables cursor)));
            [assumption|].
          exfalso. apply Hnonzero. apply Hprev. assumption. }
        apply list_elem_of_fmap in Hhas as (c0 & Hz0 & Hc0).
        apply list_elem_of_fmap. exists c0. split.
        + rewrite bool_decide_eq_true_2; [congruence|].
          apply elem_of_modified. exists mine. repeat split; auto.
        + apply elem_of_app. left. rewrite Hcurrent. exact Hc0. }
    intros Hnil. rewrite Hnil in Hin. apply elem_of_nil in Hin. exact Hin.
Qed.

End finalize_history_preserving.

Lemma move_from_temp_load_current_history_free_witness :
  NoDup (ts_zoid <$> temp_store (Store.tables Scenarios.session))
  /\ Scenarios.staged_nine ∈ temp_store (Store.tables Scenarios.session)
  /\ Store.load_current Scenarios.as_fetched Examples.history_free
       (Store.tables (Store.move_from_temp Examples.history_free
                        Scenarios.session 6 false))
       9
     = (Some [Byte.x42], Some 6).
Proof.
  assert (Hkey : NoDup (ts_zoid <$> temp_store (Store.tables Scenarios.session)))
    by (apply (bool_decide_unpack _); vm_compute; reflexivity).
  assert (Hts : Scenarios.staged_nine ∈ temp_store (Store.tables Scenarios.session))
    by left.
  split; [exact Hkey|]. split; [exact Hts|].
  exact (proj1 (move_from_temp_load_current_history_free Scenarios.as_fetched
                  Examples.wrapping_driver Scenarios.session 6 false Hkey)
               Scenarios.staged_nine Hts).
Defined.

Lemma move_from_temp_one_row_per_object_witness :
  NoDup (os_zoid <$> object_state (Store.tables Scenarios.session))
  /\ NoDup (ts_zoid <$> temp_store (Store.tables Scenarios.session))
  /\ NoDup (os_zoid <$> object_state
              (Store.tables (Store.move_from_temp Examples.history_free
                               Scenarios.session 6 true))).
Proof.
  assert (Hstate : NoDup (os_zoid <$> object_state (Store.tables Scenarios.session)))
    by (apply (bool_decide_unpack _); vm_compute; reflexivity).
  assert (Hkey : NoDup (ts_zoid <$> temp_store (Store.tables Scenarios.session)))
    by (apply (bool_decide_unpack _); vm_compute; reflexivity).
  split; [exact Hstate|]. split; [exact Hkey|].
  exact (move_from_temp_one_row_per_object Examples.wrapping_driver
           Scenarios.session 6 true Hstate Hkey).
Defined.

Lemma move_from_temp_keeps_revisions_witness :
  3 <> 6
  /\ Store.load_revision Scenarios.as_fetched
       (Store.tables (Store.move_from_temp Examples.history_preserving
                        Scenarios.session 6 false)) 9 3
     = Some [Byte.x45].
Proof.
  split; [discriminate|].
  transitivity (Store.load_revision Scenarios.as_fetched
                  (Store.tables Scenarios.session) 9 3); [|reflexivity].
  apply (move_from_temp_keeps_revisions Scenarios.as_fetched
           Examples.wrapping_driver Scenarios.session 6 false 9 3).
  discriminate.
Defined.

Lemma finalize_load_current_history_preserving_witness :
  entry_of true None
  /\ NoDup (ts_zoid <$> temp_store (Store.tables Scenarios.session))
  /\ Forall (fun r => os_tid r <> 6) (object_state (Store.tables Scenarios.session))
  /\ Forall (fun ts' => ts_prev_tid ts' = 0 ->
                        ts_zoid ts'
                          ∉ co_zoid <$> current_object (Store.tables Scenarios.session))
       (temp_store (Store.tables Scenarios.session))
  /\ Scenarios.staged_nine ∈ temp_store (Store.tables Scenarios.session)
  /\ (ts_prev_tid Scenarios.staged_nine = 0 <->
      ts_zoid Scenarios.staged_nine
        ∉ co_zoid <$> current_object (Store.tables Scenarios.session))
  /\ exists final,
      Mover.update_current Examples.history_preserving None
        (Store.tables (Store.move_from_temp Examples.history_preserving
                         Scenarios.session 6 false)) 6
      = (Some Bound, (Return tt, final))
      /\ Store.load_current Scenarios.as_fetched Examples.history_preserving
           final 9
         = (Some [Byte.x42], Some 6).
Proof.
  assert (Hkey : NoDup (ts_zoid <$> temp_store (Store.tables Scenarios.session)))
    by (apply (bool_decide_unpack _); vm_compute; reflexivity).
  assert (Hfresh : Forall (fun r => os_tid r <> 6)
                     (object_state (Store.tables Scenarios.session)))
    by (apply (bool_decide_unpack _); vm_compute; reflexivity).
  assert (Hcreated : Forall (fun ts' => ts_prev_tid ts' = 0 ->
                               ts_zoid ts'
                                 ∉ co_zoid
                                     <$> current_object
                                           (Store.tables Scenarios.session))
                       (temp_store (Store.tables Scenarios.session)))
    by (apply (bool_decide_unpack _); vm_compute; reflexivity).
  assert (Hts : Scenarios.staged_nine ∈ temp_store (Store.tables Scenarios.session))
    by left.
  assert (Hprev : ts_prev_tid Scenarios.staged_nine = 0 <->
                  ts_zoid Scenarios.staged_nine
                    ∉ co_zoid <$> current_object (Store.tables Scenarios.session))
    by (apply (bool_decide_unpack _); vm_compute; reflexivity).
  split; [left; reflexivity|].
  split; [exact Hkey|]. split; [exact Hfresh|]. split; [exact Hcreated|].
  split; [exact Hts|]. split; [exact Hprev|].
  exact (finalize_load_current_history_preserving Scenarios.as_fetched
           Examples.wrapping_driver Scenarios.session 6 false None
           Scenarios.staged_nine (or_introl eq_refl) Hkey
           (proj1 (Forall_forall _ _) Hfresh)
           (proj1 (Forall_forall _ _) Hcreated) Hts Hprev).
Defined.

(** ** Revisions before and after a transaction *)

Lemma order_by_head {A} (key : A -> Z) (rows : list A) :
  match order_by key rows with
  | [] => rows = []
  | x :: _ => x ∈ rows /\ forall y, y ∈ rows -> key x <= key y
  end.
Proof.
  pose proof (order_by_perm key rows) as Hperm.
  pose proof (order_by_sorted key rows) as Hsorted.
  destruct (order_by key rows) as [|x sorted].
  - apply Permutation_nil. exact Hperm.
  - split.
    + rewrite <- Hperm. left.
    + intros y Hy. rewrite <- Hperm in Hy.
      apply StronglySorted_cons in Hsorted as [Hall _].
      apply elem_of_cons in Hy as [-> | Hy].
      * unfold key_le. lia.
      * rewrite Forall_forall in Hall. exact (Hall y Hy).
Qed.

Section load_before.
Context (binary_column_as_state_type : option bytes -> option bytes).
Context (cursor : database) (oid tid : Z).

(** X10: [load_before] returns the revision of the object with the
    greatest transaction below [tid]: the transaction returned is below
    [tid], belongs to a row of the object whose state is returned, and
    no row of the object lies between it and [tid]; it returns
    [(None, None)] exactly when the object has no row below [tid]. *)
Theorem load_before_latest :
  match Store.load_before binary_column_as_state_type cursor oid tid with
  | (state, Some tid') =>
      tid' < tid
      /\ (exists r, r ∈ object_state cursor /\ os_zoid r = oid /\ os_tid r = tid'
                    /\ state = binary_column_as_state_type (os_state r))
      /\ (forall r, r ∈ object_state cursor -> os_zoid r = oid -> os_tid r < tid ->
                    os_tid r <= tid')
  | (state, None) =>
      state = None
      /\ (forall r, r ∈ object_state cursor -> os_zoid r = oid -> tid <= os_tid r)
  end.
Proof.
  unfold Store.load_before, Store.select_load_before.
  pose proof (order_by_head (fun r => - os_tid r)
                (filter (fun r => os_zoid r = oid /\ os_tid r < tid)
                        (object_state cursor))) as Hhead.
  destruct (order_by _ _) as [|x sorted]; simpl.
  - split; [reflexivity|]. intros r Hr Hz.
    destruct (decide (os_tid r < tid)) as [Hlt|]; [|lia].
    exfalso. eapply (filter_nil_not_elem_of _ _ r Hhead); eauto.
  - destruct Hhead as [Hx Hmin].
    apply list_elem_of_filter in Hx as [[Hz Hlt] Hx].
    split; [exact Hlt|]. split; [eauto 6|].
    intros r Hr Hzr Hltr.
    assert (Hin : r ∈ filter (fun r => os_zoid r = oid /\ os_tid r < tid)
                        (object_state cursor))
      by (apply list_elem_of_filter; auto).
    specialize (Hmin r Hin). simpl in Hmin. lia.
Qed.

(** X11: [get_object_tid_after] returns the least transaction above
    [tid] at which the object has a row, and [None] exactly when it has
    none above [tid]. *)
Theorem get_object_tid_after_next :
  match Store.get_object_tid_after cursor oid tid with
  | Some tid' =>
      tid < tid'
      /\ (exists r, r ∈ object_state cursor /\ os_zoid r = oid /\ os_tid r = tid')
      /\ (forall r, r ∈ object_state cursor -> os_zoid r = oid -> tid < os_tid r ->
                    tid' <= os_tid r)
  | None =>
      forall r, r ∈ object_state cursor -> os_zoid r = oid -> os_tid r <= tid
  end.
Proof.
  unfold Store.get_object_tid_after, Store.select_tid_after.
  pose proof (order_by_head os_tid
                (filter (fun r => os_zoid r = oid /\ os_tid r > tid)
                        (object_state cursor))) as Hhead.
  destruct (order_by _ _) as [|x sorted]; simpl.
  - intros r Hr Hz.
    destruct (decide (os_tid r > tid)) as [Hgt|]; [|lia].
    exfalso. eapply (filter_nil_not_elem_of _ _ r Hhead); eauto.
  - destruct Hhead as [Hx Hmin].
    apply list_elem_of_filter in Hx as [[Hz Hgt] Hx].
    split; [lia|]. split; [eauto|].
    intros r Hr Hzr Hgtr.
    assert (Hin : r ∈ filter (fun r => os_zoid r = oid /\ os_tid r > tid)
                        (object_state cursor))
      by (apply list_elem_of_filter; split; [split; [assumption | lia] | assumption]).
    exact (Hmin r Hin).
Qed.

End load_before.

(** ** Existence and loading agree *)

Lemma nonempty_elem_of {A} (l : list A) : l <> [] <-> exists x, x ∈ l.
Proof.
  destruct l as [|x l]; split.
  - contradiction.
  - intros [x Hx]. apply elem_of_nil in Hx. contradiction.
  - intros _. exists x. left.
  - discriminate.
Qed.

Lemma fetchone_is_Some {A} (l : list A) :
  is_Some (Store.fetchone l) <-> exists x, x ∈ l.
Proof.
  rewrite <- nonempty_elem_of. destruct l; simpl; split; intros H;
    try discriminate; eauto; try contradiction.
  destruct H; discriminate.
Qed.

Section exists_load.
Context (binary_column_as_state_type : option bytes -> option bytes).
Context (self : Mover.AbstractObjectMover) (cursor : database) (oid : Z).

Lemma exists_is_Some :
  is_Some (Store.exists_ self cursor oid)
  <-> oid ∈ (current_rows (current_table (Mover.keep_history self)) cursor).*1.
Proof.
  unfold Store.exists_, Store.select_exists. rewrite fetchone_is_Some. split.
  - intros (x & Hx). apply list_elem_of_fmap in Hx as (z & _ & Hz).
    apply list_elem_of_filter in Hz as [-> Hz]. exact Hz.
  - intros Hin. exists 1. apply list_elem_of_fmap. exists oid.
    split; [reflexivity|]. apply list_elem_of_filter. auto.
Qed.

Lemma load_current_is_Some :
  is_Some (Store.load_current binary_column_as_state_type self cursor oid).2
  <-> exists row,
      row ∈ (if Mover.keep_history self
             then Store.select_load_current_hp oid cursor
             else Store.select_load_current_hf oid cursor).
Proof.
  rewrite <- fetchone_is_Some. unfold Store.load_current.
  destruct (Store.fetchone _) as [[state t]|]; simpl; split; intros H;
    eauto; destruct H; discriminate.
Qed.

(** X12: [exists] finds a row exactly when [load_current] finds a
    transaction, provided that, when history is kept, every row of
    [current_object] refers to a row of [object_state], as its foreign
    key demands. *)
Theorem exists_iff_load_current :
  (Mover.keep_history self = true ->
   forall c, c ∈ current_object cursor ->
             exists r, r ∈ object_state cursor
                       /\ os_zoid r = co_zoid c /\ os_tid r = co_tid c) ->
  is_Some (Store.exists_ self cursor oid)
  <-> is_Some (Store.load_current binary_column_as_state_type self cursor oid).2.
Proof.
  intros Hfk. rewrite exists_is_Some, load_current_is_Some.
  unfold current_table, current_rows.
  destruct (Mover.keep_history self) eqn:Hmode.
  - specialize (Hfk eq_refl). split.
    + intros Hin. apply list_elem_of_fmap in Hin as (p & -> & Hp).
      apply list_elem_of_fmap in Hp as (c & -> & Hc).
      destruct (Hfk c Hc) as (r & Hr & Hzr & Htr).
      exists (os_state r, os_tid r).
      apply elem_of_select_load_current_hp. exists c, r. simpl. auto 10.
    + intros ([state t] & Hin).
      apply elem_of_select_load_current_hp in Hin as (c & r & Hc & _ & Hzc & _).
      apply list_elem_of_fmap. exists (co_zoid c, co_tid c).
      split; [simpl; congruence|].
      apply list_elem_of_fmap. exists c. auto.
  - unfold Store.select_load_current_hf. split.
    + intros Hin. apply list_elem_of_fmap in Hin as (p & -> & Hp).
      apply list_elem_of_fmap in Hp as (r & -> & Hr).
      exists (os_state r, os_tid r). apply list_elem_of_fmap.
      exists r. split; [reflexivity|]. apply list_elem_of_filter. auto.
    + intros (row & Hin). apply list_elem_of_fmap in Hin as (r & _ & Hr).
      apply list_elem_of_filter in Hr as [<- Hr].
      apply list_elem_of_fmap. exists (os_zoid r, os_tid r).
      split; [reflexivity|]. apply list_elem_of_fmap. exists r. auto.
Qed.

End exists_load.

(** ** Resolving a conflict *)

Section replace_temp.
Context (md5_hexdigest : bytes -> string) (self : Mover.AbstractObjectMover).
Context (cursor : database) (oid tid : Z) (data : option bytes).

(** X13: when [replace_temp] puts the transaction of the object's
    current row in place of the staged predecessor, [detect_conflict]
    reports afterwards exactly the records it reported before for the
    other objects, and none for this one. *)
Theorem replace_temp_resolves_conflict cursor' :
  (forall t, (oid, t) ∈ current_rows (current_table (Mover.keep_history self)) cursor ->
             t = tid) ->
  Store.replace_temp md5_hexdigest self cursor oid tid data = (Return tt, cursor') ->
  exists before after,
    Mover.detect_conflict self cursor = Return before
    /\ Mover.detect_conflict self cursor' = Return after
    /\ forall z t p, (z, t, p) ∈ after <-> (z, t, p) ∈ before /\ z <> oid.
Proof.
  intros Hcurrent Hcall.
  eexists _, _. split; [apply detect_conflict_returns|].
  split; [apply detect_conflict_returns|].
  unfold Store.replace_temp in Hcall.
  destruct (Mover._compute_md5sum _ _ _ _) as [md5sum|e]; [|discriminate].
  destruct (match data with Some _ => _ | None => _ end) as [state|e];
    [|discriminate].
  injection Hcall as <-.
  set (t := current_table (Mover.keep_history self)).
  assert (Hrows : current_rows t
                    (Store.update_temp_store tid md5sum (Store.bound_state state)
                       oid cursor)
                  = current_rows t cursor) by (destruct t; reflexivity).
  intros z ct p. rewrite !elem_of_select_conflicts, Hrows. fold t in Hcurrent.
  unfold Store.update_temp_store. simpl. split.
  - intros ((ts' & Hts' & Hz & Hp) & Hc & Hne).
    apply list_elem_of_fmap in Hts' as (ts & -> & Hts).
    case_bool_decide as Hoid; simpl in Hz, Hp.
    + exfalso. subst z p. rewrite Hoid in Hc. apply Hne. symmetry.
      exact (Hcurrent ct Hc).
    + split; [|congruence]. eauto 6.
  - intros (((ts & Hts & Hz & Hp) & Hc & Hne) & Hother).
    split; [|auto]. exists ts. split; [|auto].
    apply list_elem_of_fmap. exists ts. split; [|exact Hts].
    rewrite bool_decide_eq_false_2 by congruence. reflexivity.
Qed.

End replace_temp.

Lemma replace_temp_resolves_conflict_witness :
  Forall (fun row : Z * Z => row.1 = 9 -> row.2 = 3)
    (current_rows (current_table (Mover.keep_history Examples.history_preserving))
       Examples.committed)
  /\ exists cursor' after,
      Store.replace_temp Examples.constant_digest Examples.history_preserving
        Examples.committed 9 3 (Some [Byte.x42])
      = (Return tt, cursor')
      /\ Mover.detect_conflict Examples.history_preserving cursor' = Return after
      /\ forall z t p, (z, t, p) ∈ after <-> (z, t, p) ∈ [(9, 3, 5)] /\ z <> 9.
Proof.
  assert (Hcurrent : Forall (fun row : Z * Z => row.1 = 9 -> row.2 = 3)
            (current_rows
               (current_table (Mover.keep_history Examples.history_preserving))
               Examples.committed))
    by (apply (bool_decide_unpack _); vm_compute; reflexivity).
  split; [exact Hcurrent|].
  destruct (replace_temp_resolves_conflict Examples.constant_digest
              Examples.history_preserving Examples.committed 9 3
              (Some [Byte.x42])
              (Store.replace_temp Examples.constant_digest
                 Examples.history_preserving Examples.committed 9 3
                 (Some [Byte.x42])).2
              (fun t Ht => proj1 (Forall_forall _ _) Hcurrent (9, t) Ht eq_refl)
              eq_refl)
    as (before & after & Hbefore & Hafter & Hiff).
  eexists _, after. split; [reflexivity|]. split; [exact Hafter|].
  vm_compute in Hbefore. injection Hbefore as <-. exact Hiff.
Defined.

(** ** Uploading and downloading a blob *)

Lemma order_by_singleton {A} (key : A -> Z) (x : A) : order_by key [x] = [x].
Proof. reflexivity. Qed.

Section upload_blob.
Context (self : Mover.AbstractObjectMover) (cursor : Store.store).
Context (oid tid : Z) (source : string) (fs : gmap string bytes) (new_loid : Z).

(** The rows of [blob_chunk] after an upload under a transaction. *)
Lemma upload_blob_rows content :
  fs !! source = Some content ->
  exists kept,
    Store.upload_blob self cursor oid (Some tid) source fs new_loid
    = (Return tt,
       {| Store.tables :=
            Store.with_blob_chunk (kept ++ [BlobChunkRow oid tid 0 new_loid])
              (Store.with_largeobject
                 (<[new_loid := content]> (largeobject (Store.tables cursor)))
                 (Store.tables cursor));
          Store.temp_blob_chunk := Store.temp_blob_chunk cursor |})
    /\ (forall r, r ∈ kept -> r ∈ blob_chunk (Store.tables cursor)
                              /\ ~ (bc_zoid r = oid /\ bc_tid r = tid))
    /\ (forall r, r ∈ blob_chunk (Store.tables cursor) -> bc_zoid r <> oid ->
                  r ∈ kept).
Proof.
  intros Hfile. unfold Store.upload_blob. rewrite Hfile.
  destruct (Mover.keep_history self); eexists; (split; [reflexivity|]); split;
    intros r Hr; simpl in *.
  - apply list_elem_of_filter in Hr as [? ?]. auto.
  - intros Hother. apply list_elem_of_filter. split; [tauto | assumption].
  - apply list_elem_of_filter in Hr as [? ?]. split; [assumption | tauto].
  - intros Hother. apply list_elem_of_filter. auto.
Qed.

(** X14: a blob uploaded from a file under a transaction is what
    [download_blob] writes for the same key, and the byte count it
    returns is the length of the file, in both modes and whatever rows
    the key had before. *)
Theorem upload_blob_download_blob dest content :
  fs !! source = Some content ->
  exists cursor',
    Store.upload_blob self cursor oid (Some tid) source fs new_loid
    = (Return tt, cursor')
    /\ PostgreSQL.download_blob self (Store.tables cursor') oid tid dest fs
       = (Return (len content), <[dest := content]> fs).
Proof.
  intros Hfile.
  destruct (upload_blob_rows content Hfile) as (kept & Hcall & Hkept & _).
  eexists. split; [exact Hcall|].
  unfold PostgreSQL.download_blob, execute_blob_chunk, select_blob_chunk. simpl.
  rewrite filter_app, (filter_none _ kept).
  - simpl. rewrite filter_cons, decide_True by auto.
    rewrite filter_nil, order_by_singleton. simpl.
    rewrite lookup_insert_eq.
    unfold PostgreSQL.getsize, PostgreSQL.filesystem.
    rewrite lookup_insert_eq. reflexivity.
  - intros r Hr. apply Hkept in Hr as [_ Hr]. exact Hr.
Qed.

(** X15: after an upload under a transaction the key has exactly one
    chunk row, numbered 0; the rows of every other object and the large
    objects that existed stay as they were, given that the server picks
    an identifier that is not in use. *)
Theorem upload_blob_single_chunk content :
  fs !! source = Some content ->
  largeobject (Store.tables cursor) !! new_loid = None ->
  exists cursor',
    Store.upload_blob self cursor oid (Some tid) source fs new_loid
    = (Return tt, cursor')
    /\ filter (fun r => bc_zoid r = oid /\ bc_tid r = tid)
              (blob_chunk (Store.tables cursor'))
       = [BlobChunkRow oid tid 0 new_loid]
    /\ (forall r, bc_zoid r <> oid ->
                  r ∈ blob_chunk (Store.tables cursor')
                  <-> r ∈ blob_chunk (Store.tables cursor))
    /\ (forall loid blob, largeobject (Store.tables cursor) !! loid = Some blob ->
                          largeobject (Store.tables cursor') !! loid = Some blob)
    /\ Store.temp_blob_chunk cursor' = Store.temp_blob_chunk cursor.
Proof.
  intros Hfile Hfresh.
  destruct (upload_blob_rows content Hfile) as (kept & Hcall & Hkept & Hother).
  eexists. split; [exact Hcall|]. simpl. split; [|split; [|split]].
  - rewrite filter_app, (filter_none _ kept).
    + simpl. rewrite filter_cons, decide_True by auto. reflexivity.
    + intros r Hr. apply Hkept in Hr as [_ Hr]. exact Hr.
  - intros r Hr. rewrite elem_of_app, list_elem_of_singleton. split.
    + intros [Hin | ->]; [apply Hkept; exact Hin | contradiction].
    + intros Hin. left. apply Hother; assumption.
  - intros loid blob Hblob.
    rewrite lookup_insert_ne; [exact Hblob | congruence].
  - reflexivity.
Qed.

(** X16: an upload from a file that does not exist raises, and by then
    the chunk rows of the key are deleted. *)
Theorem upload_blob_missing_file :
  fs !! source = None ->
  exists e cursor',
    Store.upload_blob self cursor oid (Some tid) source fs new_loid
    = (Raise e, cursor')
    /\ filter (fun r => bc_zoid r = oid /\ bc_tid r = tid)
              (blob_chunk (Store.tables cursor')) = []
    /\ largeobject (Store.tables cursor') = largeobject (Store.tables cursor).
Proof.
  intros Hfile. unfold Store.upload_blob. rewrite Hfile.
  eexists _, _. split; [reflexivity|]. simpl. split.
  - destruct (Mover.keep_history self); simpl; apply filter_none;
      intros r Hr; apply list_elem_of_filter in Hr as [? ?]; tauto.
  - destruct (Mover.keep_history self); reflexivity.
Qed.

End upload_blob.

Lemma upload_blob_download_blob_witness :
  Scenarios.files !! "blob.tmp"
    = Some [Byte.x68; Byte.x65; Byte.x6c; Byte.x6c; Byte.x6f]
  /\ exists cursor',
      Store.upload_blob Examples.history_free Scenarios.session 4 (Some 10)
        "blob.tmp" Scenarios.files 200
      = (Return tt, cursor')
      /\ PostgreSQL.download_blob Examples.history_free (Store.tables cursor')
           4 10 "copy" Scenarios.files
         = (Return 5,
            <["copy" := [Byte.x68; Byte.x65; Byte.x6c; Byte.x6c; Byte.x6f]]>
              Scenarios.files).
Proof.
  split; [reflexivity|].
  exact (upload_blob_download_blob Examples.history_free Scenarios.session 4 10
           "blob.tmp" Scenarios.files 200 "copy"
           [Byte.x68; Byte.x65; Byte.x6c; Byte.x6c; Byte.x6f] eq_refl).
Defined.

Lemma upload_blob_single_chunk_witness :
  Scenarios.files !! "blob.tmp"
    = Some [Byte.x68; Byte.x65; Byte.x6c; Byte.x6c; Byte.x6f]
  /\ largeobject (Store.tables Scenarios.session) !! 200 = None
  /\ exists cursor',
      Store.upload_blob Examples.history_preserving Scenarios.session 4 (Some 2)
        "blob.tmp" Scenarios.files 200
      = (Return tt, cursor')
      /\ filter (fun r => bc_zoid r = 4 /\ bc_tid r = 2)
                (blob_chunk (Store.tables cursor'))
         = [BlobChunkRow 4 2 0 200].
Proof.
  split; [reflexivity|]. split; [reflexivity|].
  destruct (upload_blob_single_chunk Examples.history_preserving Scenarios.session
              4 2 "blob.tmp" Scenarios.files 200
              [Byte.x68; Byte.x65; Byte.x6c; Byte.x6c; Byte.x6f] eq_refl eq_refl)
    as (cursor' & Hcall & Hone & _).
  exists cursor'. split; [exact Hcall | exact Hone].
Defined.

Lemma upload_blob_missing_file_witness :
  Scenarios.files !! "absent" = None
  /\ exists e cursor',
      Store.upload_blob Examples.history_preserving Scenarios.session 4 (Some 2)
        "absent" Scenarios.files 200
      = (Raise e, cursor')
      /\ filter (fun r => bc_zoid r = 4 /\ bc_tid r = 2)
                (blob_chunk (Store.tables cursor')) = [].
Proof.
  split; [reflexivity|].
  destruct (upload_blob_missing_file Examples.history_preserving Scenarios.session
              4 2 "absent" Scenarios.files 200 eq_refl)
    as (e & cursor' & Hcall & Hgone & _).
  exists e, cursor'. split; [exact Hcall | exact Hgone].
Defined.

(** ** Statements run when a connection opens *)

(** X17: [on_store_opened] never raises an [Unsupported]; when the
    statements that cannot be read all raise [Unsupported], it executes
    the ones that can be read, in order, and returns.  On a restart it
    executes nothing. *)
Theorem on_store_opened_skips_unsupported statements cursor :
  (forall e cursor',
      Store.on_store_opened statements cursor false = (Raise e, cursor') ->
      exn_class e <> Unsupported)
  /\ ((forall e, Raise e ∈ statements -> exn_class e = Unsupported) ->
      Store.on_store_opened statements cursor false
      = (Return tt, cursor ++ Store.readable statements))
  /\ Store.on_store_opened statements cursor true = (Return tt, cursor).
Proof.
  unfold Store.on_store_opened. split; [|split; [|reflexivity]].
  - revert cursor. induction statements as [|[prep|e0] rest IH];
      intros cursor e cursor' Hcall; simpl in Hcall.
    + discriminate.
    + eapply IH. exact Hcall.
    + case_bool_decide as Hclass.
      * eapply IH. exact Hcall.
      * injection Hcall as <- <-. exact Hclass.
  - revert cursor. induction statements as [|[prep|e0] rest IH];
      intros cursor Hall; simpl.
    + rewrite app_nil_r. reflexivity.
    + rewrite IH by (intros e He; apply Hall; right; exact He).
      unfold Store.readable. simpl. rewrite <- app_assoc. reflexivity.
    + rewrite bool_decide_eq_true_2 by (apply Hall; left).
      rewrite IH by (intros e He; apply Hall; right; exact He). reflexivity.
Qed.

Lemma on_store_opened_skips_unsupported_witness :
  Store.on_store_opened Scenarios.opening [] false
  = (Return tt,
     [(MQuery (Text (DetectConflict current_object_t)), []);
      (MQuery (Text SelectCommitRowLock), [])]).
Proof.
  apply (proj1 (proj2 (on_store_opened_skips_unsupported Scenarios.opening []))).
  intros e He.
  apply elem_of_cons in He as [He | He]; [discriminate|].
  apply elem_of_cons in He as [He | He];
    [vm_compute in He; injection He as ->; reflexivity|].
  apply elem_of_cons in He as [He | He]; [discriminate|].
  apply elem_of_nil in He. contradiction.
Defined.

(** ** Repeated calls of a decorated method *)

Section call_sequence.
Context {S A R : Type} (meth : A -> S -> result R * S) (none : R).
Context (keep_history : bool).

Lemma call_method_installed dict a s :
  entry_of keep_history dict ->
  call_method meth none keep_history dict a s
  = (Some (installed keep_history),
     if keep_history then meth a s else (Return none, s)).
Proof.
  unfold call_method, swizzler, entry_of.
  intros [-> | ->]; destruct keep_history; reflexivity.
Qed.

(** X18: a method decorated with [noop_when_history_free], called any
    number of times on an instance, gives the outcomes and the final
    state of the method guarded by [if not self.keep_history: return],
    and after the first call the instance dictionary holds the
    replacement the swizzler installs. *)
Theorem call_sequence_is_branch dict args s :
  entry_of keep_history dict ->
  (Calls.call_sequence meth none keep_history dict args s).2
  = Calls.branch_sequence meth none keep_history args s
  /\ (Calls.call_sequence meth none keep_history dict args s).1
     = match args with
       | [] => dict
       | _ :: _ => Some (installed keep_history)
       end.
Proof.
  revert dict s. induction args as [|a args IH]; intros dict s Hentry.
  - simpl. auto.
  - simpl. rewrite (call_method_installed dict a s Hentry).
    destruct (if keep_history then meth a s else (Return none, s)) as [out s'].
    destruct (IH (Some (installed keep_history)) s' (or_intror eq_refl))
      as (Hout & Hdict).
    destruct (Calls.call_sequence meth none keep_history
                (Some (installed keep_history)) args s') as [dict' [outs s'']].
    simpl in *. rewrite <- Hout. split; [reflexivity|].
    rewrite Hdict. destruct args; reflexivity.
Qed.

End call_sequence.

Lemma call_sequence_is_branch_witness :
  entry_of false None
  /\ Calls.call_sequence
       (fun (a : Z) (s : list Z) => (Return (Some a), s ++ [a])) None false
       None [1; 2; 3] []
     = (Some NoOp, ([Return None; Return None; Return None], [])).
Proof.
  split; [left; reflexivity|].
  pose proof (call_sequence_is_branch
                (fun (a : Z) (s : list Z) => (Return (Some a), s ++ [a])) None false
                None [1; 2; 3] [] (or_introl eq_refl)) as [Hout Hdict].
  destruct (Calls.call_sequence _ _ _ _ _ _) as [dict outs].
  simpl in Hout, Hdict. rewrite Hout, Hdict. reflexivity.
Defined.

Lemma exists_iff_load_current_witness :
  Forall (fun c => Exists (fun r => os_zoid r = co_zoid c /\ os_tid r = co_tid c)
                     (object_state Examples.committed))
    (current_object Examples.committed)
  /\ (is_Some (Store.exists_ Examples.history_preserving Examples.committed 9)
      <-> is_Some (Store.load_current Scenarios.as_fetched
                     Examples.history_preserving Examples.committed 9).2).
Proof.
  assert (Hfk : Forall (fun c => Exists (fun r => os_zoid r = co_zoid c
                                               /\ os_tid r = co_tid c)
                                   (object_state Examples.committed))
                  (current_object Examples.committed))
    by (apply (bool_decide_unpack _); vm_compute; reflexivity).
  split; [exact Hfk|].
  apply (exists_iff_load_current Scenarios.as_fetched Examples.history_preserving
           Examples.committed 9).
  intros _ c Hc.
  apply (proj1 (Forall_forall _ _) Hfk), Exists_exists in Hc. exact Hc.
Defined.

Lemma on_load_opened_loop_app pre rest cursor :
  Store.on_load_opened_loop ((Return <$> pre) ++ rest) cursor
  = Store.on_load_opened_loop rest (cursor ++ ((fun prep => (prep, [])) <$> pre)).
Proof.
  revert cursor. induction pre as [|prep pre IH]; intros cursor; simpl.
  - rewrite app_nil_r. reflexivity.
  - rewrite IH, <- app_assoc. reflexivity.
Qed.

(** X19: [on_load_opened] has no [try]: it executes the statements up
    to the first one that cannot be read and raises what reading that
    one raised, also an [Unsupported], the one [on_store_opened] passes
    over; when all can be read, both execute the same statements. *)
Theorem on_load_opened_stops_at_first_raise pre e post cursor :
  Store.on_load_opened ((Return <$> pre) ++ Raise e :: post) cursor false
  = (Raise e, cursor ++ ((fun prep => (prep, [])) <$> pre))
  /\ Store.on_load_opened (Return <$> pre) cursor false
     = Store.on_store_opened (Return <$> pre) cursor false.
Proof.
  unfold Store.on_load_opened, Store.on_store_opened. simpl. split.
  - rewrite on_load_opened_loop_app. reflexivity.
  - revert cursor. induction pre as [|prep pre IH]; intros cursor; simpl.
    + reflexivity.
    + apply IH.
Qed.

(** ** The binary stream of staged objects *)

Lemma to_N_byte_of z : Strings.Byte.to_N (Struct.byte_of z) = Z.to_N (z mod 256).
Proof.
  unfold Struct.byte_of.
  destruct (Strings.Byte.of_N (Z.to_N (z mod 256))) as [b|] eqn:Hb.
  - simpl. apply Strings.Byte.to_of_N. exact Hb.
  - apply Strings.Byte.of_N_None_iff in Hb.
    pose proof (Z.mod_pos_bound z 256). lia.
Qed.

Lemma byte_of_mod a b : Struct.byte_of a = Struct.byte_of b -> a mod 256 = b mod 256.
Proof.
  intros Heq. apply (f_equal Strings.Byte.to_N) in Heq.
  rewrite !to_N_byte_of in Heq.
  pose proof (Z.mod_pos_bound a 256). pose proof (Z.mod_pos_bound b 256). lia.
Qed.

Lemma length_big_endian width z : length (Struct.big_endian width z) = width.
Proof.
  revert z. induction width as [|w IH]; intros z; simpl; [reflexivity|].
  rewrite length_app, IH. simpl. lia.
Qed.

Lemma big_endian_mod width a b :
  Struct.big_endian width a = Struct.big_endian width b ->
  a mod 256 ^ Z.of_nat width = b mod 256 ^ Z.of_nat width.
Proof.
  revert a b. induction width as [|w IH]; intros a b Heq.
  - simpl. rewrite !Z.mod_1_r. reflexivity.
  - simpl in Heq. apply app_inj_2 in Heq as [Hhigh Hlow]; [|reflexivity].
    injection Hlow as Hlow. apply byte_of_mod in Hlow. apply IH in Hhigh.
    rewrite Nat2Z.inj_succ, Z.pow_succ_r by lia.
    rewrite !(Z.rem_mul_r _ 256) by lia. congruence.
Qed.

Lemma big_endian_inj width a b :
  Struct.in_range (S width) a -> Struct.in_range (S width) b ->
  Struct.big_endian (S width) a = Struct.big_endian (S width) b -> a = b.
Proof.
  unfold Struct.in_range. intros Ha Hb Heq. apply big_endian_mod in Heq.
  assert (Hpow : 256 ^ Z.of_nat (S width) = 2 * 2 ^ (8 * Z.of_nat (S width) - 1)).
  { rewrite <- Z.pow_succ_r by lia. change 256 with (2 ^ 8).
    rewrite <- Z.pow_mul_r by lia. f_equal. lia. }
  rewrite Hpow in Heq.
  set (half := 2 ^ (8 * Z.of_nat (S width) - 1)) in *.
  assert (0 < half) by (apply Z.pow_pos_nonneg; lia).
  pose proof (Z.div_mod a (2 * half) ltac:(lia)) as Hdiv_a.
  pose proof (Z.div_mod b (2 * half) ltac:(lia)) as Hdiv_b.
  rewrite Heq in Hdiv_a.
  generalize dependent (a / (2 * half)). generalize dependent (b / (2 * half)).
  generalize dependent (b mod (2 * half)). intros r _ qb Hdiv_b qa Hdiv_a.
  assert (qa = qb) by nia. congruence.
Qed.

Section tuples.
Context (digester : option (bytes -> string)).

Lemma _read_tuple_inv data oid_int tid_int tuple :
  TempStoreCopy._read_tuple digester (data, oid_int, tid_int) = inr tuple ->
  exists fields,
    tuple = Struct.layout fields ++ data
    /\ Forall Struct.fits fields
    /\ match digester with
       | Some digester =>
           exists md5,
             fields = TempStoreCopy.WITH_SUM oid_int tid_int md5 (len data)
       | None => fields = TempStoreCopy.NO_SUM oid_int tid_int (len data)
       end.
Proof.
  unfold TempStoreCopy._read_tuple, Struct.pack. destruct digester as [d|].
  - destruct (TempStoreCopy.encode_ascii (d data)) as [md5|]; [|discriminate].
    case_decide as Hfits; [|discriminate].
    intros Heq. exists (TempStoreCopy.WITH_SUM oid_int tid_int md5 (len data)).
    split; [congruence|]. split; [exact Hfits|]. exists md5. reflexivity.
  - case_decide as Hfits; [|discriminate].
    intros Heq. exists (TempStoreCopy.NO_SUM oid_int tid_int (len data)).
    split; [congruence|]. auto.
Qed.

Lemma length_layout_of f : length (Struct.layout_of f) = Struct.size_of f.
Proof.
  destruct f; cbn [Struct.layout_of Struct.size_of];
    try apply length_big_endian.
  rewrite length_take, length_app, length_replicate. lia.
Qed.

Lemma length_layout fields :
  length (Struct.layout fields) = sum_list (Struct.size_of <$> fields).
Proof.
  unfold Struct.layout. induction fields as [|f fields IH]; [reflexivity|].
  rewrite bind_cons, length_app, length_layout_of, IH. reflexivity.
Qed.

Lemma _read_tuple_length it tuple :
  TempStoreCopy._read_tuple digester it = inr tuple ->
  length tuple = (TempStoreCopy._header_size digester + length it.1.1)%nat.
Proof.
  destruct it as [[data oid_int] tid_int]. intros Hcall.
  apply _read_tuple_inv in Hcall as (fields & -> & _ & Hfields).
  rewrite length_app, length_layout.
  destruct digester; [destruct Hfields as (md5 & ->)|subst]; reflexivity.
Qed.

(** X20: the tuple that [_read_tuple] appends for an element has 66
    bytes before the data with a digester and 34 without, and it
    determines the element: two elements with the same tuple have the
    same data, object identifier and transaction identifier. *)
Theorem _read_tuple_determines_element it1 it2 tuple :
  TempStoreCopy._read_tuple digester it1 = inr tuple ->
  TempStoreCopy._read_tuple digester it2 = inr tuple ->
  it1 = it2
  /\ length tuple = (TempStoreCopy._header_size digester + length it1.1.1)%nat
  /\ drop (TempStoreCopy._header_size digester) tuple = it1.1.1
  /\ TempStoreCopy._header_size digester = if digester is Some _ then 66%nat else 34%nat.
Proof.
  intros H1 H2.
  pose proof (_read_tuple_length _ _ H1) as Hlen1.
  pose proof (_read_tuple_length _ _ H2) as Hlen2.
  destruct it1 as [[d1 o1] t1], it2 as [[d2 o2] t2]. simpl in *.
  apply _read_tuple_inv in H1 as (f1 & Ht1 & Hfits1 & Hf1).
  apply _read_tuple_inv in H2 as (f2 & Ht2 & Hfits2 & Hf2).
  assert (Hsize : length (Struct.layout f1) = TempStoreCopy._header_size digester
                  /\ length (Struct.layout f2)
                     = TempStoreCopy._header_size digester).
  { rewrite !length_layout.
    destruct digester; [destruct Hf1 as (? & ->), Hf2 as (? & ->)|subst];
      split; reflexivity. }
  destruct Hsize as [Hsize1 Hsize2].
  assert (Hsplit : Struct.layout f1 = Struct.layout f2 /\ d1 = d2).
  { apply app_inj_1; [congruence|]. congruence. }
  destruct Hsplit as [Hlayout <-].
  split; [|split; [exact Hlen1|split]].
  - assert (Hids : Struct.big_endian 8 o1 = Struct.big_endian 8 o2
                   /\ Struct.big_endian 8 t1 = Struct.big_endian 8 t2
                   /\ Struct.in_range 8 o1 /\ Struct.in_range 8 o2
                   /\ Struct.in_range 8 t1 /\ Struct.in_range 8 t2).
    { destruct digester; [destruct Hf1 as (m1 & ->), Hf2 as (m2 & ->)|subst];
        unfold Struct.layout, TempStoreCopy.WITH_SUM, TempStoreCopy.NO_SUM
          in Hlayout, Hfits1, Hfits2;
        rewrite !bind_cons in Hlayout; cbn [Struct.layout_of] in Hlayout;
        (apply app_inj_1 in Hlayout as [_ Hlayout];
           [|rewrite !length_big_endian; reflexivity]);
        (apply app_inj_1 in Hlayout as [_ Hlayout];
           [|rewrite !length_big_endian; reflexivity]);
        (apply app_inj_1 in Hlayout as [Hoid Hlayout];
           [|rewrite !length_big_endian; reflexivity]);
        (apply app_inj_1 in Hlayout as [_ Hlayout];
           [|rewrite !length_big_endian; reflexivity]);
        (apply app_inj_1 in Hlayout as [Htid _];
           [|rewrite !length_big_endian; reflexivity]);
        repeat match goal with
               | H : Forall _ (_ :: _) |- _ =>
                   apply Forall_cons in H; destruct H as [? H]
               end;
        simpl in *; auto 10. }
    destruct Hids as (Hoid & Htid & ? & ? & ? & ?).
    apply big_endian_inj in Hoid; [|assumption..].
    apply big_endian_inj in Htid; [|assumption..].
    congruence.
  - rewrite Ht1, <- Hsize1, drop_app_length. reflexivity.
  - destruct digester; reflexivity.
Qed.

End tuples.

Section stream.
Context (digester : option (bytes -> string)).

Lemma fill_delivers requested iter : forall buf records,
  TempStoreCopy._read_tuple digester <$> iter = inr <$> records ->
  exists added iter' done records',
    TempStoreCopy.fill digester requested buf iter
    = inr (buf ++ added, iter', done)
    /\ TempStoreCopy._read_tuple digester <$> iter' = inr <$> records'
    /\ added ++ (if done then [] else concat records' ++ TempStoreCopy.TRAILER)
       = concat records ++ TempStoreCopy.TRAILER
    /\ ((length buf < requested)%nat ->
        added <> [] /\ (done = true \/ (length iter' < length iter)%nat))
    /\ (length iter' <= length iter)%nat.
Proof.
  induction iter as [|it iter IH]; intros buf records Htuples; simpl.
  - symmetry in Htuples. apply fmap_nil_inv in Htuples as ->.
    case_decide as Hshort.
    + exists TempStoreCopy.TRAILER, [], true, [].
      split; [reflexivity|]. split; [reflexivity|].
      split; [rewrite app_nil_r; reflexivity|].
      split; [intros _; split; [discriminate | auto]|]. simpl. lia.
    + exists [], [], false, []. rewrite app_nil_r.
      split; [reflexivity|]. split; [reflexivity|].
      split; [reflexivity|]. split; [intros; lia|]. simpl. lia.
  - destruct records as [|tuple records]; [discriminate|].
    rewrite !fmap_cons in Htuples. injection Htuples as Htuple Htuples.
    case_decide as Hshort.
    + rewrite Htuple.
      destruct (IH (buf ++ tuple) records Htuples)
        as (added & iter' & done & records' & Hfill & Hleft & Hbytes & _ & Hiter).
      exists (tuple ++ added), iter', done, records'.
      split; [rewrite Hfill, <- app_assoc; reflexivity|].
      split; [exact Hleft|].
      split; [simpl; rewrite <- !app_assoc, Hbytes; reflexivity|].
      split; [|lia]. intros _. split; [|right; lia].
      apply _read_tuple_length in Htuple. intros Hnil.
      apply app_eq_nil in Hnil as [-> _]. simpl in Htuple.
      destruct digester; simpl in Htuple; lia.
    + exists [], (it :: iter), false, (tuple :: records). rewrite app_nil_r.
      split; [reflexivity|].
      split; [rewrite !fmap_cons, Htuple, Htuples; reflexivity|].
      split; [reflexivity|]. split; [intros; lia|]. simpl. lia.
Qed.

(** One call of [readinto] with a buffer that is not empty, on an
    instance that is not done. *)
Lemma readinto_delivers self buf records :
  TempStoreCopy._digester self = digester ->
  TempStoreCopy._done self = false ->
  buf <> [] ->
  TempStoreCopy._read_tuple digester <$> TempStoreCopy._iter self
  = inr <$> records ->
  exists chunk self' records',
    TempStoreCopy.readinto self buf = inr (length chunk, chunk, self')
    /\ chunk <> []
    /\ TempStoreCopy._digester self' = digester
    /\ TempStoreCopy._buffer self' = TempStoreCopy._buffer self
    /\ TempStoreCopy._read_tuple digester <$> TempStoreCopy._iter self'
       = inr <$> records'
    /\ chunk ++ TempStoreCopy.pending self' records'
       = TempStoreCopy.pending self records
    /\ (TempStoreCopy.calls_left self' < TempStoreCopy.calls_left self)%nat.
Proof.
  intros Hdigester Hdone Hbuf Htuples.
  destruct (fill_delivers (length buf) (TempStoreCopy._iter self)
              (TempStoreCopy._header self) records Htuples)
    as (added & iter' & done & records' & Hfill & Hleft & Hbytes & Hshort & Hiter).
  unfold TempStoreCopy.readinto. rewrite Hdone, Hdigester, Hfill.
  eexists _, _, records'. split; [reflexivity|].
  unfold TempStoreCopy.pending, TempStoreCopy.calls_left. rewrite Hdone. simpl.
  assert (Hlen : (0 < length buf)%nat) by (destruct buf; simpl; [congruence|lia]).
  split; [|split; [reflexivity|split; [reflexivity|split; [exact Hleft|split]]]].
  - intros Hnil. apply app_eq_nil in Hnil as [Hheader ->].
    rewrite Hheader in Hshort. simpl in Hshort.
    destruct (Hshort Hlen) as [? _]. congruence.
  - rewrite <- app_assoc, <- Hbytes. destruct done; reflexivity.
  - destruct done; [case_decide; lia|].
    case_decide as Hheader; [|lia]. rewrite Hheader in Hshort.
    destruct (Hshort Hlen) as [_ [? | ?]]; [discriminate | lia].
Qed.

Lemma readinto_until_0_delivers requests : forall self records,
  TempStoreCopy._digester self = digester ->
  TempStoreCopy._read_tuple digester <$> TempStoreCopy._iter self
  = inr <$> records ->
  Forall (fun requested => (0 < requested)%nat) requests ->
  (TempStoreCopy.calls_left self <= length requests)%nat ->
  exists chunks self',
    TempStoreCopy.readinto_until_0 self requests = inr (chunks, self')
    /\ concat chunks = TempStoreCopy.pending self records
    /\ Forall (fun chunk => chunk <> []) chunks
    /\ TempStoreCopy._done self' = true.
Proof.
  induction requests as [|requested requests IH];
    intros self records Hdigester Htuples Hpos Hcalls.
  - exists [], self. unfold TempStoreCopy.calls_left, TempStoreCopy.pending in *.
    destruct (TempStoreCopy._done self); simpl in *; [auto | lia].
  - destruct (TempStoreCopy._done self) eqn:Hdone.
    + exists [], self. unfold TempStoreCopy.pending. simpl.
      unfold TempStoreCopy.readinto. rewrite Hdone. simpl. auto.
    + apply Forall_cons in Hpos as [Hrequested Hpos].
      destruct (readinto_delivers self (replicate requested Byte.x00) records
                  Hdigester Hdone) as
        (chunk & self' & records' & Hcall & Hne & Hdigester' & _ & Htuples'
         & Hbytes & Hless); [destruct requested; [lia | discriminate]|exact Htuples|].
      destruct (IH self' records' Hdigester' Htuples' Hpos)
        as (chunks & self'' & Hrest & Hconcat & Hall & Hfinal);
        [simpl in Hcalls; lia|].
      exists (chunk :: chunks), self''. simpl. rewrite Hcall.
      rewrite decide_False by (destruct chunk; [congruence | discriminate]).
      rewrite Hrest, firstn_all. simpl. rewrite Hconcat.
      split; [reflexivity|]. split; [exact Hbytes|]. split; [|exact Hfinal].
      constructor; assumption.
Qed.

Lemma read_until_empty_delivers sizes : forall self records,
  TempStoreCopy._digester self = digester ->
  TempStoreCopy._read_tuple digester <$> TempStoreCopy._iter self
  = inr <$> records ->
  TempStoreCopy._buffer self <> [] ->
  (TempStoreCopy.calls_left self <= length sizes)%nat ->
  exists chunks self',
    TempStoreCopy.read_until_empty self sizes = inr (chunks, self')
    /\ concat chunks = TempStoreCopy.pending self records
    /\ Forall (fun chunk => chunk <> []) chunks
    /\ TempStoreCopy._done self' = true.
Proof.
  induction sizes as [|size sizes IH];
    intros self records Hdigester Htuples Hbuffer Hcalls.
  - exists [], self. unfold TempStoreCopy.calls_left, TempStoreCopy.pending in *.
    destruct (TempStoreCopy._done self); simpl in *; [auto | lia].
  - destruct (TempStoreCopy._done self) eqn:Hdone.
    + exists [], self. unfold TempStoreCopy.pending. simpl.
      unfold TempStoreCopy.read. rewrite Hdone. simpl. auto.
    + simpl. unfold TempStoreCopy.read. rewrite Hdone.
      set (buffer := if decide (len (TempStoreCopy._buffer self) < size)
                     then _ else _).
      assert (Hbuffer' : buffer <> []).
      { subst buffer. case_decide; [|exact Hbuffer].
        intros Hnil. apply app_eq_nil in Hnil as [? _]. auto. }
      destruct (readinto_delivers (TempStoreCopy.with_buffer buffer self) buffer
                  records Hdigester Hdone Hbuffer' Htuples) as
        (chunk & self' & records' & Hcall & Hne & Hdigester' & _ & Htuples'
         & Hbytes & Hless).
      rewrite Hcall.
      repeat (rewrite decide_False
                by (first [exact Hne
                          | destruct chunk; [congruence | discriminate]])).
      destruct (IH (TempStoreCopy.with_buffer chunk self') records'
                  Hdigester' Htuples' Hne)
        as (chunks & self'' & Hrest & Hconcat & Hall & Hfinal).
      { change (TempStoreCopy.calls_left (TempStoreCopy.with_buffer chunk self'))
          with (TempStoreCopy.calls_left self').
        change (TempStoreCopy.calls_left (TempStoreCopy.with_buffer buffer self))
          with (TempStoreCopy.calls_left self) in Hless.
        simpl in Hcalls. lia. }
      exists (chunk :: chunks), self''. rewrite Hrest. simpl. rewrite Hconcat.
      split; [reflexivity|]. split; [exact Hbytes|]. split; [|exact Hfinal].
      constructor; assumption.
Qed.

(** X21: a reader that calls [readinto] with buffers that are not
    empty, until a call returns 0, receives the header, the tuples of
    all elements in order and the trailer: no call before the last
    delivers nothing, and [len(iterable) + 2] calls are enough. *)
Theorem readinto_delivers_stream state_oid_tid_iterable records requests :
  TempStoreCopy._read_tuple digester <$> state_oid_tid_iterable
  = inr <$> records ->
  Forall (fun requested => (0 < requested)%nat) requests ->
  (length state_oid_tid_iterable + 2 <= length requests)%nat ->
  exists chunks self,
    TempStoreCopy.readinto_until_0
      (TempStoreCopy.__init__ state_oid_tid_iterable digester) requests
    = inr (chunks, self)
    /\ concat chunks
       = TempStoreCopy.HEADER ++ concat records ++ TempStoreCopy.TRAILER
    /\ Forall (fun chunk => chunk <> []) chunks
    /\ TempStoreCopy._done self = true.
Proof.
  intros Htuples Hpos Hcalls.
  apply (readinto_until_0_delivers requests
           (TempStoreCopy.__init__ state_oid_tid_iterable digester) records);
    [reflexivity | exact Htuples | exact Hpos |].
  unfold TempStoreCopy.calls_left. simpl. lia.
Qed.

(** X22: a reader that calls [read] until it returns no bytes receives
    the same stream, whatever sizes it asks for, the default [-1]
    included. *)
Theorem read_delivers_stream state_oid_tid_iterable records sizes :
  TempStoreCopy._read_tuple digester <$> state_oid_tid_iterable
  = inr <$> records ->
  (length state_oid_tid_iterable + 2 <= length sizes)%nat ->
  exists chunks self,
    TempStoreCopy.read_until_empty
      (TempStoreCopy.__init__ state_oid_tid_iterable digester) sizes
    = inr (chunks, self)
    /\ concat chunks
       = TempStoreCopy.HEADER ++ concat records ++ TempStoreCopy.TRAILER
    /\ Forall (fun chunk => chunk <> []) chunks
    /\ TempStoreCopy._done self = true.
Proof.
  intros Htuples Hcalls.
  apply (read_until_empty_delivers sizes
           (TempStoreCopy.__init__ state_oid_tid_iterable digester) records);
    [reflexivity | exact Htuples | |].
  - simpl. discriminate.
  - unfold TempStoreCopy.calls_left. simpl. lia.
Qed.

End stream.

Lemma _read_tuple_determines_element_witness :
  TempStoreCopy._read_tuple None ([Byte.x42], 9, 5)
  = inr (Struct.layout (TempStoreCopy.NO_SUM 9 5 1) ++ [Byte.x42])
  /\ length (Struct.layout (TempStoreCopy.NO_SUM 9 5 1) ++ [Byte.x42]) = 35%nat.
Proof.
  split; [reflexivity|].
  exact (proj1 (proj2 (_read_tuple_determines_element None
                         ([Byte.x42], 9, 5) ([Byte.x42], 9, 5) _
                         eq_refl eq_refl))).
Defined.

Lemma readinto_delivers_stream_witness :
  TempStoreCopy._read_tuple None <$> Copied.objects = inr <$> Copied.records
  /\ Forall (fun requested => (0 < requested)%nat) [10; 40; 1; 64]%nat
  /\ exists chunks self,
      TempStoreCopy.readinto_until_0
        (TempStoreCopy.__init__ Copied.objects None) [10; 40; 1; 64]%nat
      = inr (chunks, self)
      /\ concat chunks
         = TempStoreCopy.HEADER ++ concat Copied.records ++ TempStoreCopy.TRAILER.
Proof.
  assert (Hpos : Forall (fun requested => (0 < requested)%nat)
                   [10; 40; 1; 64]%nat)
    by (repeat constructor).
  split; [reflexivity|]. split; [exact Hpos|].
  destruct (readinto_delivers_stream None Copied.objects Copied.records
              [10; 40; 1; 64]%nat eq_refl Hpos (le_n 4))
    as (chunks & self & Hcall & Hconcat & _).
  exists chunks, self. split; [exact Hcall | exact Hconcat].
Defined.

Lemma read_delivers_stream_witness :
  TempStoreCopy._read_tuple None <$> Copied.objects = inr <$> Copied.records
  /\ exists chunks self,
      TempStoreCopy.read_until_empty
        (TempStoreCopy.__init__ Copied.objects None) [-1; 16; 8192; -1]
      = inr (chunks, self)
      /\ concat chunks
         = TempStoreCopy.HEADER ++ concat Copied.records ++ TempStoreCopy.TRAILER.
Proof.
  split; [reflexivity|].
  destruct (read_delivers_stream None Copied.objects Copied.records
              [-1; 16; 8192; -1] eq_refl (le_n 4))
    as (chunks & self & Hcall & Hconcat & _).
  exists chunks, self. split; [exact Hcall | exact Hconcat].
Defined.

(** ** Republishing against the primary key *)

(** X24: on a history-preserving instance of the base class,
    [update_current] raises what the [INSERT] raises and leaves the
    database as it was, the [UPDATE] not being executed, when an object
    recorded at [tid] with previous transaction 0 has a row in
    [current_object] already. *)
Theorem update_current_rejects_existing_pointer
    (drv : Mover.IDBDriver) (cursor : database) (tid : Z) dict r :
  entry_of true dict ->
  r ∈ object_state cursor -> os_tid r = tid -> os_prev_tid r = 0 ->
  os_zoid r ∈ co_zoid <$> current_object cursor ->
  Mover.update_current (Mover.mover true drv) dict cursor tid
  = (Some Bound, (Raise IntegrityError, cursor)).
Proof.
  intros Hentry Hr Ht Hp Hhas. unfold Mover.update_current. simpl.
  rewrite call_method_bound by exact Hentry.
  unfold Mover.update_current_meth, Mover.update_current_body,
    Mover._update_current_insert_query.
  cbn [execute_update_current].
  rewrite (update_current_insert_rejected tid cursor r Hr Ht Hp Hhas).
  reflexivity.
Qed.

Lemma update_current_rejects_existing_pointer_witness :
  ObjectStateRow 4 6 0 None 1 (Some [Byte.x44])
    ∈ object_state (Store.tables (Store.move_from_temp Examples.history_preserving
                                    Scenarios.clashing 6 false))
  /\ 4 ∈ co_zoid <$> current_object
                       (Store.tables (Store.move_from_temp Examples.history_preserving
                                        Scenarios.clashing 6 false))
  /\ Mover.update_current Examples.history_preserving None
       (Store.tables (Store.move_from_temp Examples.history_preserving
                        Scenarios.clashing 6 false)) 6
     = (Some Bound,
        (Raise IntegrityError,
         Store.tables (Store.move_from_temp Examples.history_preserving
                         Scenarios.clashing 6 false))).
Proof.
  assert (Hr : ObjectStateRow 4 6 0 None 1 (Some [Byte.x44])
                 ∈ object_state
                     (Store.tables (Store.move_from_temp Examples.history_preserving
                                      Scenarios.clashing 6 false))).
  { vm_compute. do 3 (apply elem_of_cons; right). apply elem_of_cons. left.
    reflexivity. }
  assert (Hhas : 4 ∈ co_zoid <$> current_object
                   (Store.tables (Store.move_from_temp Examples.history_preserving
                                    Scenarios.clashing 6 false)))
    by (apply (bool_decide_unpack _); vm_compute; reflexivity).
  split; [exact Hr|]. split; [exact Hhas|].
  exact (update_current_rejects_existing_pointer Examples.wrapping_driver
           (Store.tables (Store.move_from_temp Examples.history_preserving
                            Scenarios.clashing 6 false))
           6 None _ (or_introl eq_refl) Hr eq_refl eq_refl Hhas).
Defined.

(** ** Prepared statements *)

Lemma append_cons c (a b : string) : String c a +:+ b = String c (a +:+ b).
Proof. reflexivity. Qed.

Lemma append_empty (b : string) : "" +:+ b = b.
Proof. reflexivity. Qed.

Lemma append_assoc (a b c : string) : (a +:+ b) +:+ c = a +:+ (b +:+ c).
Proof.
  induction a as [|x a IH]; rewrite ?append_cons, ?append_empty; congruence.
Qed.

Lemma count_cons_other c rest :
  (c = "%"%char -> forall rest', rest <> String "s" rest') ->
  Prepared.count (String c rest) = Prepared.count rest
  /\ forall new, Prepared.replace (String c rest) new
                 = String c (Prepared.replace rest new).
Proof.
  intros Hother. destruct rest as [|c' rest']; [split; reflexivity|].
  cbn [Prepared.count Prepared.replace]. case_decide as Hmatch.
  - destruct Hmatch as [-> ->]. exfalso. exact (Hother eq_refl rest' eq_refl).
  - split; reflexivity.
Qed.

Lemma passed_over_empty : Prepared.passed_over "".
Proof. intros rest new. split; reflexivity. Qed.

Lemma passed_over_cons c prefix :
  c <> "%"%char -> Prepared.passed_over prefix ->
  Prepared.passed_over (String c prefix).
Proof.
  intros Hc Hprefix rest new. rewrite !append_cons.
  destruct (count_cons_other c (prefix +:+ rest)) as [Hcount Hreplace];
    [congruence|].
  rewrite Hcount, Hreplace. destruct (Hprefix rest new) as [-> ->].
  split; reflexivity.
Qed.

Lemma passed_over_app a b :
  Prepared.passed_over a -> Prepared.passed_over b ->
  Prepared.passed_over (a +:+ b).
Proof.
  intros Ha Hb rest new. rewrite append_assoc.
  destruct (Ha (b +:+ rest) new) as [-> ->].
  destruct (Hb rest new) as [-> ->]. rewrite append_assoc. split; reflexivity.
Qed.

Lemma passed_over_digits d : Prepared.passed_over (NilEmpty.string_of_uint d).
Proof.
  induction d; simpl;
    [apply passed_over_empty | apply passed_over_cons; [discriminate | assumption]..].
Qed.

Lemma passed_over_parameter k : Prepared.passed_over ("$" +:+ Prepared.str k).
Proof.
  apply (passed_over_cons "$"); [discriminate|].
  unfold Prepared.str, NilZero.string_of_uint.
  destruct (Nat.to_uint k) eqn:Hk; try apply passed_over_digits.
  apply (passed_over_cons "0"); [discriminate | apply passed_over_empty].
Qed.

(** A part without a placeholder is passed over when what follows does
    not begin with [s]. *)
Lemma part_passed_over part rest new :
  Prepared.count part = O ->
  (forall rest', rest <> String "s" rest') ->
  Prepared.count (part +:+ rest) = Prepared.count rest
  /\ Prepared.replace (part +:+ rest) new = part +:+ Prepared.replace rest new.
Proof.
  intros Hpart Hrest. induction part as [|c part IH]; [split; reflexivity|].
  rewrite !append_cons.
  destruct (count_cons_other c (part +:+ rest)) as [Hcount Hreplace].
  { intros -> rest' Heq. destruct part as [|c' part'].
    - rewrite append_empty in Heq. exact (Hrest rest' Heq).
    - rewrite append_cons in Heq. injection Heq as -> _.
      cbn [Prepared.count] in Hpart.
      rewrite decide_True in Hpart by auto. discriminate. }
  rewrite Hcount, Hreplace.
  assert (Hpart' : Prepared.count part = O).
  { destruct part as [|c' part']; [reflexivity|].
    cbn [Prepared.count] in Hpart. case_decide; [discriminate | exact Hpart]. }
  destruct (IH Hpart') as [-> ->]. split; reflexivity.
Qed.

Lemma passed_over_numbered prefix part k :
  Prepared.passed_over prefix -> Prepared.count part = O ->
  Prepared.passed_over (prefix +:+ part +:+ "$" +:+ Prepared.str k).
Proof.
  intros Hprefix Hpart rest new.
  rewrite (append_assoc prefix), (append_assoc part).
  destruct (Hprefix (part +:+ ("$" +:+ Prepared.str k) +:+ rest) new) as [-> ->].
  destruct (part_passed_over part (("$" +:+ Prepared.str k) +:+ rest) new Hpart)
    as [-> ->]; [discriminate|].
  destruct (passed_over_parameter k rest new) as [-> ->].
  rewrite (append_assoc prefix), (append_assoc part). split; reflexivity.
Qed.

Lemma count_placeholders parts last :
  Forall (fun part => Prepared.count part = O) parts ->
  Prepared.count last = O ->
  Prepared.count (Prepared.placeholders parts last) = length parts.
Proof.
  intros Hparts Hlast.
  induction Hparts as [|part parts Hpart _ IH]; cbn [Prepared.placeholders length].
  - exact Hlast.
  - destruct (part_passed_over part ("%s" +:+ Prepared.placeholders parts last) ""
                Hpart) as [-> _]; [discriminate|].
    rewrite !append_cons, append_empty. cbn [Prepared.count].
    rewrite decide_True by auto. rewrite IH. reflexivity.
Qed.

Lemma while_numbers parts last : forall prefix k,
  Forall (fun part => Prepared.count part = O) parts ->
  Prepared.passed_over prefix ->
  Prepared.while (length parts) k (prefix +:+ Prepared.placeholders parts last)
  = prefix +:+ Prepared.numbered (S k) parts last.
Proof.
  induction parts as [|part parts IH]; intros prefix k Hparts Hprefix;
    [reflexivity|].
  apply Forall_cons in Hparts as [Hpart Hparts].
  cbn [length Prepared.while Prepared.placeholders Prepared.numbered].
  destruct (Hprefix (part +:+ "%s" +:+ Prepared.placeholders parts last)
              ("$" +:+ Prepared.str (S k))) as [_ ->].
  destruct (part_passed_over part ("%s" +:+ Prepared.placeholders parts last)
              ("$" +:+ Prepared.str (S k)) Hpart) as [_ ->]; [discriminate|].
  change (Prepared.replace ("%s" +:+ Prepared.placeholders parts last)
            ("$" +:+ Prepared.str (S k)))
    with (("$" +:+ Prepared.str (S k)) +:+ Prepared.placeholders parts last).
  rewrite (append_assoc "$"), <- !append_assoc.
  rewrite (IH (((prefix +:+ part) +:+ "$") +:+ Prepared.str (S k)) (S k) Hparts).
  - reflexivity.
  - pose proof (passed_over_numbered prefix part (S k) Hprefix Hpart) as Hpassed.
    rewrite <- !append_assoc in Hpassed. exact Hpassed.
Qed.

Lemma numbered_passed_over parts last : forall k,
  Forall (fun part => Prepared.count part = O) parts ->
  Prepared.count last = O ->
  Prepared.count (Prepared.numbered k parts last) = O.
Proof.
  induction parts as [|part parts IH]; intros k Hparts Hlast; [exact Hlast|].
  apply Forall_cons in Hparts as [Hpart Hparts]. cbn [Prepared.numbered].
  destruct (passed_over_numbered "" part k passed_over_empty Hpart
              (Prepared.numbered (S k) parts last) "") as [Hcount _].
  rewrite append_empty, !append_assoc in Hcount. rewrite Hcount.
  apply IH; assumption.
Qed.

(** Every text is made of parts without a placeholder, with a
    placeholder after each but the last. *)
Lemma placeholders_split n : forall q,
  (String.length q <= n)%nat ->
  exists parts last,
    q = Prepared.placeholders parts last
    /\ Forall (fun part => Prepared.count part = O) parts
    /\ Prepared.count last = O.
Proof.
  induction n as [|n IH]; intros q Hlen.
  - destruct q; [|simpl in Hlen; lia]. exists [], "". auto.
  - destruct q as [|c rest]; [exists [], ""; auto|].
    simpl in Hlen.
    assert (Hcases : (exists rest', c = "%"%char /\ rest = String "s" rest')
                     \/ ~ (exists rest', c = "%"%char /\ rest = String "s" rest')).
    { destruct rest as [|c' rest']; [right; intros (? & _ & ?); discriminate|].
      destruct (decide (c = "%"%char /\ c' = "s"%char)) as [[-> ->]|Hno];
        [left; eauto|].
      right. intros (tail & -> & Heq). injection Heq as -> _. apply Hno. auto. }
    destruct Hcases as [(rest' & -> & ->)|Hother].
    + destruct (IH rest') as (parts & last & -> & Hparts & Hlast);
        [simpl in Hlen; lia|].
      exists ("" :: parts), last. split; [reflexivity|]. split; [|exact Hlast].
      constructor; [reflexivity | exact Hparts].
    + destruct (IH rest) as (parts & last & -> & Hparts & Hlast); [lia|].
      assert (Hcons : forall tail, Prepared.count (String c tail)
                                   = Prepared.count tail
                                   \/ exists tail', c = "%"%char
                                                    /\ tail = String "s" tail').
      { intros tail. destruct tail as [|c' tail']; [left; reflexivity|].
        cbn [Prepared.count]. case_decide as Hmatch; [|left; reflexivity].
        destruct Hmatch as [-> ->]. right. eauto. }
      destruct parts as [|part parts].
      * exists [], (String c last). split; [reflexivity|]. split; [constructor|].
        destruct (Hcons last) as [-> | Hmatch]; [exact Hlast|].
        exfalso. apply Hother. exact Hmatch.
      * apply Forall_cons in Hparts as [Hpart Hparts].
        exists (String c part :: parts), last. split; [reflexivity|].
        split; [|exact Hlast]. constructor; [|exact Hparts].
        destruct (Hcons part) as [-> | (tail' & -> & ->)]; [exact Hpart|].
        exfalso. apply Hother. cbn [Prepared.placeholders].
        rewrite append_cons. eauto.
Qed.

Section to_prepared_queries.
Context (name : string) (datatypes : list string).

(** X23: [to_prepared_queries] keeps the order and the number of the
    entries and hands a marker on as it is; in a statement text it
    numbers the placeholders from the left, [$1], [$2], ..., leaves
    everything between them as it is and leaves no placeholder. *)
Theorem to_prepared_queries_numbers queries :
  length (Prepared.to_prepared_queries name queries datatypes) = length queries
  /\ (forall n e,
        queries !! n = Some (Prepared.Marker e) ->
        Prepared.to_prepared_queries name queries datatypes !! n
        = Some (Prepared.Marker e))
  /\ (forall n q,
        queries !! n = Some (Prepared.Str q) ->
        exists parts last,
          Prepared.strip q = Prepared.placeholders parts last
          /\ Forall (fun part => Prepared.count part = O) parts
          /\ Prepared.count last = O
          /\ Prepared.to_prepared_queries name queries datatypes !! n
             = Some (Prepared.Str
                       ("PREPARE " +:+ name +:+ Prepared.datatypes_text datatypes
                        +:+ " AS " +:+ Prepared.numbered 1 parts last))
          /\ Prepared.count (Prepared.numbered 1 parts last) = O).
Proof.
  unfold Prepared.to_prepared_queries. split; [apply length_fmap|]. split.
  - intros n e Hn. rewrite list_lookup_fmap, Hn. reflexivity.
  - intros n q Hn.
    destruct (placeholders_split (String.length (Prepared.strip q))
                (Prepared.strip q) (le_n _))
      as (parts & last & Hsplit & Hparts & Hlast).
    exists parts, last. split; [exact Hsplit|]. split; [exact Hparts|].
    split; [exact Hlast|]. split; [|apply numbered_passed_over; assumption].
    rewrite list_lookup_fmap, Hn. cbn [fmap option_fmap option_map]. rewrite Hsplit.
    rewrite count_placeholders by assumption.
    pose proof (while_numbers parts last "" O Hparts passed_over_empty) as Hloop.
    rewrite !append_empty in Hloop. rewrite Hloop. reflexivity.
Qed.

End to_prepared_queries.
